(** * The CDP WebSocket shim: a shallow embedding and its checked properties

    The development follows the source of the shim (the Hono route [cdp]
    with its upgrade and discovery handlers, [initCDPSession],
    [handleCDPMethod] and the per-domain handlers [handleBrowser] ...
    [handleFetch], [sendResponse], [sendError], [sendEvent] and
    [timingSafeEqual]), and [redactSensitiveParams], through which the
    worker logs the urls of its requests.

    - JavaScript values are an inductive type [JSValue]; the session is the
      record [CDPSession] with the fields of the TypeScript interface.
    - The handlers are written in a small monad [M] that threads the session,
      records what is written to the socket and what is asked of the browser
      backend, and propagates thrown values ([throw], [try_catch]).
    - Everything the handlers await from outside (Puppeteer, and the
      built-ins of the runtime whose result the code does not control) is
      answered by a [World], over which every theorem quantifies. *)

From Stdlib Require Import ZArith String Ascii List Bool Lia Sorted.
From stdpp Require Import base option list gmap strings pretty.

Open Scope string_scope.
Open Scope list_scope.
Open Scope Z_scope.

(** ** JavaScript values *)

(** Numbers are the integers the shim itself produces and compares (ids,
    counters, indices, status codes) plus [JNaN]; other numbers the shim only
    forwards, and they come from the [World] as opaque values. *)
#[warnings="-register-all"] Inductive JSValue : Type :=
  | JUndefined
  | JNull
  | JBool (b : bool)
  | JNum (n : Z)
  | JNaN
  | JStr (s : string)
  | JArr (items : list JSValue)
  | JObj (fields : list (string * JSValue)).

(** [!!v] of JavaScript. *)
Definition truthy (v : JSValue) : bool :=
  match v with
  | JUndefined | JNull | JNaN => false
  | JBool b => b
  | JNum n => negb (n =? 0)
  | JStr s => negb (String.eqb s "")
  | JArr _ | JObj _ => true
  end.

Definition typeof (v : JSValue) : string :=
  match v with
  | JUndefined => "undefined"
  | JBool _ => "boolean"
  | JNum _ | JNaN => "number"
  | JStr _ => "string"
  | JNull | JArr _ | JObj _ => "object"
  end.

Definition isArray (v : JSValue) : bool :=
  match v with JArr _ => true | _ => false end.

Definition is_null (v : JSValue) : bool :=
  match v with JNull => true | _ => false end.

Definition nullish (v : JSValue) : bool :=
  match v with JUndefined | JNull => true | _ => false end.

(** [a || b] and [a ?? b]. *)
Definition js_or (a b : JSValue) : JSValue := if truthy a then a else b.
Definition js_coalesce (a b : JSValue) : JSValue := if nullish a then b else a.

Fixpoint assoc (k : string) (fields : list (string * JSValue)) : JSValue :=
  match fields with
  | [] => JUndefined
  | (k', v) :: rest => if String.eqb k k' then v else assoc k rest
  end.

Definition string_chars (s : string) : list JSValue :=
  map (fun c => JStr (String c EmptyString)) (list_ascii_of_string s).

(** [v.k] on a value that is not null or undefined. *)
Definition prop (v : JSValue) (k : string) : JSValue :=
  match v with
  | JObj fields => assoc k fields
  | JArr items => if String.eqb k "length" then JNum (Z.of_nat (length items)) else JUndefined
  | JStr s => if String.eqb k "length" then JNum (Z.of_nat (String.length s)) else JUndefined
  | _ => JUndefined
  end.

(** [a === b] against a string literal. *)
Definition is_string (v : JSValue) (lit : string) : bool :=
  match v with JStr s => String.eqb s lit | _ => false end.

Definition join_with (sep : string) (parts : list string) : string :=
  match parts with
  | [] => ""
  | p :: rest => fold_left (fun acc q => acc +:+ sep +:+ q) rest p
  end.

(** ** Numbers as strings

    [Number::toString] of the language on an integer. A number is a binary64
    double: [binary64 n] is the double nearest to the natural number [n],
    ties to even, which is [n] itself up to 2^53. The digits printed are
    those of the shortest decimal that reads back as the same double, the
    nearest one when there are several. Up to 21 digits they are followed by
    zeros; from 10^21 on the exponent form is used, and what lies beyond the
    largest double is [Infinity]. *)
Definition binary64 (n : Z) : Z :=
  let shift := Z.log2 n - 52 in
  if shift <=? 0 then n else
  let q := Z.shiftr n shift in
  let rest := Z.land n (Z.ones shift) in
  let half := Z.shiftl 1 (shift - 1) in
  Z.shiftl (if (half <? rest) || ((rest =? half) && Z.odd q) then q + 1 else q) shift.

Definition decimal_digits (n : Z) : Z := Z.of_nat (String.length (pretty n)).

(** The decimal of [k] significant digits that reads back as the double [x],
    if there is one: the multiple of the unit of the [k]-th digit just below
    [x] or the one just above, the nearer of the two, the even one on a
    tie. *)
Definition decimal_with (x k : Z) : option Z :=
  let unit := 10 ^ (decimal_digits x - k) in
  let lo := x / unit * unit in
  let hi := lo + unit in
  match binary64 lo =? x, binary64 hi =? x with
  | true, true =>
      Some (if x - lo <? hi - x then lo
            else if hi - x <? x - lo then hi
            else if Z.even (lo / unit) then lo else hi)
  | true, false => Some lo
  | false, true => Some hi
  | false, false => None
  end.

(** Seventeen digits always read back. *)
Definition shortest_decimal (x : Z) : Z :=
  default x (head (omap (decimal_with x)
                     (map Z.of_nat (seq 1 (Nat.min 17 (Z.to_nat (decimal_digits x))))))).

Fixpoint strip_trailing_zeros (s : string) : string :=
  match s with
  | EmptyString => EmptyString
  | String c rest =>
      let rest' := strip_trailing_zeros rest in
      if Ascii.eqb c "0" && String.eqb rest' "" then "" else String c rest'
  end.

Definition Number_toString (n : Z) : string :=
  if n =? 0 then "0" else
  let sign := if n <? 0 then "-" else "" in
  let x := binary64 (Z.abs n) in
  if 2 ^ 1024 <=? x then sign +:+ "Infinity" else
  let digits := pretty (shortest_decimal x) in
  if (String.length digits <=? 21)%nat then sign +:+ digits else
  match strip_trailing_zeros digits with
  | String d rest =>
      sign +:+ String d (if String.eqb rest "" then "" else "." +:+ rest) +:+
      "e+" +:+ pretty (Z.of_nat (String.length digits) - 1)
  | EmptyString => sign +:+ digits
  end.

(** [String(v)] and the conversion of a template literal. [None] is the
    TypeError of an object that cannot be converted to a primitive: plain
    data with an own [toString] member that is not callable. *)
Fixpoint js_String (v : JSValue) : option string :=
  match v with
  | JUndefined => Some "undefined"
  | JNull => Some "null"
  | JBool true => Some "true"
  | JBool false => Some "false"
  | JNum n => Some (Number_toString n)
  | JNaN => Some "NaN"
  | JStr s => Some s
  | JArr items =>
      let fix go (l : list JSValue) : option (list string) :=
        match l with
        | [] => Some []
        | x :: rest =>
            match (if nullish x then Some "" else js_String x), go rest with
            | Some s, Some ss => Some (s :: ss)
            | _, _ => None
            end
        end in
      match go items with
      | Some parts => Some (join_with "," parts)
      | None => None
      end
  | JObj fields =>
      if existsb (fun kv => String.eqb (fst kv) "toString") fields
      then None else Some "[object Object]"
  end.

(** [method.split('.')]. *)
Fixpoint split_dot_go (acc : string) (s : string) : list string :=
  match s with
  | EmptyString => [acc]
  | String c rest =>
      if Ascii.eqb c "."%char then acc :: split_dot_go "" rest
      else split_dot_go (acc +:+ String c EmptyString) rest
  end.
Definition split_dot (s : string) : list string := split_dot_go "" s.


(** [s.toLowerCase()] on the ASCII letters. *)
Definition lower_ascii (c : ascii) : ascii :=
  let n := nat_of_ascii c in
  if ((65 <=? n)%nat && (n <=? 90)%nat)%bool then ascii_of_nat (n + 32) else c.
Fixpoint toLowerCase (s : string) : string :=
  match s with
  | EmptyString => EmptyString
  | String c rest => String (lower_ascii c) (toLowerCase rest)
  end.

(** [s.includes(needle)]. *)
Fixpoint includes (s needle : string) : bool :=
  if String.prefix needle s then true
  else match s with
       | EmptyString => false
       | String _ rest => includes rest needle
       end.


(** ** A JavaScript [Map] with string keys, in insertion order

    [session.pages] is iterated by [Target.getTargets], so it keeps the order
    of a JavaScript [Map]: [set] on a present key replaces in place, on a new
    key appends. The other maps of the session are never iterated and are
    [gmap]s. *)
Module JsMap.
Definition t (V : Type) := list (string * V).

Fixpoint get {V} (k : string) (m : t V) : option V :=
    match m with
    | [] => None
    | (k', v) :: rest => if String.eqb k k' then Some v else get k rest
    end.

Fixpoint set {V} (k : string) (v : V) (m : t V) : t V :=
    match m with
    | [] => [(k, v)]
    | (k', v') :: rest =>
        if String.eqb k k' then (k, v) :: rest else (k', v') :: set k v rest
    end.

Fixpoint delete {V} (k : string) (m : t V) : t V :=
    match m with
    | [] => []
    | (k', v') :: rest =>
        if String.eqb k k' then delete k rest else (k', v') :: delete k rest
    end.

End JsMap.

(** A map keyed by strings read with an arbitrary value as key: a key that is
    not a string is never present. *)
Definition pages_get {V} (m : JsMap.t V) (key : JSValue) : option V :=
  match key with JStr k => JsMap.get k m | _ => None end.
Definition pages_delete {V} (key : JSValue) (m : JsMap.t V) : JsMap.t V :=
  match key with JStr k => JsMap.delete k m | _ => m end.
Definition smap_get {V} (m : gmap string V) (key : JSValue) : option V :=
  match key with JStr k => m !! k | _ => None end.
Definition smap_delete {V} (key : JSValue) (m : gmap string V) : gmap string V :=
  match key with JStr k => delete k m | _ => m end.
(** The node map is keyed by numbers. *)
Definition nmap_get {V} (m : gmap Z V) (key : JSValue) : option V :=
  match key with JNum k => m !! k | _ => None end.
Definition nmap_delete {V} (key : JSValue) (m : gmap Z V) : gmap Z V :=
  match key with JNum k => delete k m | _ => m end.

(** ** The session *)

Definition Browser := N.
Definition Page := N.

(** The Puppeteer request object handed to the [request] listener, with the
    values of its getters. *)
Record Request := {
  req_handle : N;
  req_url : string;
  req_method : string;
  req_headers : JSValue;
  req_postData : JSValue;
  req_resourceType : string;
}.

(** [interface CDPSession]. The [resolve] member of a pending request is the
    constant [() => {}] and is never called; only the request is kept. The two
    counters are JavaScript numbers that only ever hold integers; they are
    integers here, which is exact as long as fewer than 2^53 ids are
    allocated. The values of [nodeMap] are whatever [selector] was, a string
    in practice. *)
Record CDPSession := {
  browser : Browser;
  pages : JsMap.t Page;
  defaultTargetId : string;
  nodeIdCounter : Z;
  nodeMap : gmap Z JSValue;
  objectIdCounter : Z;
  objectMap : gmap string JSValue;
  scriptsToEvaluateOnNewDocument : gmap string JSValue;
  extraHTTPHeaders : gmap string JSValue;
  requestInterceptionEnabled : bool;
  pendingRequests : gmap string Request;
}.

Definition with_pages (f : JsMap.t Page → JsMap.t Page) (s : CDPSession) :=
  {| browser := browser s; pages := f (pages s); defaultTargetId := defaultTargetId s;
     nodeIdCounter := nodeIdCounter s; nodeMap := nodeMap s;
     objectIdCounter := objectIdCounter s; objectMap := objectMap s;
     scriptsToEvaluateOnNewDocument := scriptsToEvaluateOnNewDocument s;
     extraHTTPHeaders := extraHTTPHeaders s;
     requestInterceptionEnabled := requestInterceptionEnabled s;
     pendingRequests := pendingRequests s |}.

Definition with_nodeIdCounter (f : Z → Z) (s : CDPSession) :=
  {| browser := browser s; pages := pages s; defaultTargetId := defaultTargetId s;
     nodeIdCounter := f (nodeIdCounter s); nodeMap := nodeMap s;
     objectIdCounter := objectIdCounter s; objectMap := objectMap s;
     scriptsToEvaluateOnNewDocument := scriptsToEvaluateOnNewDocument s;
     extraHTTPHeaders := extraHTTPHeaders s;
     requestInterceptionEnabled := requestInterceptionEnabled s;
     pendingRequests := pendingRequests s |}.

Definition with_nodeMap (f : gmap Z JSValue → gmap Z JSValue) (s : CDPSession) :=
  {| browser := browser s; pages := pages s; defaultTargetId := defaultTargetId s;
     nodeIdCounter := nodeIdCounter s; nodeMap := f (nodeMap s);
     objectIdCounter := objectIdCounter s; objectMap := objectMap s;
     scriptsToEvaluateOnNewDocument := scriptsToEvaluateOnNewDocument s;
     extraHTTPHeaders := extraHTTPHeaders s;
     requestInterceptionEnabled := requestInterceptionEnabled s;
     pendingRequests := pendingRequests s |}.

Definition with_objectIdCounter (f : Z → Z) (s : CDPSession) :=
  {| browser := browser s; pages := pages s; defaultTargetId := defaultTargetId s;
     nodeIdCounter := nodeIdCounter s; nodeMap := nodeMap s;
     objectIdCounter := f (objectIdCounter s); objectMap := objectMap s;
     scriptsToEvaluateOnNewDocument := scriptsToEvaluateOnNewDocument s;
     extraHTTPHeaders := extraHTTPHeaders s;
     requestInterceptionEnabled := requestInterceptionEnabled s;
     pendingRequests := pendingRequests s |}.

Definition with_objectMap (f : gmap string JSValue → gmap string JSValue) (s : CDPSession) :=
  {| browser := browser s; pages := pages s; defaultTargetId := defaultTargetId s;
     nodeIdCounter := nodeIdCounter s; nodeMap := nodeMap s;
     objectIdCounter := objectIdCounter s; objectMap := f (objectMap s);
     scriptsToEvaluateOnNewDocument := scriptsToEvaluateOnNewDocument s;
     extraHTTPHeaders := extraHTTPHeaders s;
     requestInterceptionEnabled := requestInterceptionEnabled s;
     pendingRequests := pendingRequests s |}.

Definition with_scripts (f : gmap string JSValue → gmap string JSValue) (s : CDPSession) :=
  {| browser := browser s; pages := pages s; defaultTargetId := defaultTargetId s;
     nodeIdCounter := nodeIdCounter s; nodeMap := nodeMap s;
     objectIdCounter := objectIdCounter s; objectMap := objectMap s;
     scriptsToEvaluateOnNewDocument := f (scriptsToEvaluateOnNewDocument s);
     extraHTTPHeaders := extraHTTPHeaders s;
     requestInterceptionEnabled := requestInterceptionEnabled s;
     pendingRequests := pendingRequests s |}.

Definition with_extraHTTPHeaders (f : gmap string JSValue → gmap string JSValue) (s : CDPSession) :=
  {| browser := browser s; pages := pages s; defaultTargetId := defaultTargetId s;
     nodeIdCounter := nodeIdCounter s; nodeMap := nodeMap s;
     objectIdCounter := objectIdCounter s; objectMap := objectMap s;
     scriptsToEvaluateOnNewDocument := scriptsToEvaluateOnNewDocument s;
     extraHTTPHeaders := f (extraHTTPHeaders s);
     requestInterceptionEnabled := requestInterceptionEnabled s;
     pendingRequests := pendingRequests s |}.

Definition with_requestInterceptionEnabled (b : bool) (s : CDPSession) :=
  {| browser := browser s; pages := pages s; defaultTargetId := defaultTargetId s;
     nodeIdCounter := nodeIdCounter s; nodeMap := nodeMap s;
     objectIdCounter := objectIdCounter s; objectMap := objectMap s;
     scriptsToEvaluateOnNewDocument := scriptsToEvaluateOnNewDocument s;
     extraHTTPHeaders := extraHTTPHeaders s;
     requestInterceptionEnabled := b;
     pendingRequests := pendingRequests s |}.

Definition with_pendingRequests (f : gmap string Request → gmap string Request) (s : CDPSession) :=
  {| browser := browser s; pages := pages s; defaultTargetId := defaultTargetId s;
     nodeIdCounter := nodeIdCounter s; nodeMap := nodeMap s;
     objectIdCounter := objectIdCounter s; objectMap := objectMap s;
     scriptsToEvaluateOnNewDocument := scriptsToEvaluateOnNewDocument s;
     extraHTTPHeaders := extraHTTPHeaders s;
     requestInterceptionEnabled := requestInterceptionEnabled s;
     pendingRequests := f (pendingRequests s) |}.

(** ** Frames, effects and the outside world *)

(** The three shapes written by [sendResponse], [sendError] and [sendEvent],
    before [JSON.stringify]. The [id] is whatever the request carried. *)
Inductive Frame :=
  | Response (id : JSValue) (result : JSValue)
  | ErrorFrame (id : JSValue) (code : Z) (message : string)
  | Event (method : string) (params : JSValue).

(** What a handler does to the outside, in program order. *)
Inductive Effect :=
  | Send (frame : Frame)                          (* ws.send(JSON.stringify(frame)) *)
  | Close (code : Z) (reason : string)            (* ws.close(code, reason) *)
  | Call (name : string) (args : list JSValue)    (* a call answered by the world *)
  | OnRequest (page : Page) (patterns : JSValue)  (* page.on('request', listener) *)
  | OnDialog (page : Page) (accept promptText : JSValue).

(** A thrown value: an [Error] with its message, or anything else. *)
Inductive Thrown :=
  | ErrorObj (message : string)
  | Raised (value : JSValue).

Inductive Outcome (A : Type) :=
  | Returns (a : A)
  | Rejects (e : Thrown).
Arguments Returns {A} a.
Arguments Rejects {A} e.

(** The answers of the outside for the time of one command: the backend and
    the runtime built-ins by name and arguments, the page of
    [browser.newPage()], the identifier of [crypto.randomUUID()]. *)
Record World := {
  backend : string → list JSValue → Outcome JSValue;
  launch : Outcome Browser;
  newPage : Outcome Page;
  randomUUID : string;
}.

(** ** The handler monad *)

#[projections(primitive)] Record Res (A : Type) := mkRes {
  out : Outcome A;
  st : CDPSession;
  fx : list Effect;
}.
Arguments mkRes {A} out st fx.
Arguments out {A} r.
Arguments st {A} r.
Arguments fx {A} r.

Definition M (A : Type) := World → CDPSession → Res A.

Definition ret {A} (a : A) : M A := fun _ s => mkRes (Returns a) s [].

Definition throw {A} (e : Thrown) : M A := fun _ s => mkRes (Rejects e) s [].

Definition bind {A B} (m : M A) (k : A → M B) : M B := fun w s =>
  let r := m w s in
  match out r with
  | Returns a => let r' := k a w (st r) in mkRes (out r') (st r') (fx r ++ fx r')
  | Rejects e => mkRes (Rejects e) (st r) (fx r)
  end.

(** [try { m } catch (err) { h err }]. *)
Definition try_catch {A} (m : M A) (h : Thrown → M A) : M A := fun w s =>
  let r := m w s in
  match out r with
  | Returns a => r
  | Rejects e => let r' := h e w (st r) in mkRes (out r') (st r') (fx r ++ fx r')
  end.

#[global] Instance M_ret : MRet M := @ret.
#[global] Instance M_bind : MBind M := fun A B k m => bind m k.

Definition gets {A} (f : CDPSession → A) : M A := fun _ s => mkRes (Returns (f s)) s [].
Definition modify (f : CDPSession → CDPSession) : M unit := fun _ s => mkRes (Returns tt) (f s) [].
Definition emit (e : Effect) : M unit := fun _ s => mkRes (Returns tt) s [e].

(** A call answered by the world: [await page.goto(url)], [new URL(u).origin], ... *)
Definition call (name : string) (args : list JSValue) : M JSValue := fun w s =>
  mkRes (backend w name args) s [Call name args].

Definition browser_newPage : M Page := fun w s =>
  mkRes (newPage w) s [Call "browser.newPage" []].

Definition crypto_randomUUID : M string := fun w s => mkRes (Returns (randomUUID w)) s [].

Definition throw_Error {A} (message : string) : M A := throw (ErrorObj message).
Definition throw_TypeError {A} (message : string) : M A := throw (ErrorObj message).

(** A template literal part: throws where the conversion does. *)
Definition template (v : JSValue) : M string :=
  match js_String v with
  | Some s => ret s
  | None => throw_TypeError "Cannot convert object to primitive value"
  end.

(** [v.k], throwing on [null] and [undefined]. *)
Definition member (v : JSValue) (k : string) : M JSValue :=
  if nullish v then throw_TypeError ("Cannot read properties of " +:+ default "" (js_String v) +:+ " (reading '" +:+ k +:+ "')")
  else ret (prop v k).

Fixpoint for_each {A} (l : list A) (body : A → M unit) : M unit :=
  match l with
  | [] => ret tt
  | x :: rest => _ ← body x; for_each rest body
  end.

Fixpoint map_M {A B} (f : A → M B) (l : list A) : M (list B) :=
  match l with
  | [] => ret []
  | x :: rest => y ← f x; ys ← map_M f rest; ret (y :: ys)
  end.

Definition sendEvent (method : string) (params : JSValue) : M unit :=
  emit (Send (Event method params)).
Definition sendResponse (id : JSValue) (result : JSValue) : M unit :=
  emit (Send (Response id result)).
Definition sendError (id : JSValue) (code : Z) (message : string) : M unit :=
  emit (Send (ErrorFrame id code message)).

(** [f(...v)], where [name] is the text of the argument: the elements of an
    array or the characters of a string are passed one by one; anything else
    cannot be spread. *)
Definition spread (name : string) (v : JSValue) : M (list JSValue) :=
  match v with
  | JArr items => ret items
  | JStr s => ret (string_chars s)
  | JUndefined | JNull =>
      throw_TypeError (name +:+ " is not iterable (cannot read property Symbol(Symbol.iterator))")
  | _ => throw_TypeError "Spread syntax requires ...iterable[Symbol.iterator] to be a function"
  end.

Definition page_ref (p : Page) : JSValue := JNum (Z.of_N p).
Definition empty_object : JSValue := JObj [].

(** ** Command tables

    Each [switch (command)] of the source is a table from the case labels to
    an enumeration, and a [match] on the entry found; a command outside the
    table, or a method without a second component ([undefined]), takes the
    [default] branch. *)
Definition lookup_command {C} (table : list (string * C)) (command : option string) : option C :=
  match command with
  | Some c => snd <$> find (fun entry => String.eqb c (fst entry)) table
  | None => None
  end.

Definition command_text (command : option string) : string :=
  match command with Some c => c | None => "undefined" end.

Inductive BrowserCommand := B_getVersion | B_close.
Definition browser_commands : list (string * BrowserCommand) :=
  [("getVersion", B_getVersion); ("close", B_close)].

Inductive TargetCommand := T_createTarget | T_closeTarget | T_getTargets | T_attachToTarget.
Definition target_commands : list (string * TargetCommand) :=
  [("createTarget", T_createTarget); ("closeTarget", T_closeTarget);
   ("getTargets", T_getTargets); ("attachToTarget", T_attachToTarget)].

Inductive PageCommand :=
  | P_navigate | P_reload | P_getFrameTree | P_captureScreenshot | P_getLayoutMetrics
  | P_bringToFront | P_setContent | P_printToPDF | P_addScriptToEvaluateOnNewDocument
  | P_removeScriptToEvaluateOnNewDocument | P_handleJavaScriptDialog | P_stopLoading
  | P_getNavigationHistory | P_navigateToHistoryEntry | P_setBypassCSP | P_enable | P_disable.
Definition page_commands : list (string * PageCommand) :=
  [("navigate", P_navigate); ("reload", P_reload); ("getFrameTree", P_getFrameTree);
   ("captureScreenshot", P_captureScreenshot); ("getLayoutMetrics", P_getLayoutMetrics);
   ("bringToFront", P_bringToFront); ("setContent", P_setContent); ("printToPDF", P_printToPDF);
   ("addScriptToEvaluateOnNewDocument", P_addScriptToEvaluateOnNewDocument);
   ("removeScriptToEvaluateOnNewDocument", P_removeScriptToEvaluateOnNewDocument);
   ("handleJavaScriptDialog", P_handleJavaScriptDialog); ("stopLoading", P_stopLoading);
   ("getNavigationHistory", P_getNavigationHistory);
   ("navigateToHistoryEntry", P_navigateToHistoryEntry); ("setBypassCSP", P_setBypassCSP);
   ("enable", P_enable); ("disable", P_disable)].

Inductive RuntimeCommand :=
  | R_evaluate | R_callFunctionOn | R_getProperties | R_releaseObject | R_releaseObjectGroup
  | R_enable | R_disable.
Definition runtime_commands : list (string * RuntimeCommand) :=
  [("evaluate", R_evaluate); ("callFunctionOn", R_callFunctionOn);
   ("getProperties", R_getProperties); ("releaseObject", R_releaseObject);
   ("releaseObjectGroup", R_releaseObjectGroup); ("enable", R_enable); ("disable", R_disable)].

Inductive DOMCommand :=
  | D_getDocument | D_querySelector | D_querySelectorAll | D_getOuterHTML | D_getAttributes
  | D_setAttributeValue | D_focus | D_getBoxModel | D_scrollIntoViewIfNeeded | D_removeNode
  | D_setNodeValue | D_setFileInputFiles | D_enable | D_disable.
Definition dom_commands : list (string * DOMCommand) :=
  [("getDocument", D_getDocument); ("querySelector", D_querySelector);
   ("querySelectorAll", D_querySelectorAll); ("getOuterHTML", D_getOuterHTML);
   ("getAttributes", D_getAttributes); ("setAttributeValue", D_setAttributeValue);
   ("focus", D_focus); ("getBoxModel", D_getBoxModel);
   ("scrollIntoViewIfNeeded", D_scrollIntoViewIfNeeded); ("removeNode", D_removeNode);
   ("setNodeValue", D_setNodeValue); ("setFileInputFiles", D_setFileInputFiles);
   ("enable", D_enable); ("disable", D_disable)].

Inductive InputCommand := I_dispatchMouseEvent | I_dispatchKeyEvent | I_insertText.
Definition input_commands : list (string * InputCommand) :=
  [("dispatchMouseEvent", I_dispatchMouseEvent); ("dispatchKeyEvent", I_dispatchKeyEvent);
   ("insertText", I_insertText)].

Inductive NetworkCommand :=
  | N_enable | N_disable | N_setCacheDisabled | N_setExtraHTTPHeaders | N_setCookie
  | N_setCookies | N_getCookies | N_deleteCookies | N_clearBrowserCookies
  | N_setUserAgentOverride.
Definition network_commands : list (string * NetworkCommand) :=
  [("enable", N_enable); ("disable", N_disable); ("setCacheDisabled", N_setCacheDisabled);
   ("setExtraHTTPHeaders", N_setExtraHTTPHeaders); ("setCookie", N_setCookie);
   ("setCookies", N_setCookies); ("getCookies", N_getCookies);
   ("deleteCookies", N_deleteCookies); ("clearBrowserCookies", N_clearBrowserCookies);
   ("setUserAgentOverride", N_setUserAgentOverride)].

Inductive EmulationCommand :=
  | E_setDeviceMetricsOverride | E_setUserAgentOverride | E_clearDeviceMetricsOverride
  | E_setGeolocationOverride | E_clearGeolocationOverride | E_setTimezoneOverride
  | E_setTouchEmulationEnabled | E_setEmulatedMedia | E_setDefaultBackgroundColorOverride.
Definition emulation_commands : list (string * EmulationCommand) :=
  [("setDeviceMetricsOverride", E_setDeviceMetricsOverride);
   ("setUserAgentOverride", E_setUserAgentOverride);
   ("clearDeviceMetricsOverride", E_clearDeviceMetricsOverride);
   ("setGeolocationOverride", E_setGeolocationOverride);
   ("clearGeolocationOverride", E_clearGeolocationOverride);
   ("setTimezoneOverride", E_setTimezoneOverride);
   ("setTouchEmulationEnabled", E_setTouchEmulationEnabled);
   ("setEmulatedMedia", E_setEmulatedMedia);
   ("setDefaultBackgroundColorOverride", E_setDefaultBackgroundColorOverride)].

Inductive FetchCommand :=
  | F_enable | F_disable | F_continueRequest | F_fulfillRequest | F_failRequest
  | F_getResponseBody.
Definition fetch_commands : list (string * FetchCommand) :=
  [("enable", F_enable); ("disable", F_disable); ("continueRequest", F_continueRequest);
   ("fulfillRequest", F_fulfillRequest); ("failRequest", F_failRequest);
   ("getResponseBody", F_getResponseBody)].

(** ** Browser and Target domains *)

Definition handleBrowser (command : option string) (params : JSValue) : M JSValue :=
  match lookup_command browser_commands command with
  | Some B_getVersion =>
      ret (JObj [("protocolVersion", JStr "1.3");
                 ("product", JStr "Cloudflare-Browser-Rendering");
                 ("revision", JStr "cloudflare");
                 ("userAgent", JStr "Mozilla/5.0 Cloudflare Browser Rendering");
                 ("jsVersion", JStr "V8")])
  | Some B_close =>
      _ ← call "browser.close" [];
      ret empty_object
  | None => throw_Error ("Unknown Browser method: " +:+ command_text command)
  end.

Definition targetInfo (targetId : string) (title url : JSValue) : JSValue :=
  JObj [("targetId", JStr targetId); ("type", JStr "page"); ("title", title);
        ("url", url); ("attached", JBool true)].

Definition handleTarget (command : option string) (params : JSValue) : M JSValue :=
  match lookup_command target_commands command with
  | Some T_createTarget =>
      let url := js_or (prop params "url") (JStr "about:blank") in
      page ← browser_newPage;
      targetId ← crypto_randomUUID;
      _ ← modify (with_pages (JsMap.set targetId page));
      _ ← (if negb (is_string url "about:blank")
           then _ ← call "page.goto" [page_ref page; url]; ret tt
           else ret tt);
      title ← call "page.title" [page_ref page];
      u ← call "page.url" [page_ref page];
      _ ← sendEvent "Target.targetCreated" (JObj [("targetInfo", targetInfo targetId title u)]);
      ret (JObj [("targetId", JStr targetId)])
  | Some T_closeTarget =>
      let targetId := prop params "targetId" in
      ps ← gets pages;
      match pages_get ps targetId with
      | None =>
          t ← template targetId;
          throw_Error ("Target not found: " +:+ t)
      | Some page =>
          _ ← call "page.close" [page_ref page];
          _ ← modify (with_pages (pages_delete targetId));
          _ ← sendEvent "Target.targetDestroyed" (JObj [("targetId", targetId)]);
          ret (JObj [("success", JBool true)])
      end
  | Some T_getTargets =>
      ps ← gets pages;
      targets ← map_M (fun entry : string * Page =>
                         title ← call "page.title" [page_ref (snd entry)];
                         u ← call "page.url" [page_ref (snd entry)];
                         ret (targetInfo (fst entry) title u)) ps;
      ret (JObj [("targetInfos", JArr targets)])
  | Some T_attachToTarget =>
      ret (JObj [("sessionId", prop params "targetId")])
  | None => throw_Error ("Unknown Target method: " +:+ command_text command)
  end.

(** ** Page domain *)

(** [if (params.k) options.k' = params.k]. *)
Definition option_field (name : string) (v : JSValue) : list (string * JSValue) :=
  if truthy v then [(name, v)] else [].

(** [if (params.k) options.k' = `${params.k}in`]. *)
Definition inches_field (name : string) (v : JSValue) : M (list (string * JSValue)) :=
  if truthy v then s ← template v; ret [(name, JStr (s +:+ "in"))] else ret [].

Definition frame_of (s : CDPSession) (loaderId : list (string * JSValue)) (url origin : JSValue) : JSValue :=
  JObj ([("id", JStr (defaultTargetId s))] ++ loaderId ++
        [("url", url); ("securityOrigin", origin); ("mimeType", JStr "text/html")]).

Definition handlePage (page : Page) (command : option string) (params : JSValue) : M JSValue :=
  match lookup_command page_commands command with
  | Some P_navigate =>
      let url := prop params "url" in
      if negb (truthy url) then throw_Error "url is required" else
      response ← call "page.goto" [page_ref page; url; JObj [("waitUntil", JStr "load")]];
      u ← call "page.url" [page_ref page];
      u' ← call "page.url" [page_ref page];
      origin ← call "URL.origin" [u'];
      s ← gets id;
      _ ← sendEvent "Page.frameNavigated" (JObj [("frame", frame_of s [] u origin)]);
      now ← call "Date.now() / 1000" [];
      _ ← sendEvent "Page.loadEventFired" (JObj [("timestamp", now)]);
      loaderId ← crypto_randomUUID;
      ok ← (if nullish response then ret JUndefined else call "response.ok" [response]);
      ret (JObj [("frameId", JStr (defaultTargetId s));
                 ("loaderId", JStr loaderId);
                 ("errorText", if truthy ok then JUndefined else JStr "Navigation failed")])
  | Some P_reload =>
      _ ← call "page.reload" [page_ref page];
      ret empty_object
  | Some P_getFrameTree =>
      s ← gets id;
      loaderId ← crypto_randomUUID;
      u ← call "page.url" [page_ref page];
      u' ← call "page.url" [page_ref page];
      origin ← (if truthy u'
                then u'' ← call "page.url" [page_ref page]; call "URL.origin" [u'']
                else ret (JStr ""));
      ret (JObj [("frameTree",
                  JObj [("frame", frame_of s [("loaderId", JStr loaderId)] u origin);
                        ("childFrames", JArr [])])])
  | Some P_captureScreenshot =>
      let format := js_or (prop params "format") (JStr "png") in
      let quality := prop params "quality" in
      let clip := prop params "clip" in
      data ← call "page.screenshot"
               [page_ref page;
                JObj [("type", format); ("encoding", JStr "base64");
                      ("quality", if is_string format "jpeg" then quality else JUndefined);
                      ("clip", clip); ("fullPage", prop params "fullPage")]];
      ret (JObj [("data", data)])
  | Some P_getLayoutMetrics =>
      metrics ← call "page.evaluate" [page_ref page; JStr "layoutMetrics"];
      clientWidth ← member metrics "clientWidth";
      clientHeight ← member metrics "clientHeight";
      ret (JObj [("layoutViewport",
                  JObj [("pageX", JNum 0); ("pageY", JNum 0);
                        ("clientWidth", clientWidth); ("clientHeight", clientHeight)]);
                 ("visualViewport",
                  JObj [("offsetX", JNum 0); ("offsetY", JNum 0); ("pageX", JNum 0);
                        ("pageY", JNum 0); ("clientWidth", clientWidth);
                        ("clientHeight", clientHeight); ("scale", JNum 1)]);
                 ("contentSize",
                  JObj [("x", JNum 0); ("y", JNum 0); ("width", prop metrics "width");
                        ("height", prop metrics "height")])])
  | Some P_bringToFront =>
      _ ← call "page.bringToFront" [page_ref page];
      ret empty_object
  | Some P_setContent =>
      let html := prop params "html" in
      if negb (truthy html) then throw_Error "html is required" else
      _ ← call "page.setContent"
            [page_ref page; html;
             JObj [("waitUntil", js_or (prop params "waitUntil") (JStr "load"))]];
      ret empty_object
  | Some P_printToPDF =>
      width ← inches_field "width" (prop params "paperWidth");
      height ← inches_field "height" (prop params "paperHeight");
      top ← inches_field "top" (prop params "marginTop");
      bottom ← inches_field "bottom" (prop params "marginBottom");
      left ← inches_field "left" (prop params "marginLeft");
      right ← inches_field "right" (prop params "marginRight");
      let margin := top ++ bottom ++ left ++ right in
      let options :=
        option_field "landscape" (prop params "landscape") ++
        option_field "displayHeaderFooter" (prop params "displayHeaderFooter") ++
        option_field "printBackground" (prop params "printBackground") ++
        option_field "scale" (prop params "scale") ++
        width ++ height ++
        (match margin with [] => [] | _ => [("margin", JObj margin)] end) ++
        option_field "pageRanges" (prop params "pageRanges") ++
        option_field "headerTemplate" (prop params "headerTemplate") ++
        option_field "footerTemplate" (prop params "footerTemplate") ++
        option_field "preferCSSPageSize" (prop params "preferCSSPageSize") in
      buffer ← call "page.pdf" [page_ref page; JObj options];
      data ← (if String.eqb (typeof buffer) "string" then ret buffer
              else call "Buffer.from(buffer).toString('base64')" [buffer]);
      ret (JObj [("data", data)])
  | Some P_addScriptToEvaluateOnNewDocument =>
      let source := prop params "source" in
      if negb (truthy source) then throw_Error "source is required" else
      identifier ← crypto_randomUUID;
      _ ← modify (with_scripts (insert identifier source));
      _ ← call "page.evaluateOnNewDocument" [page_ref page; source];
      ret (JObj [("identifier", JStr identifier)])
  | Some P_removeScriptToEvaluateOnNewDocument =>
      let identifier := prop params "identifier" in
      _ ← modify (with_scripts (smap_delete identifier));
      ret empty_object
  | Some P_handleJavaScriptDialog =>
      _ ← emit (OnDialog page (prop params "accept") (prop params "promptText"));
      ret empty_object
  | Some P_stopLoading =>
      _ ← call "page.evaluate" [page_ref page; JStr "window.stop()"];
      ret empty_object
  | Some P_getNavigationHistory =>
      history ← call "page.evaluate" [page_ref page; JStr "navigationHistory"];
      ret history
  | Some P_navigateToHistoryEntry =>
      _ ← call "page.evaluate" [page_ref page; JStr "history.go"; prop params "entryId"];
      ret empty_object
  | Some P_setBypassCSP =>
      _ ← call "page.setBypassCSP" [page_ref page; prop params "enabled"];
      ret empty_object
  | Some P_enable | Some P_disable => ret empty_object
  | None => throw_Error ("Unknown Page method: " +:+ command_text command)
  end.

(** ** Runtime domain *)

(** [err instanceof Error ? err.message : fallback]. *)
Definition error_text (err : Thrown) (fallback : string) : string :=
  match err with ErrorObj message => message | Raised _ => fallback end.

(** [`obj-${n}`]. *)
Definition object_id (n : Z) : string := "obj-" +:+ pretty n.

(** [if (!returnByValue && result !== null && typeof result === 'object')
      { objectId = `obj-${session.objectIdCounter++}`; session.objectMap.set(objectId, result) }]. *)
Definition store_object (returnByValue result : JSValue) : M JSValue :=
  if negb (truthy returnByValue) && negb (is_null result) && String.eqb (typeof result) "object"
  then
    n ← gets objectIdCounter;
    _ ← modify (with_objectIdCounter (fun c => c + 1));
    _ ← modify (with_objectMap (insert (object_id n) result));
    ret (JStr (object_id n))
  else ret JUndefined.

(** [Array.isArray(result) ? 'array' : result === null ? 'null' : undefined]. *)
Definition subtype_of (result : JSValue) : JSValue :=
  if isArray result then JStr "array" else if is_null result then JStr "null" else JUndefined.

(** [result?.constructor?.name] on data. *)
Definition className_of (result : JSValue) : JSValue :=
  match result with
  | JUndefined | JNull => JUndefined
  | JBool _ => JStr "Boolean"
  | JNum _ | JNaN => JStr "Number"
  | JStr _ => JStr "String"
  | JArr _ => JStr "Array"
  | JObj fields =>
      if existsb (fun kv => String.eqb (fst kv) "constructor") fields
      then (let c := assoc "constructor" fields in if nullish c then JUndefined else prop c "name")
      else JStr "Object"
  end.

Definition exceptionDetails (err : Thrown) (fallback : string) : JSValue :=
  JObj [("exceptionDetails",
         JObj [("exceptionId", JNum 1); ("text", JStr (error_text err fallback));
               ("lineNumber", JNum 0); ("columnNumber", JNum 0)])].

(** The own properties of a stored object with their descriptors
    [(writable, configurable, enumerable)]: the members of plain data, and for
    an array its indices followed by [length]. [Object.keys] leaves out what
    is not enumerable. The fields of a [JObj] are kept in the enumeration
    order of the object. *)
Definition own_properties (obj : JSValue) (own : bool)
  : list (string * JSValue * (bool * bool * bool)) :=
  match obj with
  | JObj fields => map (fun kv => (fst kv, snd kv, (true, true, true))) fields
  | JArr items =>
      imap (fun i v => (pretty (Z.of_nat i), v, (true, true, true))) items ++
      (if own then [("length", JNum (Z.of_nat (length items)), (true, false, false))] else [])
  | _ => []
  end.

Definition handleRuntime (page : Page) (command : option string) (params : JSValue) : M JSValue :=
  match lookup_command runtime_commands command with
  | Some R_evaluate =>
      let expression := prop params "expression" in
      if negb (truthy expression) then throw_Error "expression is required" else
      let returnByValue := js_coalesce (prop params "returnByValue") (JBool true) in
      let awaitPromise := js_coalesce (prop params "awaitPromise") (JBool false) in
      try_catch
        (wrappedExpression ←
           (if truthy awaitPromise
            then e ← template expression; ret (JStr ("(async () => { return " +:+ e +:+ "; })()"))
            else ret expression);
         result ← call "page.evaluate" [page_ref page; wrappedExpression];
         objectId ← store_object returnByValue result;
         description ← template result;
         ret (JObj [("result",
                     JObj [("type", JStr (typeof result));
                           ("subtype", subtype_of result);
                           ("className", className_of result);
                           ("value", if truthy returnByValue then result else JUndefined);
                           ("objectId", objectId);
                           ("description", JStr description)])]))
        (fun err => ret (exceptionDetails err "Evaluation failed"))
  | Some R_callFunctionOn =>
      let functionDeclaration := prop params "functionDeclaration" in
      let args := js_or (prop params "arguments") (JArr []) in
      let returnByValue := js_coalesce (prop params "returnByValue") (JBool true) in
      try_catch
        (argValues ←
           match args with
           | JArr items =>
               map_M (fun a =>
                        objectId ← member a "objectId";
                        if truthy objectId
                        then om ← gets objectMap; ret (default JUndefined (smap_get om objectId))
                        else ret (prop a "value")) items
           | _ => throw_TypeError "args.map is not a function"
           end;
         decl ← template functionDeclaration;
         fn ← call "new Function" [JStr ("return (" +:+ decl +:+ ").apply(this, arguments)")];
         result ← call "page.evaluate" (page_ref page :: fn :: argValues);
         objectId ← store_object returnByValue result;
         ret (JObj [("result",
                     JObj [("type", JStr (typeof result));
                           ("subtype", subtype_of result);
                           ("value", if truthy returnByValue then result else JUndefined);
                           ("objectId", objectId)])]))
        (fun err => ret (exceptionDetails err "Call failed"))
  | Some R_getProperties =>
      let objectId := prop params "objectId" in
      let ownProperties := js_coalesce (prop params "ownProperties") (JBool true) in
      om ← gets objectMap;
      let obj := default JUndefined (smap_get om objectId) in
      if negb (truthy obj) || negb (String.eqb (typeof obj) "object")
      then ret (JObj [("result", JArr [])])
      else
        properties ←
          map_M (fun p : string * JSValue * (bool * bool * bool) =>
                   let '(key, value, (writable, configurable, enumerable)) := p in
                   description ← template value;
                   ret (JObj [("name", JStr key);
                              ("value", JObj [("type", JStr (typeof value)); ("value", value);
                                              ("description", JStr description)]);
                              ("writable", JBool writable);
                              ("configurable", JBool configurable);
                              ("enumerable", JBool enumerable);
                              ("isOwn", JBool true)]))
                (own_properties obj (truthy ownProperties));
        ret (JObj [("result", JArr properties)])
  | Some R_releaseObject =>
      let objectId := prop params "objectId" in
      _ ← modify (with_objectMap (smap_delete objectId));
      ret empty_object
  | Some R_releaseObjectGroup =>
      _ ← modify (with_objectMap (fun _ => ∅));
      ret empty_object
  | Some R_enable | Some R_disable => ret empty_object
  | None => throw_Error ("Unknown Runtime method: " +:+ command_text command)
  end.

(** ** DOM domain *)

(** [a + b]. Both operands are made primitive, an array or an object
    through its conversion to a string. If one of them is then a string, the
    strings of both are joined; otherwise their numbers are added, where
    [null] and [false] count 0, [true] counts 1 and [undefined] is NaN, and
    the sum is the nearest double. *)
Definition to_primitive (v : JSValue) : M JSValue :=
  match v with
  | JArr _ | JObj _ => s ← template v; ret (JStr s)
  | _ => ret v
  end.

Definition to_number (v : JSValue) : option Z :=
  match v with
  | JNum n => Some n
  | JNull | JBool false => Some 0
  | JBool true => Some 1
  | _ => None
  end.

Definition js_add (a b : JSValue) : M JSValue :=
  pa ← to_primitive a;
  pb ← to_primitive b;
  match pa, pb with
  | JStr _, _ | _, JStr _ =>
      sa ← template pa;
      sb ← template pb;
      ret (JStr (sa +:+ sb))
  | _, _ =>
      match to_number pa, to_number pb with
      | Some x, Some y => ret (JNum (Z.sgn (x + y) * binary64 (Z.abs (x + y))))
      | _, _ => ret JNaN
      end
  end.

(** The elements of the array literal of [toQuad] in their order; the two
    sums occur twice each and are computed once here. *)
Definition toQuad (box : JSValue) : M JSValue :=
  x ← member box "x";
  let y := prop box "y" in
  let width := prop box "width" in
  let height := prop box "height" in
  right ← js_add x width;
  bottom ← js_add y height;
  ret (JArr [x; y; right; y; right; bottom; x; bottom]).

(** [session.nodeIdCounter++]. *)
Definition next_nodeId : M Z :=
  n ← gets nodeIdCounter;
  _ ← modify (with_nodeIdCounter (fun c => c + 1));
  ret n.

(** [const selector = session.nodeMap.get(nodeId)]. *)
Definition node_selector (nodeId : JSValue) : M JSValue :=
  nm ← gets nodeMap;
  ret (default JUndefined (nmap_get nm nodeId)).

(** [if (!selector) throw new Error(`Node not found: ${nodeId}`)]. *)
Definition require_selector (nodeId : JSValue) : M JSValue :=
  selector ← node_selector nodeId;
  if truthy selector then ret selector
  else t ← template nodeId; throw_Error ("Node not found: " +:+ t).

(** The callback of [elements.map] in [querySelectorAll], for the match at
    index [i]:
    [const nodeId = session.nodeIdCounter++;
     session.nodeMap.set(nodeId, `${selector}:nth-of-type(${i + 1})`);
     return nodeId]. *)
Definition allocate_match (selector : JSValue) (i : nat) : M JSValue :=
  nodeId ← next_nodeId;
  sel ← template selector;
  _ ← modify (with_nodeMap
                (insert nodeId
                   (JStr (sel +:+ ":nth-of-type(" +:+ pretty (Z.of_nat i + 1) +:+ ")"))));
  ret (JNum nodeId).

Definition handleDOM (page : Page) (command : option string) (params : JSValue) : M JSValue :=
  match lookup_command dom_commands command with
  | Some D_getDocument =>
      let depth := js_coalesce (prop params "depth") (JNum 1) in
      doc ← call "page.evaluate" [page_ref page; JStr "serializeNode(document.documentElement, 0)"; depth];
      rootNodeId ← next_nodeId;
      _ ← modify (with_nodeMap (insert rootNodeId (JStr "html")));
      documentURL ← call "page.url" [page_ref page];
      baseURL ← call "page.url" [page_ref page];
      ret (JObj [("root",
                  JObj [("nodeId", JNum rootNodeId); ("backendNodeId", JNum rootNodeId);
                        ("nodeType", JNum 9); ("nodeName", JStr "#document");
                        ("localName", JStr ""); ("nodeValue", JStr "");
                        ("childNodeCount", JNum 1); ("children", JArr [doc]);
                        ("documentURL", documentURL); ("baseURL", baseURL)])])
  | Some D_querySelector =>
      let selector := prop params "selector" in
      if negb (truthy selector) then throw_Error "selector is required" else
      element ← call "page.$" [page_ref page; selector];
      if negb (truthy element) then ret (JObj [("nodeId", JNum 0)]) else
      nodeId ← next_nodeId;
      _ ← modify (with_nodeMap (insert nodeId selector));
      ret (JObj [("nodeId", JNum nodeId)])
  | Some D_querySelectorAll =>
      let selector := prop params "selector" in
      if negb (truthy selector) then throw_Error "selector is required" else
      elements ← call "page.$$" [page_ref page; selector];
      match elements with
      | JArr items =>
          nodeIds ← map_M (allocate_match selector) (seq 0 (length items));
          ret (JObj [("nodeIds", JArr nodeIds)])
      | _ => throw_TypeError "elements.map is not a function"
      end
  | Some D_getOuterHTML =>
      let nodeId := prop params "nodeId" in
      selector ← node_selector nodeId;
      if negb (truthy selector)
      then html ← call "page.content" [page_ref page]; ret (JObj [("outerHTML", html)])
      else html ← call "page.evaluate" [page_ref page; JStr "outerHTML"; selector];
           ret (JObj [("outerHTML", html)])
  | Some D_getAttributes =>
      let nodeId := prop params "nodeId" in
      selector ← require_selector nodeId;
      attributes ← call "page.evaluate" [page_ref page; JStr "attributes"; selector];
      ret (JObj [("attributes", attributes)])
  | Some D_setAttributeValue =>
      let nodeId := prop params "nodeId" in
      selector ← require_selector nodeId;
      _ ← call "page.evaluate"
            [page_ref page; JStr "setAttribute"; selector; prop params "name"; prop params "value"];
      ret empty_object
  | Some D_focus =>
      let nodeId := prop params "nodeId" in
      selector ← require_selector nodeId;
      _ ← call "page.focus" [page_ref page; selector];
      ret empty_object
  | Some D_getBoxModel =>
      let nodeId := prop params "nodeId" in
      selector ← require_selector nodeId;
      boxModel ← call "page.evaluate" [page_ref page; JStr "boxModel"; selector];
      if negb (truthy boxModel)
      then t ← template selector; throw_Error ("Element not found: " +:+ t)
      else
        content ← toQuad (prop boxModel "content");
        padding ← toQuad (prop boxModel "padding");
        border ← toQuad (prop boxModel "border");
        margin ← toQuad (prop boxModel "margin");
        ret (JObj [("model",
                    JObj [("content", content); ("padding", padding); ("border", border);
                          ("margin", margin);
                          ("width", prop (prop boxModel "border") "width");
                          ("height", prop (prop boxModel "border") "height")])])
  | Some D_scrollIntoViewIfNeeded =>
      let nodeId := prop params "nodeId" in
      selector ← require_selector nodeId;
      _ ← call "page.evaluate" [page_ref page; JStr "scrollIntoView"; selector];
      ret empty_object
  | Some D_removeNode =>
      let nodeId := prop params "nodeId" in
      selector ← require_selector nodeId;
      _ ← call "page.evaluate" [page_ref page; JStr "removeChild"; selector];
      _ ← modify (with_nodeMap (nmap_delete nodeId));
      ret empty_object
  | Some D_setNodeValue =>
      let nodeId := prop params "nodeId" in
      selector ← require_selector nodeId;
      _ ← call "page.evaluate" [page_ref page; JStr "textContent"; selector; prop params "value"];
      ret empty_object
  | Some D_setFileInputFiles =>
      let nodeId := prop params "nodeId" in
      let files := prop params "files" in
      selector ← require_selector nodeId;
      element ← call "page.$" [page_ref page; selector];
      _ ← (if truthy element
           then paths ← spread "files" files; call "element.uploadFile" (element :: paths)
           else ret JUndefined);
      ret empty_object
  | Some D_enable | Some D_disable => ret empty_object
  | None => throw_Error ("Unknown DOM method: " +:+ command_text command)
  end.

(** ** Input, Network and Emulation domains *)

Definition handleInput (page : Page) (command : option string) (params : JSValue) : M JSValue :=
  match lookup_command input_commands command with
  | Some I_dispatchMouseEvent =>
      let type := prop params "type" in
      let x := prop params "x" in
      let y := prop params "y" in
      let button := js_or (prop params "button") (JStr "left") in
      let clickCount := js_or (prop params "clickCount") (JNum 1) in
      _ ← (if is_string type "mousePressed"
           then call "mouse.down" [page_ref page; JObj [("button", button)]]
           else if is_string type "mouseReleased"
           then call "mouse.up" [page_ref page; JObj [("button", button)]]
           else if is_string type "mouseMoved"
           then call "mouse.move" [page_ref page; x; y]
           else if is_string type "mouseWheel"
           then call "mouse.wheel"
                  [page_ref page;
                   JObj [("deltaX", prop params "deltaX"); ("deltaY", prop params "deltaY")]]
           else call "mouse.click"
                  [page_ref page; x; y; JObj [("button", button); ("clickCount", clickCount)]]);
      ret empty_object
  | Some I_dispatchKeyEvent =>
      let type := prop params "type" in
      let key := prop params "key" in
      let text := prop params "text" in
      _ ← (if is_string type "keyDown" then call "keyboard.down" [page_ref page; key]
           else if is_string type "keyUp" then call "keyboard.up" [page_ref page; key]
           else if is_string type "char"
           then (if truthy text then call "keyboard.type" [page_ref page; text] else ret JUndefined)
           else (if truthy key then call "keyboard.press" [page_ref page; key] else ret JUndefined));
      ret empty_object
  | Some I_insertText =>
      let text := prop params "text" in
      _ ← (if truthy text then call "keyboard.type" [page_ref page; text] else ret JUndefined);
      ret empty_object
  | None => throw_Error ("Unknown Input method: " +:+ command_text command)
  end.

(** [Object.entries(v)]; [None] is the TypeError on [null] and [undefined]. *)
Definition object_entries (v : JSValue) : option (list (string * JSValue)) :=
  match v with
  | JUndefined | JNull => None
  | JObj fields => Some fields
  | JArr items => Some (imap (fun i x => (pretty (Z.of_nat i), x)) items)
  | JStr s => Some (imap (fun i x => (pretty (Z.of_nat i), x)) (string_chars s))
  | _ => Some []
  end.

(** [if (!page) throw new Error('No page available')]. *)
Definition require_page (page : option Page) : M Page :=
  match page with
  | Some p => ret p
  | None => throw_Error "No page available"
  end.

Definition cookie_fields : list string :=
  ["name"; "value"; "url"; "domain"; "path"; "secure"; "httpOnly"; "sameSite"; "expires"].

Definition handleNetwork (page : option Page) (command : option string) (params : JSValue) : M JSValue :=
  match lookup_command network_commands command with
  | Some N_enable | Some N_disable => ret empty_object
  | Some N_setCacheDisabled =>
      _ ← match page with
          | Some p => call "page.setCacheEnabled"
                        [page_ref p; JBool (negb (truthy (prop params "cacheDisabled")))]
          | None => ret JUndefined
          end;
      ret empty_object
  | Some N_setExtraHTTPHeaders =>
      let headers := prop params "headers" in
      _ ← modify (with_extraHTTPHeaders (fun _ => ∅));
      _ ← match object_entries headers with
          | Some entries =>
              for_each entries (fun entry =>
                modify (with_extraHTTPHeaders (insert (fst entry) (snd entry))))
          | None => throw_TypeError "Cannot convert undefined or null to object"
          end;
      _ ← match page with
          | Some p => call "page.setExtraHTTPHeaders" [page_ref p; headers]
          | None => ret JUndefined
          end;
      ret empty_object
  | Some N_setCookie =>
      p ← require_page page;
      let cookie := JObj (map (fun k => (k, prop params k)) cookie_fields) in
      _ ← call "page.setCookie" [page_ref p; cookie];
      ret (JObj [("success", JBool true)])
  | Some N_setCookies =>
      p ← require_page page;
      cookies ← spread "cookies" (prop params "cookies");
      _ ← call "page.setCookie" (page_ref p :: cookies);
      ret empty_object
  | Some N_getCookies =>
      p ← require_page page;
      let urls := js_or (prop params "urls") (JArr []) in
      urls ← spread "urls" urls;
      cookies ← call "page.cookies" (page_ref p :: urls);
      match cookies with
      | JArr items =>
          mapped ← map_M (fun c =>
                            name ← member c "name";
                            let value := prop c "value" in
                            nameLength ← member name "length";
                            valueLength ← member value "length";
                            size ← js_add nameLength valueLength;
                            ret (JObj [("name", name); ("value", value);
                                       ("domain", prop c "domain"); ("path", prop c "path");
                                       ("expires", prop c "expires"); ("size", size);
                                       ("httpOnly", prop c "httpOnly"); ("secure", prop c "secure");
                                       ("session", prop c "session");
                                       ("sameSite", prop c "sameSite")])) items;
          ret (JObj [("cookies", JArr mapped)])
      | _ => throw_TypeError "cookies.map is not a function"
      end
  | Some N_deleteCookies =>
      p ← require_page page;
      _ ← call "page.deleteCookie"
            [page_ref p;
             JObj [("name", prop params "name"); ("url", prop params "url");
                   ("domain", prop params "domain"); ("path", prop params "path")]];
      ret empty_object
  | Some N_clearBrowserCookies =>
      p ← require_page page;
      cookies ← call "page.cookies" [page_ref p];
      _ ← match cookies with
          | JArr items =>
              for_each items (fun cookie =>
                _ ← call "page.deleteCookie" [page_ref p; cookie]; ret tt)
          | JStr s =>
              for_each (string_chars s) (fun cookie =>
                _ ← call "page.deleteCookie" [page_ref p; cookie]; ret tt)
          | _ => throw_TypeError "cookies is not iterable"
          end;
      ret empty_object
  | Some N_setUserAgentOverride =>
      p ← require_page page;
      _ ← call "page.setUserAgent" [page_ref p; prop params "userAgent"];
      ret empty_object
  | None => throw_Error ("Unknown Network method: " +:+ command_text command)
  end.

Definition handleEmulation (page : Page) (command : option string) (params : JSValue) : M JSValue :=
  match lookup_command emulation_commands command with
  | Some E_setDeviceMetricsOverride =>
      let deviceScaleFactor := js_or (prop params "deviceScaleFactor") (JNum 1) in
      let mobile := js_or (prop params "mobile") (JBool false) in
      _ ← call "page.setViewport"
            [page_ref page;
             JObj [("width", prop params "width"); ("height", prop params "height");
                   ("deviceScaleFactor", deviceScaleFactor); ("isMobile", mobile)]];
      ret empty_object
  | Some E_setUserAgentOverride =>
      _ ← call "page.setUserAgent" [page_ref page; prop params "userAgent"];
      ret empty_object
  | Some E_clearDeviceMetricsOverride =>
      _ ← call "page.setViewport"
            [page_ref page; JObj [("width", JNum 1280); ("height", JNum 720)]];
      ret empty_object
  | Some E_setGeolocationOverride =>
      let latitude := prop params "latitude" in
      let longitude := prop params "longitude" in
      let accuracy := prop params "accuracy" in
      _ ← (if negb (match latitude with JUndefined => true | _ => false end) &&
              negb (match longitude with JUndefined => true | _ => false end)
           then call "page.setGeolocation"
                  [page_ref page;
                   JObj [("latitude", latitude); ("longitude", longitude);
                         ("accuracy", js_coalesce accuracy (JNum 100))]]
           else ret JUndefined);
      ret empty_object
  | Some E_clearGeolocationOverride => ret empty_object
  | Some E_setTimezoneOverride =>
      _ ← call "page.evaluateOnNewDocument"
            [page_ref page; JStr "timezone override"; prop params "timezoneId"];
      ret empty_object
  | Some E_setTouchEmulationEnabled =>
      _ ← (if truthy (prop params "enabled")
           then call "page.evaluateOnNewDocument" [page_ref page; JStr "touch override"]
           else ret JUndefined);
      ret empty_object
  | Some E_setEmulatedMedia =>
      let media := prop params "media" in
      let features := prop params "features" in
      _ ← (if truthy media then call "page.emulateMediaType" [page_ref page; media]
           else ret JUndefined);
      _ ← (if truthy features
           then
             match features with
             | JArr items =>
                 mapped ← map_M (fun f =>
                                   name ← member f "name";
                                   ret (JObj [("name", name); ("value", prop f "value")])) items;
                 call "page.emulateMediaFeatures" [page_ref page; JArr mapped]
             | _ => throw_TypeError "features.map is not a function"
             end
           else ret JUndefined);
      ret empty_object
  | Some E_setDefaultBackgroundColorOverride =>
      let color := prop params "color" in
      _ ← (if truthy color
           then
             r ← template (prop color "r");
             g ← template (prop color "g");
             b ← template (prop color "b");
             a ← template (match prop color "a" with JUndefined => JNum 1 | v => v end);
             call "page.evaluate"
               [page_ref page; JStr "backgroundColor";
                JStr ("rgba(" +:+ r +:+ ", " +:+ g +:+ ", " +:+ b +:+ ", " +:+ a +:+ ")")]
           else ret JUndefined);
      ret empty_object
  | None => throw_Error ("Unknown Emulation method: " +:+ command_text command)
  end.

(** ** Fetch domain (request interception) *)

(** [v === 0]. *)
Definition is_zero (v : JSValue) : bool :=
  match v with JNum n => n =? 0 | _ => false end.

Definition request_ref (r : Request) : JSValue := JNum (Z.of_N (req_handle r)).

(** [headers.reduce((acc, h) => { acc[h.name] = h.value; return acc }, {})] and
    the loop [for (const h of responseHeaders) headers[h.name] = h.value]. *)
Fixpoint collect_headers (items : list JSValue) (acc : list (string * JSValue))
  : M (list (string * JSValue)) :=
  match items with
  | [] => ret acc
  | h :: rest =>
      name ← member h "name";
      key ← template name;
      collect_headers rest (JsMap.set key (prop h "value") acc)
  end.

(** [const pending = session.pendingRequests.get(requestId);
     if (!pending) throw new Error(`Request not found: ${requestId}`)]. *)
Definition require_pending (requestId : JSValue) : M Request :=
  pr ← gets pendingRequests;
  match smap_get pr requestId with
  | Some pending => ret pending
  | None => t ← template requestId; throw_Error ("Request not found: " +:+ t)
  end.

(** The cascade of [Fetch.failRequest] on the lowercased reason. *)
Definition abortReason (errorReason : string) : string :=
  let reason := toLowerCase errorReason in
  if includes reason "access" then "accessdenied"
  else if includes reason "address" then "addressunreachable"
  else if includes reason "blocked" then "blockedbyclient"
  else if includes reason "connection" then "connectionfailed"
  else if includes reason "timeout" then "timedout"
  else "failed".

Definition handleFetch (page : Page) (command : option string) (params : JSValue) : M JSValue :=
  match lookup_command fetch_commands command with
  | Some F_enable =>
      let patterns := prop params "patterns" in
      _ ← modify (with_requestInterceptionEnabled true);
      _ ← call "page.setRequestInterception" [page_ref page; JBool true];
      _ ← emit (OnRequest page patterns);
      ret empty_object
  | Some F_disable =>
      _ ← modify (with_requestInterceptionEnabled false);
      _ ← call "page.setRequestInterception" [page_ref page; JBool false];
      ret empty_object
  | Some F_continueRequest =>
      let requestId := prop params "requestId" in
      let url := prop params "url" in
      let method := prop params "method" in
      let postData := prop params "postData" in
      let headers := prop params "headers" in
      pending ← require_pending requestId;
      headerOverride ←
        (if truthy headers
         then match headers with
              | JArr items => hs ← collect_headers items []; ret [("headers", JObj hs)]
              | _ => throw_TypeError "headers.reduce is not a function"
              end
         else ret []);
      let overrides :=
        option_field "url" url ++ option_field "method" method ++
        option_field "postData" postData ++ headerOverride in
      _ ← call "request.continue"
            [request_ref pending; match overrides with [] => JUndefined | _ => JObj overrides end];
      _ ← modify (with_pendingRequests (smap_delete requestId));
      ret empty_object
  | Some F_fulfillRequest =>
      let requestId := prop params "requestId" in
      let responseCode := prop params "responseCode" in
      let responseHeaders := prop params "responseHeaders" in
      let body := prop params "body" in
      pending ← require_pending requestId;
      headers ←
        (if truthy responseHeaders
         then match responseHeaders with
              | JArr items => collect_headers items []
              | JStr s => collect_headers (string_chars s) []
              | _ => throw_TypeError "responseHeaders is not iterable"
              end
         else ret []);
      buffer ← (if truthy body then call "Buffer.from" [body; JStr "base64"] else ret JUndefined);
      _ ← call "request.respond"
            [request_ref pending;
             JObj [("status", responseCode); ("headers", JObj headers); ("body", buffer)]];
      _ ← modify (with_pendingRequests (smap_delete requestId));
      ret empty_object
  | Some F_failRequest =>
      let requestId := prop params "requestId" in
      let errorReason := prop params "errorReason" in
      pending ← require_pending requestId;
      reason ← match errorReason with
               | JStr r => ret (abortReason r)
               | JUndefined =>
                   throw_TypeError "Cannot read properties of undefined (reading 'toLowerCase')"
               | JNull =>
                   throw_TypeError "Cannot read properties of null (reading 'toLowerCase')"
               | _ => throw_TypeError "errorReason.toLowerCase is not a function"
               end;
      _ ← call "request.abort" [request_ref pending; JStr reason];
      _ ← modify (with_pendingRequests (smap_delete requestId));
      ret empty_object
  | Some F_getResponseBody =>
      ret (JObj [("body", JStr ""); ("base64Encoded", JBool false)])
  | None => throw_Error ("Unknown Fetch method: " +:+ command_text command)
  end.

(** The listener installed by [Fetch.enable] with its [patterns]. *)
Fixpoint matches_some_pattern (url : string) (patterns : list JSValue) (otherwise : bool) : M bool :=
  match patterns with
  | [] => ret otherwise
  | pattern :: rest =>
      urlPattern ← member pattern "urlPattern";
      if negb (truthy urlPattern) then ret true else
      found ← call "String.prototype.match" [JStr url; urlPattern];
      if truthy found then ret true else matches_some_pattern url rest otherwise
  end.

Definition onRequest (patterns : JSValue) (request : Request) : M unit :=
  enabled ← gets requestInterceptionEnabled;
  if negb enabled
  then _ ← call "request.continue" [request_ref request; JUndefined]; ret tt
  else
    requestId ← crypto_randomUUID;
    let initially := negb (truthy patterns) || is_zero (prop patterns "length") in
    shouldIntercept ←
      (if truthy patterns
       then match patterns with
            | JArr items => matches_some_pattern (req_url request) items initially
            | JStr s => matches_some_pattern (req_url request) (string_chars s) initially
            | _ => throw_TypeError "patterns is not iterable"
            end
       else ret initially);
    if (shouldIntercept : bool)
    then
      _ ← modify (with_pendingRequests (insert requestId request));
      s ← gets id;
      sendEvent "Fetch.requestPaused"
        (JObj [("requestId", JStr requestId);
               ("request", JObj [("url", JStr (req_url request));
                                 ("method", JStr (req_method request));
                                 ("headers", req_headers request);
                                 ("postData", req_postData request)]);
               ("frameId", JStr (defaultTargetId s));
               ("resourceType", JStr (req_resourceType request))])
    else _ ← call "request.continue" [request_ref request; JUndefined]; ret tt.

(** ** The dispatcher *)

Inductive Domain :=
  | DBrowser | DTarget | DPage | DRuntime | DDOM | DInput | DNetwork | DEmulation | DFetch.
Definition domains : list (string * Domain) :=
  [("Browser", DBrowser); ("Target", DTarget); ("Page", DPage); ("Runtime", DRuntime);
   ("DOM", DDOM); ("Input", DInput); ("Network", DNetwork); ("Emulation", DEmulation);
   ("Fetch", DFetch)].

(** [if (!page) throw new Error(`Target not found: ${targetId}`)]. *)
Definition require_target (page : option Page) (targetId : JSValue) : M Page :=
  match page with
  | Some p => ret p
  | None => t ← template targetId; throw_Error ("Target not found: " +:+ t)
  end.

(** [const [domain, command] = method.split('.')]. *)
Definition domain_of (method : string) : string := nth 0 (split_dot method) "".
Definition command_of (method : string) : option string := nth_error (split_dot method) 1.

Definition handleCDPMethod (method : JSValue) (params : JSValue) : M JSValue :=
  match method with
  | JStr m =>
      let domain := domain_of m in
      let command := command_of m in
      s ← gets id;
      let targetId := js_or (prop params "targetId") (JStr (defaultTargetId s)) in
      let page := pages_get (pages s) targetId in
      match lookup_command domains (Some domain) with
      | Some DBrowser => handleBrowser command params
      | Some DTarget => handleTarget command params
      | Some DPage => p ← require_target page targetId; handlePage p command params
      | Some DRuntime => p ← require_target page targetId; handleRuntime p command params
      | Some DDOM => p ← require_target page targetId; handleDOM p command params
      | Some DInput => p ← require_target page targetId; handleInput p command params
      | Some DNetwork => handleNetwork page command params
      | Some DEmulation => p ← require_target page targetId; handleEmulation p command params
      | Some DFetch => p ← require_target page targetId; handleFetch p command params
      | None => throw_Error ("Unknown domain: " +:+ domain)
      end
  | JUndefined => throw_TypeError "Cannot read properties of undefined (reading 'split')"
  | JNull => throw_TypeError "Cannot read properties of null (reading 'split')"
  | _ => throw_TypeError "method.split is not a function"
  end.

(** ** The connection: construction, message listener, teardown *)

(** [initCDPSession] up to the registration of the listeners: the session, or
    the fatal close when the browser or its first page cannot be had. *)
Definition initCDPSession (w : World) : option CDPSession * list Effect :=
  match launch w with
  | Rejects _ => (None, [Call "puppeteer.launch" []; Close 1011 "Browser launch failed"])
  | Returns b =>
      match newPage w with
      | Rejects _ =>
          (None, [Call "puppeteer.launch" []; Call "browser.newPage" [];
                  Close 1011 "Browser launch failed"])
      | Returns page =>
          let targetId := randomUUID w in
          (Some {| browser := b;
                   pages := [(targetId, page)];
                   defaultTargetId := targetId;
                   nodeIdCounter := 1;
                   nodeMap := ∅;
                   objectIdCounter := 1;
                   objectMap := ∅;
                   scriptsToEvaluateOnNewDocument := ∅;
                   extraHTTPHeaders := ∅;
                   requestInterceptionEnabled := false;
                   pendingRequests := ∅ |},
           [Call "puppeteer.launch" []; Call "browser.newPage" [];
            Send (Event "Target.targetCreated"
                    (JObj [("targetInfo",
                            targetInfo targetId (JStr "") (JStr "about:blank"))]))])
      end
  end.

(** The [message] listener. [JSON_parse] is the parser of the runtime:
    [None] when [JSON.parse] throws. Reading [request.method] for the log
    line happens outside the [try], so on [null] the listener stops there. *)
Definition onMessage (JSON_parse : string → option JSValue) (data : string) : M unit :=
  match JSON_parse data with
  | None => ret tt
  | Some request =>
      method ← member request "method";
      let params := js_or (prop request "params") empty_object in
      try_catch
        (result ← handleCDPMethod method params;
         sendResponse (prop request "id") result)
        (fun err => sendError (prop request "id") (-32000) (error_text err "Unknown error"))
  end.

(** The [close] listener. *)
Definition onClose : M unit :=
  try_catch (_ ← call "browser.close" []; ret tt) (fun _ => ret tt).

(** A live connection: the session and the [request] listeners that
    [Fetch.enable] has installed so far, each with its page and patterns. *)
Record Connection := {
  session : CDPSession;
  listeners : list (Page * JSValue);
}.

Inductive Input :=
  | Message (data : string)                            (* a text frame from the client *)
  | RequestEvent (listener : nat) (request : Request). (* the backend calls a listener *)

Definition registered_listeners (effects : list Effect) : list (Page * JSValue) :=
  omap (fun e => match e with OnRequest p patterns => Some (p, patterns) | _ => None end) effects.

Definition step (JSON_parse : string → option JSValue) (w : World) (i : Input) (c : Connection)
  : Connection * list Effect :=
  match i with
  | Message data =>
      let r := onMessage JSON_parse data w (session c) in
      ({| session := st r; listeners := listeners c ++ registered_listeners (fx r) |}, fx r)
  | RequestEvent k request =>
      match listeners c !! k with
      | Some (_, patterns) =>
          let r := onRequest patterns request w (session c) in
          ({| session := st r; listeners := listeners c |}, fx r)
      | None => (c, [])
      end
  end.

(** A run of the connection, with what each input made it do. *)
Fixpoint run (JSON_parse : string → option JSValue) (c : Connection)
    (inputs : list (World * Input)) : Connection * list (Input * list Effect) :=
  match inputs with
  | [] => (c, [])
  | (w, i) :: rest =>
      let '(c', e) := step JSON_parse w i c in
      let '(c'', log) := run JSON_parse c' rest in
      (c'', (i, e) :: log)
  end.

Definition connect (w : World) : option Connection * list Effect :=
  match initCDPSession w with
  | (Some s, e) => (Some {| session := s; listeners := [] |}, e)
  | (None, e) => (None, e)
  end.

(** The frames written to the socket among some effects. *)
Definition frames (effects : list Effect) : list Frame :=
  omap (fun e => match e with Send f => Some f | _ => None end) effects.

Definition closes (effects : list Effect) : list (Z * string) :=
  omap (fun e => match e with Close c r => Some (c, r) | _ => None end) effects.

(** ** The gatekeeper of the upgrade route *)

(** [s.charCodeAt(i)]; out of range it is [NaN], which the bitwise operators
    read as 0. The code units of a string are its characters, 8 bits wide in
    [string]; nothing below depends on their width. *)
Definition charCodeAt (s : string) (i : nat) : Z :=
  match String.get i s with
  | Some c => Z.of_N (N_of_ascii c)
  | None => 0
  end.

(** The loop of [timingSafeEqual]: the accumulated [result] and the number of
    iterations performed. *)
Definition timingSafeEqual_loop (a b : string) : Z * nat :=
  fold_left (fun acc i => (Z.lor (fst acc) (Z.lxor (charCodeAt a i) (charCodeAt b i)), S (snd acc)))
            (seq 0 (String.length a)) (0, 0%nat).

Definition timingSafeEqual (a b : string) : bool :=
  if negb (Nat.eqb (String.length a) (String.length b)) then false
  else fst (timingSafeEqual_loop a b) =? 0.

(** The iterations [timingSafeEqual a b] goes through before it returns. *)
Definition timingSafeEqual_iterations (a b : string) : nat :=
  if negb (Nat.eqb (String.length a) (String.length b)) then 0%nat
  else snd (timingSafeEqual_loop a b).

(** A comparison that stops at the first difference, for contrast. *)
Fixpoint early_exit_iterations (a b : string) : nat :=
  match a, b with
  | String x a', String y b' => if Ascii.eqb x y then S (early_exit_iterations a' b') else 1%nat
  | _, _ => 0%nat
  end.

Record UpgradeRequest := {
  upgradeHeader : option string;   (* c.req.header('Upgrade') *)
  providedSecret : option string;  (* url.searchParams.get('secret') *)
}.

Record Env := {
  CDP_SECRET : option string;
  BROWSER : bool;                  (* the browser binding is present *)
}.

Inductive HttpResponse :=
  | Json (status : Z) (error : string)
  | SwitchingProtocols.            (* status 101, the session starts *)

(** [cdp.get('/')]. *)
Definition cdp_get_root (req : UpgradeRequest) (env : Env) : HttpResponse :=
  if negb (match upgradeHeader req with
           | Some h => String.eqb (toLowerCase h) "websocket"
           | None => false
           end)
  then Json 200 "WebSocket upgrade required"
  else
    match CDP_SECRET env with
    | None | Some "" => Json 503 "CDP endpoint not configured"
    | Some expectedSecret =>
        match providedSecret req with
        | None | Some "" => Json 401 "Unauthorized"
        | Some provided =>
            if negb (timingSafeEqual provided expectedSecret) then Json 401 "Unauthorized"
            else if negb (BROWSER env) then Json 503 "Browser Rendering not configured"
            else SwitchingProtocols
        end
    end.

(** ** What the properties are stated with *)

(** A computation keeps a relation between the session before and after it,
    and every effect it has satisfies a predicate, for every world. *)
Definition obeys {A} (R : CDPSession → CDPSession → Prop) (E : Effect → Prop) (m : M A) : Prop :=
  ∀ w s, R s (st (m w s)) ∧ Forall E (fx (m w s)).

(** Inside a handler the socket only sees events: responses and error frames
    are written by the listener, and nothing closes the socket. *)
Definition handler_effect (e : Effect) : Prop :=
  match e with
  | Send (Event _ _) | Call _ _ | OnRequest _ _ | OnDialog _ _ _ => True
  | Send (Response _ _) | Send (ErrorFrame _ _ _) | Close _ _ => False
  end.

Definition any_effect (e : Effect) : Prop := True.

(** Nothing is written to the socket. *)
Definition call_only (e : Effect) : Prop :=
  match e with Send _ | Close _ _ => False | _ => True end.

(** What the listener itself may add: one response or error frame. *)
Definition listener_effect (e : Effect) : Prop :=
  match e with Close _ _ => False | _ => True end.

(** The node ids in use lie between [lo] and the counter. *)
Definition nodes_above (lo : Z) (s : CDPSession) : Prop :=
  lo ≤ nodeIdCounter s ∧ ∀ k v, nodeMap s !! k = Some v → lo ≤ k < nodeIdCounter s.

(** The object ids in use are [obj-n] with [n] between [lo] and the counter. *)
Definition objects_above (lo : Z) (s : CDPSession) : Prop :=
  lo ≤ objectIdCounter s ∧
  ∀ key v, objectMap s !! key = Some v → ∃ n, key = object_id n ∧ lo ≤ n < objectIdCounter s.

(** Counters never go back, and ids in use stay below them. *)
Definition ids_grow (s s' : CDPSession) : Prop :=
  nodeIdCounter s ≤ nodeIdCounter s' ∧ objectIdCounter s ≤ objectIdCounter s' ∧
  (∀ lo, nodes_above lo s → nodes_above lo s') ∧
  (∀ lo, objects_above lo s → objects_above lo s').

(** The target [d] stays in the target map, and the default target id is
    never reassigned. *)
Definition keeps_target (d : string) (s s' : CDPSession) : Prop :=
  defaultTargetId s' = defaultTargetId s ∧
  (is_Some (JsMap.get d (pages s)) → is_Some (JsMap.get d (pages s'))).

(** The targets and the default target id are left as they are. *)
Definition same_targets (s s' : CDPSession) : Prop :=
  defaultTargetId s' = defaultTargetId s ∧ pages s' = pages s.

(** The request is a [Target.closeTarget] whose [targetId] is [d]. *)
Definition closes_target (d : string) (request : JSValue) : bool :=
  match prop request "method" with
  | JStr m =>
      String.eqb (domain_of m) "Target" &&
      match command_of m with Some c => String.eqb c "closeTarget" | None => false end &&
      is_string (prop (js_or (prop request "params") empty_object) "targetId") d
  | _ => false
  end.

Definition input_closes_target (JSON_parse : string → option JSValue) (d : string) (i : Input) : bool :=
  match i with
  | Message data =>
      match JSON_parse data with
      | Some request => closes_target d request
      | None => false
      end
  | RequestEvent _ _ => false
  end.

(** The dispatcher knows the method: its domain is one of the nine and its
    command is a case label of that domain. *)
Definition known_method (m : string) : bool :=
  match lookup_command domains (Some (domain_of m)) with
  | Some DBrowser => bool_decide (is_Some (lookup_command browser_commands (command_of m)))
  | Some DTarget => bool_decide (is_Some (lookup_command target_commands (command_of m)))
  | Some DPage => bool_decide (is_Some (lookup_command page_commands (command_of m)))
  | Some DRuntime => bool_decide (is_Some (lookup_command runtime_commands (command_of m)))
  | Some DDOM => bool_decide (is_Some (lookup_command dom_commands (command_of m)))
  | Some DInput => bool_decide (is_Some (lookup_command input_commands (command_of m)))
  | Some DNetwork => bool_decide (is_Some (lookup_command network_commands (command_of m)))
  | Some DEmulation => bool_decide (is_Some (lookup_command emulation_commands (command_of m)))
  | Some DFetch => bool_decide (is_Some (lookup_command fetch_commands (command_of m)))
  | None => false
  end.

(** The page a request addresses: [params.targetId || session.defaultTargetId]
    looked up in the target map. *)
Definition addressed_page (s : CDPSession) (params : JSValue) : option Page :=
  pages_get (pages s) (js_or (prop params "targetId") (JStr (defaultTargetId s))).

(** The node ids of a response that the session allocated from its counter:
    the root of [DOM.getDocument], the match of [DOM.querySelector] (0 is the
    answer "no match", not an id), the matches of [DOM.querySelectorAll]. *)
Definition numbers_of (items : list JSValue) : list Z :=
  omap (fun v => match v with JNum n => Some n | _ => None end) items.

Definition allocated_node_ids (m : string) (result : JSValue) : list Z :=
  if negb (String.eqb (domain_of m) "DOM") then [] else
  match command_of m with
  | Some c =>
      if String.eqb c "getDocument"
      then numbers_of [prop (prop result "root") "nodeId"]
      else if String.eqb c "querySelector"
      then filter (fun n => n ≠ 0) (numbers_of [prop result "nodeId"])
      else if String.eqb c "querySelectorAll"
      then match prop result "nodeIds" with JArr items => numbers_of items | _ => [] end
      else []
  | None => []
  end.

(** The [nodeId] members of a serialized node and of the nodes under its
    [children], in document order. In the subtree that [DOM.getDocument]
    puts under [root.children] they are the numbers [serializeNode] draws in
    the page with [Math.floor(Math.random() * 1000000)]. *)
Fixpoint serialized_node_ids (node : JSValue) : list Z :=
  match node with
  | JObj fields =>
      (fix members (l : list (string * JSValue)) : list Z :=
         match l with
         | [] => []
         | (k, v) :: rest =>
             (if String.eqb k "nodeId" then numbers_of [v]
              else if String.eqb k "children"
              then match v with
                   | JArr children =>
                       (fix each (c : list JSValue) : list Z :=
                          match c with
                          | [] => []
                          | child :: more => serialized_node_ids child ++ each more
                          end) children
                   | _ => []
                   end
              else []) ++ members rest
         end) fields
  | _ => []
  end.

(** Every node id a response hands out: for [DOM.getDocument] the [nodeId]
    of the root and of every node serialized under it, for the other
    commands the ids allocated from the counter. *)
Definition node_ids_of_result (m : string) (result : JSValue) : list Z :=
  if String.eqb (domain_of m) "DOM" &&
     match command_of m with Some c => String.eqb c "getDocument" | None => false end
  then serialized_node_ids (prop result "root")
  else allocated_node_ids m result.

(** The object ids a response hands out: the [objectId] of the result of
    [Runtime.evaluate] and [Runtime.callFunctionOn]. *)
Definition object_ids_of_result (m : string) (result : JSValue) : list string :=
  if negb (String.eqb (domain_of m) "Runtime") then [] else
  match command_of m with
  | Some c =>
      if String.eqb c "evaluate" || String.eqb c "callFunctionOn"
      then match prop (prop result "result") "objectId" with JStr o => [o] | _ => [] end
      else []
  | None => []
  end.

(** The ids handed out by one entry of a run: those of the responses written
    while the message was handled. *)
Definition responses_to (JSON_parse : string → option JSValue) (entry : Input * list Effect)
  : list (string * JSValue) :=
  match fst entry with
  | Message data =>
      match JSON_parse data with
      | Some request =>
          match prop request "method" with
          | JStr m =>
              omap (fun f => match f with Response _ result => Some (m, result) | _ => None end)
                   (frames (snd entry))
          | _ => []
          end
      | None => []
      end
  | RequestEvent _ _ => []
  end.

(** The node ids allocated from the counter that a run hands out, in the
    order of the responses. *)
Definition allocated_nodes (JSON_parse : string → option JSValue) (log : list (Input * list Effect))
  : list Z :=
  flat_map (fun entry => flat_map (fun mr => allocated_node_ids (fst mr) (snd mr))
                                  (responses_to JSON_parse entry)) log.

(** Every node id that a run hands out, in the order of the responses. *)
Definition handed_out_nodes (JSON_parse : string → option JSValue) (log : list (Input * list Effect))
  : list Z :=
  flat_map (fun entry => flat_map (fun mr => node_ids_of_result (fst mr) (snd mr))
                                  (responses_to JSON_parse entry)) log.

Definition handed_out_objects (JSON_parse : string → option JSValue) (log : list (Input * list Effect))
  : list string :=
  flat_map (fun entry => flat_map (fun mr => object_ids_of_result (fst mr) (snd mr))
                                  (responses_to JSON_parse entry)) log.

(** A connection that a client can be facing: constructed by [connect] and
    driven by some inputs. *)
Definition reachable (JSON_parse : string → option JSValue) (c : Connection) : Prop :=
  ∃ w0 c0 inputs, fst (connect w0) = Some c0 ∧ fst (run JSON_parse c0 inputs) = c.

(** The frame the listener writes for the outcome of the dispatcher. *)
Definition reply (request : JSValue) (o : Outcome JSValue) : Frame :=
  match o with
  | Returns result => Response (prop request "id") result
  | Rejects err => ErrorFrame (prop request "id") (-32000) (error_text err "Unknown error")
  end.

(** [r] with the effects [e] before its own. *)
Definition after {A} (e : list Effect) (r : Res A) : Res A := mkRes (out r) (st r) (e ++ fx r).

(** A computation that neither writes the session nor has effects. *)
Definition quiet {A} (m : M A) : Prop := ∀ w s, st (m w s) = s ∧ fx (m w s) = [].

(** The value [Runtime.callFunctionOn] passes to the page for the argument
    [a]: the object stored under [a.objectId] when there is such a member,
    [a.value] otherwise. *)
Definition argument_value (s : CDPSession) (a : JSValue) : JSValue :=
  if truthy (prop a "objectId")
  then default JUndefined (smap_get (objectMap s) (prop a "objectId"))
  else prop a "value".


(** [n] consecutive integers from [c]. *)
Fixpoint consecutive (c : Z) (n : nat) : list Z :=
  match n with
  | O => []
  | S n' => c :: consecutive (c + 1) n'
  end.

(** The ids of a list lie in [[lo, hi)] and increase strictly. *)
Definition increasing_within (lo hi : Z) (ids : list Z) : Prop :=
  lo ≤ hi ∧ StronglySorted Z.lt ids ∧ Forall (fun n => lo ≤ n < hi) ids.

(** ** Sample frames and worlds

    Concrete inputs on which the statements below are exercised. *)

Definition quote : string := String (ascii_of_nat 34) EmptyString.

(** [JSON.stringify] on the values used as samples: integers, and strings
    that need no escape. *)
Fixpoint to_json (v : JSValue) : string :=
  match v with
  | JUndefined => "undefined"
  | JNull | JNaN => "null"
  | JBool true => "true"
  | JBool false => "false"
  | JNum n => pretty n
  | JStr s => quote +:+ s +:+ quote
  | JArr items => "[" +:+ join_with "," (map to_json items) +:+ "]"
  | JObj fields =>
      "{" +:+ join_with "," (map (fun kv => quote +:+ fst kv +:+ quote +:+ ":" +:+ to_json (snd kv)) fields) +:+ "}"
  end.

Definition request (id : Z) (method : string) (params : list (string * JSValue)) : JSValue :=
  JObj [("id", JNum id); ("method", JStr method); ("params", JObj params)].

Definition sample_requests : list JSValue :=
  [ request 1 "Target.closeTarget" [("targetId", JStr "T1")];
    request 2 "Target.createTarget" [];
    request 3 "Target.closeTarget" [("targetId", JStr "T2")];
    request 4 "Page.navigate" [("url", JStr "https://example.com")];
    request 5 "DOM.querySelector" [("selector", JStr "#missing")];
    request 6 "DOM.getOuterHTML" [("nodeId", JNum 0)];
    request 7 "Runtime.evaluate" [("expression", JStr "({a: 1})"); ("returnByValue", JBool false)];
    request 8 "Runtime.releaseObjectGroup" [("objectGroup", JStr "console")];
    request 9 "Runtime.getProperties" [("objectId", JStr "obj-1")];
    request 10 "Runtime.releaseObjectGroup" [("targetId", JStr "no-such-target")];
    request 11 "Fetch.enable" [("patterns", JArr [])];
    request 12 "Fetch.continueRequest" [("requestId", JStr "R1")];
    request 13 "Fetch.getResponseBody" [("requestId", JStr "R1")];
    request 14 "Fetch.failRequest" [("requestId", JStr "R1"); ("errorReason", JStr "TimeoutError")];
    request 15 "Fetch.failRequest" [("requestId", JStr "R1"); ("errorReason", JStr "ConnectionTimeout")];
    request 16 "Page.navigate" [("url", JStr "https://example.com"); ("targetId", JStr "T2")];
    request 17 "Runtime.evaluate" [("expression", JStr "missing()")];
    request 18 "Storage.clear" [];
    request 19 "Page.explode" [];
    request 20 "DOM.querySelectorAll" [("selector", JStr "li")];
    request 21 "DOM.removeNode" [("nodeId", JNum 1)];
    request 22 "DOM.getDocument" [];
    request 23 "Runtime.callFunctionOn" [("functionDeclaration", JStr "function() { throw new Error('boom') }")];
    request 24 "Runtime.evaluate" [("expression", JStr "2+2")];
    request 25 "DOM.querySelector" [("selector", JStr "body")] ].

(** A parser that agrees with [JSON.parse] on the sample frames and rejects
    every other text. *)
Definition sample_parse (data : string) : option JSValue :=
  find (fun v => String.eqb (to_json v) data) sample_requests.

(** A world whose backend answers by call name from a table, [undefined]
    otherwise; [page] is the page of [browser.newPage()] and [uuid] the
    identifier of [crypto.randomUUID()]. *)
Definition world_of (answers : list (string * Outcome JSValue)) (page : Page) (uuid : string) : World :=
  {| backend := fun name _ =>
       match find (fun a => String.eqb name (fst a)) answers with
       | Some a => snd a
       | None => Returns JUndefined
       end;
     launch := Returns 0%N;
     newPage := Returns page;
     randomUUID := uuid |}.

Definition quiet_world : World := world_of [] 1%N "T1".

Definition naming_world (uuid : string) : World := world_of [] 1%N uuid.

(** A world in which navigation goes through and selectors match nothing. *)
Definition browsing_world : World :=
  world_of [("page.goto", Returns (JObj [("status", JNum 200)]));
            ("page.url", Returns (JStr "https://example.com/"));
            ("URL.origin", Returns (JStr "https://example.com"));
            ("Date.now() / 1000", Returns (JNum 1700000000));
            ("response.ok", Returns (JBool true));
            ("page.content", Returns (JStr "<html><body></body></html>"));
            ("page.$", Returns JNull)] 3%N "L1".

(** A world in which the page throws on every evaluation. *)
Definition throwing_world : World :=
  world_of [("page.evaluate", Rejects (ErrorObj "missing is not defined"))] 3%N "L1".

(** A world in which every evaluation yields the object [{a: 1}]. *)
Definition object_world : World :=
  world_of [("page.evaluate", Returns (JObj [("a", JNum 1)]))] 3%N "L1".

(** A world in which every evaluation yields the number 4. *)
Definition four_world : World :=
  world_of [("page.evaluate", Returns (JNum 4))] 3%N "L1".

(** A world in which selectors match: three elements for [$$], one for [$],
    and every evaluation yields an object. *)
Definition matching_world : World :=
  world_of [("page.$$", Returns (JArr [JObj []; JObj []; JObj []]));
            ("page.$", Returns (JObj []));
            ("page.evaluate", Returns (JObj [("a", JNum 1)]));
            ("page.url", Returns (JStr "https://example.com/"))] 3%N "L1".

(** The connection right after construction in [quiet_world]. *)
Definition sample_connection : Connection :=
  {| session :=
       {| browser := 0%N; pages := [("T1", 1%N)]; defaultTargetId := "T1";
          nodeIdCounter := 1; nodeMap := ∅; objectIdCounter := 1; objectMap := ∅;
          scriptsToEvaluateOnNewDocument := ∅; extraHTTPHeaders := ∅;
          requestInterceptionEnabled := false; pendingRequests := ∅ |};
     listeners := [] |}.

Definition sample_request : Request :=
  {| req_handle := 7%N; req_url := "https://example.com/app.js"; req_method := "GET";
     req_headers := JObj []; req_postData := JUndefined; req_resourceType := "script" |}.

(** A session with a second target [T2] next to the default target [T1]. *)
Definition two_targets : CDPSession :=
  with_pages (JsMap.set "T2" 2%N) (session sample_connection).

(** A session in which the request [R1] is parked. *)
Definition parked_session : CDPSession :=
  with_pendingRequests (insert "R1" sample_request) (session sample_connection).

(** The sample connection after one [Runtime.evaluate] by reference: the
    object [obj-1] is stored. *)
Definition holding_connection : Connection :=
  (run sample_parse sample_connection
     [(object_world,
       Message (to_json (request 7 "Runtime.evaluate"
                           [("expression", JStr "({a: 1})"); ("returnByValue", JBool false)])))]).1.

(** Queries, a removal, more queries; evaluations by reference around a
    release. *)
Definition id_session : list (World * Input) :=
  map (fun v => (matching_world, Message (to_json v)))
    [ request 20 "DOM.querySelectorAll" [("selector", JStr "li")];
      request 21 "DOM.removeNode" [("nodeId", JNum 1)];
      request 5 "DOM.querySelector" [("selector", JStr "#missing")];
      request 22 "DOM.getDocument" [];
      request 7 "Runtime.evaluate" [("expression", JStr "({a: 1})"); ("returnByValue", JBool false)];
      request 8 "Runtime.releaseObjectGroup" [("objectGroup", JStr "console")];
      request 7 "Runtime.evaluate" [("expression", JStr "({a: 1})"); ("returnByValue", JBool false)] ].

(** The [html] element as [serializeNode] returns it at depth 1, for a
    document whose [head] and [body] are empty and for the draws 2, 907613
    and 2 of [Math.random]. *)
Definition serialized_html : JSValue :=
  let element (nodeId : Z) (name : string) (inner : list (string * JSValue)) :=
    JObj ([("nodeId", JNum nodeId); ("nodeType", JNum 1); ("nodeName", JStr name);
           ("localName", JStr (toLowerCase name)); ("nodeValue", JStr "");
           ("attributes", JArr [])] ++ inner) in
  element 2 "HTML"
    [("children", JArr [element 907613 "HEAD" [("childNodeCount", JNum 0)];
                        element 2 "BODY" [("childNodeCount", JNum 0)]]);
     ("childNodeCount", JNum 2)].

(** A world in which the page serializes to [serialized_html] and the
    selector [body] matches. *)
Definition document_world : World :=
  world_of [("page.evaluate", Returns serialized_html);
            ("page.$", Returns (JObj []));
            ("page.url", Returns (JStr "https://example.com/"))] 3%N "L1".

Definition sample_env : Env := {| CDP_SECRET := Some "s3cret"; BROWSER := true |}.
Definition unconfigured_env : Env := {| CDP_SECRET := None; BROWSER := true |}.
Definition upgrade_with (secret : option string) : UpgradeRequest :=
  {| upgradeHeader := Some "WebSocket"; providedSecret := secret |}.

(** ** The discovery routes *)

(** The [supported_methods] member of the body with which [cdp.get('/')]
    answers a request that is not a WebSocket upgrade. *)
Definition supported_methods : list string :=
  [ "Browser.getVersion"; "Browser.close";
    "Target.createTarget"; "Target.closeTarget"; "Target.getTargets"; "Target.attachToTarget";
    "Page.navigate"; "Page.reload"; "Page.captureScreenshot"; "Page.getFrameTree";
    "Page.getLayoutMetrics"; "Page.bringToFront"; "Page.setContent"; "Page.printToPDF";
    "Page.addScriptToEvaluateOnNewDocument"; "Page.removeScriptToEvaluateOnNewDocument";
    "Page.handleJavaScriptDialog"; "Page.stopLoading"; "Page.getNavigationHistory";
    "Page.navigateToHistoryEntry"; "Page.setBypassCSP";
    "Runtime.evaluate"; "Runtime.callFunctionOn"; "Runtime.getProperties";
    "Runtime.releaseObject"; "Runtime.releaseObjectGroup";
    "DOM.getDocument"; "DOM.querySelector"; "DOM.querySelectorAll"; "DOM.getOuterHTML";
    "DOM.getAttributes"; "DOM.setAttributeValue"; "DOM.focus"; "DOM.getBoxModel";
    "DOM.scrollIntoViewIfNeeded"; "DOM.removeNode"; "DOM.setNodeValue"; "DOM.setFileInputFiles";
    "Input.dispatchMouseEvent"; "Input.dispatchKeyEvent"; "Input.insertText";
    "Network.enable"; "Network.disable"; "Network.setCacheDisabled";
    "Network.setExtraHTTPHeaders"; "Network.setCookie"; "Network.setCookies";
    "Network.getCookies"; "Network.deleteCookies"; "Network.clearBrowserCookies";
    "Network.setUserAgentOverride";
    "Fetch.enable"; "Fetch.disable"; "Fetch.continueRequest"; "Fetch.fulfillRequest";
    "Fetch.failRequest"; "Fetch.getResponseBody";
    "Emulation.setDeviceMetricsOverride"; "Emulation.clearDeviceMetricsOverride";
    "Emulation.setUserAgentOverride"; "Emulation.setGeolocationOverride";
    "Emulation.clearGeolocationOverride"; "Emulation.setTimezoneOverride";
    "Emulation.setTouchEmulationEnabled"; "Emulation.setEmulatedMedia";
    "Emulation.setDefaultBackgroundColorOverride" ].

(** The request of a discovery route: what the handlers read of
    [new URL(c.req.url)]. The route [/json] also rewrites [url.pathname],
    which nothing reads afterwards. *)
Record DiscoveryRequest := {
  url_protocol : string;         (* url.protocol, with its colon *)
  url_host : string;             (* url.host *)
  url_secret : option string;    (* url.searchParams.get('secret') *)
}.

(** [c.json(body, status)]. *)
Record JsonReply := {
  reply_status : Z;
  reply_body : JSValue;
}.

Definition not_configured : JsonReply :=
  {| reply_status := 503;
     reply_body := JObj [("error", JStr "CDP endpoint not configured");
                         ("hint", JStr "Set CDP_SECRET via: wrangler secret put CDP_SECRET")] |}.

Definition unauthorized : JsonReply :=
  {| reply_status := 401; reply_body := JObj [("error", JStr "Unauthorized")] |}.

Definition no_browser : JsonReply :=
  {| reply_status := 503;
     reply_body := JObj [("error", JStr "Browser Rendering not configured");
                         ("hint", JStr "Add browser binding to wrangler.jsonc")] |}.

(** [`${wsProtocol}//${url.host}/cdp?secret=${encodeURIComponent(providedSecret)}`];
    [encodeURIComponent] is the built-in of the runtime. *)
Definition wsUrl (encodeURIComponent : string → string) (req : DiscoveryRequest)
    (providedSecret : string) : string :=
  let wsProtocol := if String.eqb (url_protocol req) "https:" then "wss:" else "ws:" in
  wsProtocol +:+ "//" +:+ url_host req +:+ "/cdp?secret=" +:+ encodeURIComponent providedSecret.

Definition placeholder_target (url : string) : JSValue :=
  JObj [("description", JStr ""); ("devtoolsFrontendUrl", JStr "");
        ("id", JStr "cloudflare-browser"); ("title", JStr "Cloudflare Browser Rendering");
        ("type", JStr "page"); ("url", JStr "about:blank");
        ("webSocketDebuggerUrl", JStr url)].

(** [cdp.get('/json/version')]. *)
Definition cdp_get_json_version (encodeURIComponent : string → string)
    (req : DiscoveryRequest) (env : Env) : JsonReply :=
  match CDP_SECRET env with
  | None | Some "" => not_configured
  | Some expectedSecret =>
      match url_secret req with
      | None | Some "" => unauthorized
      | Some providedSecret =>
          if negb (timingSafeEqual providedSecret expectedSecret) then unauthorized
          else if negb (BROWSER env) then no_browser
          else
            {| reply_status := 200;
               reply_body :=
                 JObj [("Browser", JStr "Cloudflare-Browser-Rendering/1.0");
                       ("Protocol-Version", JStr "1.3");
                       ("User-Agent", JStr "Mozilla/5.0 Cloudflare Browser Rendering");
                       ("V8-Version", JStr "cloudflare");
                       ("WebKit-Version", JStr "cloudflare");
                       ("webSocketDebuggerUrl",
                        JStr (wsUrl encodeURIComponent req providedSecret))] |}
      end
  end.

(** [cdp.get('/json/list')]. *)
Definition cdp_get_json_list (encodeURIComponent : string → string)
    (req : DiscoveryRequest) (env : Env) : JsonReply :=
  match CDP_SECRET env with
  | None | Some "" => not_configured
  | Some expectedSecret =>
      match url_secret req with
      | None | Some "" => unauthorized
      | Some providedSecret =>
          if negb (timingSafeEqual providedSecret expectedSecret) then unauthorized
          else if negb (BROWSER env) then no_browser
          else
            {| reply_status := 200;
               reply_body :=
                 JArr [placeholder_target (wsUrl encodeURIComponent req providedSecret)] |}
      end
  end.

(** [cdp.get('/json')], written out again in the source. *)
Definition cdp_get_json (encodeURIComponent : string → string)
    (req : DiscoveryRequest) (env : Env) : JsonReply :=
  match CDP_SECRET env with
  | None | Some "" => not_configured
  | Some expectedSecret =>
      match url_secret req with
      | None | Some "" => unauthorized
      | Some providedSecret =>
          if negb (timingSafeEqual providedSecret expectedSecret) then unauthorized
          else if negb (BROWSER env) then no_browser
          else
            {| reply_status := 200;
               reply_body :=
                 JArr [placeholder_target (wsUrl encodeURIComponent req providedSecret)] |}
      end
  end.

(** ** Redaction of query parameters for the log

    [redactSensitiveParams] of [utils/logging.ts], which the request log of
    the worker applies to every url, the one of the upgrade route
    included. *)

(** [/secret|token|key|password|auth|credential/i.test(s)]: one of the words
    occurs in [s], letter case aside. *)
Definition sensitivePatterns : list string :=
  ["secret"; "token"; "key"; "password"; "auth"; "credential"].

Definition is_sensitive (s : string) : bool :=
  existsb (includes (toLowerCase s)) sensitivePatterns.

(** The loop of [redactSensitiveParams] over the entries of
    [new URLSearchParams(url.search)], building [redactedParams] with
    [set]. *)
Definition redact_entries (params : list (string * string)) : JsMap.t string :=
  fold_left (fun redactedParams kv =>
               if is_sensitive kv.1 || is_sensitive kv.2
               then JsMap.set kv.1 "[REDACTED]" redactedParams
               else JsMap.set kv.1 kv.2 redactedParams)
            params [].

(** [redactSensitiveParams(url)] on [url.search]; [parse] and [serialize] are
    the constructor and the [toString] of [URLSearchParams]. *)
Definition redactSensitiveParams (parse : string → list (string * string))
    (serialize : list (string * string) → string) (search : string) : string :=
  let result := serialize (redact_entries (parse search)) in
  if negb (String.eqb result "") then "?" +:+ result else "".

(** ** Further notions and samples *)

(** The domains whose commands the dispatcher refuses without a live target. *)
Definition needs_target (domain : string) : bool :=
  existsb (String.eqb domain) ["Page"; "Runtime"; "DOM"; "Input"; "Emulation"; "Fetch"].

(** The selector recorded for the match at index [i]. *)
Definition nth_of_type (sel : string) (i : nat) : JSValue :=
  JStr (sel +:+ ":nth-of-type(" +:+ pretty (Z.of_nat i + 1) +:+ ")").

(** The event [Fetch.requestPaused] for a request parked under [requestId]. *)
Definition requestPaused (s : CDPSession) (requestId : string) (request : Request) : Frame :=
  Event "Fetch.requestPaused"
    (JObj [("requestId", JStr requestId);
           ("request", JObj [("url", JStr (req_url request));
                             ("method", JStr (req_method request));
                             ("headers", req_headers request);
                             ("postData", req_postData request)]);
           ("frameId", JStr (defaultTargetId s));
           ("resourceType", JStr (req_resourceType request))]).

(** A pattern of [Fetch.enable] lets a url through to interception: it has
    no [urlPattern], or the url matches it ([matched] is what
    [String.prototype.match] answered for the pattern). *)
Definition pattern_matches (matched : JSValue → JSValue) (pattern : JSValue) : bool :=
  negb (truthy (prop pattern "urlPattern")) || truthy (matched pattern).

(** The commands whose handler assigns to the session or calls a mutating
    method of one of its maps. *)
Definition session_writers : list (string * string) :=
  [("Target", "createTarget"); ("Target", "closeTarget");
   ("Page", "addScriptToEvaluateOnNewDocument"); ("Page", "removeScriptToEvaluateOnNewDocument");
   ("Runtime", "evaluate"); ("Runtime", "callFunctionOn");
   ("Runtime", "releaseObject"); ("Runtime", "releaseObjectGroup");
   ("DOM", "getDocument"); ("DOM", "querySelector"); ("DOM", "querySelectorAll");
   ("DOM", "removeNode");
   ("Network", "setExtraHTTPHeaders");
   ("Fetch", "enable"); ("Fetch", "disable"); ("Fetch", "continueRequest");
   ("Fetch", "fulfillRequest"); ("Fetch", "failRequest")].

Definition writes_session (domain : string) (command : option string) : bool :=
  match command with
  | Some c => existsb (fun dc : string * string => String.eqb domain dc.1 && String.eqb c dc.2)
                      session_writers
  | None => false
  end.

(** The text parses to a request for one of those commands. *)
Definition message_may_write (JSON_parse : string → option JSValue) (data : string) : bool :=
  match JSON_parse data with
  | Some request =>
      match prop request "method" with
      | JStr m => writes_session (domain_of m) (command_of m)
      | _ => false
      end
  | None => false
  end.

(** The case labels of a [switch (command)], qualified by the domain. *)
Definition labels {C} (domain : string) (table : list (string * C)) : list string :=
  map (fun entry => domain +:+ "." +:+ entry.1) table.

(** Every method for which the dispatcher and a domain handler have a
    case. *)
Definition dispatched_methods : list string :=
  labels "Browser" browser_commands ++ labels "Target" target_commands ++
  labels "Page" page_commands ++ labels "Runtime" runtime_commands ++
  labels "DOM" dom_commands ++ labels "Input" input_commands ++
  labels "Network" network_commands ++ labels "Emulation" emulation_commands ++
  labels "Fetch" fetch_commands.

(** The [webSocketDebuggerUrl] a discovery body advertises: a member of the
    version object, or of the one target of the list. *)
Definition advertised_url (body : JSValue) : JSValue :=
  match body with
  | JArr [target] => prop target "webSocketDebuggerUrl"
  | _ => prop body "webSocketDebuggerUrl"
  end.

(** A parser that knows the given frames and rejects every other text. *)
Definition parse_among (requests : list JSValue) (data : string) : option JSValue :=
  find (fun v => String.eqb (to_json v) data) requests.

(** A session in which node 1 is the match of the selector [li]. *)
Definition node_session : CDPSession :=
  with_nodeMap (insert 1 (JStr "li")) (with_nodeIdCounter (fun _ => 2) (session sample_connection)).

(** A connection on which [Fetch.enable] was served with no patterns. *)
Definition intercepting_connection : Connection :=
  {| session := with_requestInterceptionEnabled true (session sample_connection);
     listeners := [(1%N, JUndefined)] |}.

(** * Properties *)

(** ** The insertion-ordered map *)

Lemma JsMap_get_set_eq {V} k (v : V) m : JsMap.get k (JsMap.set k v m) = Some v.
Proof.
  induction m as [|[k' v'] m IH]; simpl.
  - by rewrite String.eqb_refl.
  - destruct (String.eqb k k') eqn:E; simpl; rewrite ?E, ?String.eqb_refl; auto.
Qed.

Lemma JsMap_get_set_ne {V} k k' (v : V) m : k ≠ k' → JsMap.get k' (JsMap.set k v m) = JsMap.get k' m.
Proof.
  intros Hne. induction m as [|[k0 v0] m IH]; simpl.
  - destruct (String.eqb_spec k' k); congruence.
  - destruct (String.eqb_spec k k0) as [->|]; simpl.
    + destruct (String.eqb_spec k' k0); congruence.
    + destruct (String.eqb_spec k' k0); auto.
Qed.

Lemma JsMap_get_delete_eq {V} k (m : JsMap.t V) : JsMap.get k (JsMap.delete k m) = None.
Proof.
  induction m as [|[k' v'] m IH]; simpl; auto.
  destruct (String.eqb k k') eqn:E; simpl; rewrite ?E; auto.
Qed.

Lemma JsMap_get_delete_ne {V} k k' (m : JsMap.t V) :
  k ≠ k' → JsMap.get k' (JsMap.delete k m) = JsMap.get k' m.
Proof.
  intros Hne. induction m as [|[k0 v0] m IH]; simpl; auto.
  destruct (String.eqb_spec k k0) as [->|]; simpl.
  - destruct (String.eqb_spec k' k0); congruence.
  - destruct (String.eqb_spec k' k0); auto.
Qed.

(** ** Rules for [obeys] *)

Section Obeys.
Context (R : CDPSession → CDPSession → Prop) `{!PreOrder R} (E : Effect → Prop).

Local Lemma R_refl s : R s s.
Proof. reflexivity. Qed.

Local Lemma R_trans s1 s2 s3 : R s1 s2 → R s2 s3 → R s1 s3.
Proof. intros. by etrans. Qed.

Lemma obeys_ret {A} (a : A) : obeys R E (ret a).
Proof. intros w s. split; [apply R_refl | constructor]. Qed.

Lemma obeys_mret {A} (a : A) : obeys R E (mret a).
Proof. apply obeys_ret. Qed.

Lemma obeys_throw {A} e : obeys R E (@throw A e).
Proof. intros w s. split; [apply R_refl | constructor]. Qed.

Lemma obeys_gets {A} (f : CDPSession → A) : obeys R E (gets f).
Proof. intros w s. split; [apply R_refl | constructor]. Qed.

Lemma obeys_uuid : obeys R E crypto_randomUUID.
Proof. intros w s. split; [apply R_refl | constructor]. Qed.

Lemma obeys_modify f : (∀ s, R s (f s)) → obeys R E (modify f).
Proof. intros H w s. split; [apply H | constructor]. Qed.

Lemma obeys_emit e : E e → obeys R E (emit e).
Proof. intros H w s. split; [apply R_refl | by repeat constructor]. Qed.

Lemma obeys_call name args : E (Call name args) → obeys R E (call name args).
Proof. intros H w s. split; [apply R_refl | by repeat constructor]. Qed.

Lemma obeys_newPage : E (Call "browser.newPage" []) → obeys R E browser_newPage.
Proof. intros H w s. split; [apply R_refl | by repeat constructor]. Qed.

Lemma obeys_bind {A B} (m : M A) (k : A → M B) :
  obeys R E m → (∀ a, obeys R E (k a)) → obeys R E (m ≫= k).
Proof.
  intros Hm Hk w s. destruct (Hm w s) as [HR HE].
  unfold mbind, M_bind, bind. destruct (out (m w s)) as [a|e] eqn:Ho; simpl.
  - destruct (Hk a w (st (m w s))) as [HR' HE']. split.
    + eapply R_trans; eauto.
    + apply Forall_app; auto.
  - auto.
Qed.

Lemma obeys_try_catch {A} (m : M A) (h : Thrown → M A) :
  obeys R E m → (∀ e, obeys R E (h e)) → obeys R E (try_catch m h).
Proof.
  intros Hm Hh w s. destruct (Hm w s) as [HR HE].
  unfold try_catch. destruct (out (m w s)) as [a|e] eqn:Ho; simpl; auto.
  destruct (Hh e w (st (m w s))) as [HR' HE']. split.
  - eapply R_trans; eauto.
  - apply Forall_app; auto.
Qed.

Lemma obeys_for_each {A} (l : list A) (body : A → M unit) :
  (∀ x, obeys R E (body x)) → obeys R E (for_each l body).
Proof.
  intros H. induction l as [|x l IH]; simpl.
  - apply obeys_ret.
  - apply obeys_bind; auto.
Qed.

Lemma obeys_map_M {A B} (f : A → M B) (l : list A) :
  (∀ x, obeys R E (f x)) → obeys R E (map_M f l).
Proof.
  intros H. induction l as [|x l IH]; simpl.
  - apply obeys_ret.
  - apply obeys_bind; auto. intros y. apply obeys_bind; auto. intros ys. apply obeys_ret.
Qed.

Lemma obeys_template v : obeys R E (template v).
Proof. unfold template. destruct (js_String v); [apply obeys_ret | apply obeys_throw]. Qed.

Lemma obeys_member v k : obeys R E (member v k).
Proof. unfold member. destruct (nullish v); [apply obeys_throw | apply obeys_ret]. Qed.

Lemma obeys_spread name v : obeys R E (spread name v).
Proof. unfold spread. destruct v; first [apply obeys_ret | apply obeys_throw]. Qed.

End Obeys.

(** Decompose a handler along its structure; what is left are the steps that
    write the session. [special] goes first, for the fragments that only hold
    as a whole. *)
Ltac obeys_with special :=
  repeat (cbv beta zeta;
    first
      [ special
      | lazymatch goal with
        | |- PreOrder _ => exact _
        | |- True => exact I
        | |- handler_effect _ => exact I
        | |- any_effect _ => exact I
        | |- call_only _ => exact I
        | |- ∀ _, _ => intros ?
        | |- obeys _ _ (mbind _ _) => apply obeys_bind
        | |- obeys _ _ (ret _) => apply obeys_ret
        | |- obeys _ _ (mret _) => apply obeys_ret
        | |- obeys _ _ (throw _) => apply obeys_throw
        | |- obeys _ _ (throw_Error _) => apply obeys_throw
        | |- obeys _ _ (throw_TypeError _) => apply obeys_throw
        | |- obeys _ _ (gets _) => apply obeys_gets
        | |- obeys _ _ crypto_randomUUID => apply obeys_uuid
        | |- obeys _ _ browser_newPage => apply obeys_newPage
        | |- obeys _ _ (call _ _) => apply obeys_call
        | |- obeys _ _ (emit _) => apply obeys_emit
        | |- obeys _ _ (sendEvent _ _) => apply obeys_emit
        | |- obeys _ _ (template _) => apply obeys_template
        | |- obeys _ _ (member _ _) => apply obeys_member
        | |- obeys _ _ (spread _ _) => apply obeys_spread
        | |- obeys _ _ (try_catch _ _) => apply obeys_try_catch
        | |- obeys _ _ (for_each _ _) => apply obeys_for_each
        | |- obeys _ _ (map_M _ _) => apply obeys_map_M
        | |- obeys _ _ (modify _) => apply obeys_modify
        | |- obeys _ _ (match ?x with _ => _ end) => destruct x
        end ]).

Tactic Notation "obeys_auto" := obeys_with fail.

(** ** The relations are preorders *)

#[global] Instance trivial_preorder : PreOrder (fun _ _ : CDPSession => True).
Proof. split; repeat intro; exact I. Qed.

#[global] Instance ids_grow_preorder : PreOrder ids_grow.
Proof.
  split.
  - intros s. unfold ids_grow. split; [lia | split; [lia | split; auto]].
  - intros s1 s2 s3 (H1 & H2 & H3 & H4) (K1 & K2 & K3 & K4).
    unfold ids_grow. split; [lia | split; [lia | split; intros lo; auto]].
Qed.

#[global] Instance keeps_target_preorder d : PreOrder (keeps_target d).
Proof.
  split.
  - intros s. split; auto.
  - intros s1 s2 s3 [H1 H2] [K1 K2]. split; [congruence | auto].
Qed.

#[global] Instance same_targets_preorder : PreOrder same_targets.
Proof.
  split.
  - intros s. split; auto.
  - intros s1 s2 s3 [H1 H2] [K1 K2]. split; congruence.
Qed.

Lemma same_targets_keeps d s s' : same_targets s s' → keeps_target d s s'.
Proof. intros [H1 H2]. split; [auto | by rewrite H2]. Qed.

(** ** Targets: what each handler leaves alone *)

Ltac same_targets_step :=
  idtac; lazymatch goal with
  | |- same_targets _ _ => split; reflexivity
  end.

Lemma handleBrowser_targets command params :
  obeys same_targets handler_effect (handleBrowser command params).
Proof. unfold handleBrowser. obeys_with ltac:(same_targets_step). Qed.

Lemma handlePage_targets page command params :
  obeys same_targets handler_effect (handlePage page command params).
Proof. unfold handlePage, inches_field. obeys_with ltac:(same_targets_step). Qed.

Lemma store_object_targets returnByValue result :
  obeys same_targets handler_effect (store_object returnByValue result).
Proof. unfold store_object. obeys_with ltac:(same_targets_step). Qed.

Lemma handleRuntime_targets page command params :
  obeys same_targets handler_effect (handleRuntime page command params).
Proof.
  unfold handleRuntime.
  obeys_with ltac:(first [same_targets_step | apply store_object_targets]).
Qed.

Lemma handleDOM_targets page command params :
  obeys same_targets handler_effect (handleDOM page command params).
Proof.
  unfold handleDOM, require_selector, node_selector, allocate_match, next_nodeId, toQuad, js_add,
    to_primitive.
  obeys_with ltac:(same_targets_step).
Qed.

Lemma handleInput_targets page command params :
  obeys same_targets handler_effect (handleInput page command params).
Proof. unfold handleInput. obeys_with ltac:(same_targets_step). Qed.

Lemma handleNetwork_targets page command params :
  obeys same_targets handler_effect (handleNetwork page command params).
Proof. unfold handleNetwork, require_page, js_add, to_primitive. obeys_with ltac:(same_targets_step). Qed.

Lemma handleEmulation_targets page command params :
  obeys same_targets handler_effect (handleEmulation page command params).
Proof. unfold handleEmulation. obeys_with ltac:(same_targets_step). Qed.

Lemma collect_headers_targets items acc :
  obeys same_targets handler_effect (collect_headers items acc).
Proof.
  revert acc. induction items as [|h items IH]; intros acc; simpl.
  - obeys_auto.
  - obeys_with ltac:(apply IH).
Qed.

Lemma handleFetch_targets page command params :
  obeys same_targets handler_effect (handleFetch page command params).
Proof.
  unfold handleFetch, require_pending.
  obeys_with ltac:(first [same_targets_step | apply collect_headers_targets]).
Qed.

Lemma obeys_weaken {A} (R R' : CDPSession → CDPSession → Prop) (E E' : Effect → Prop) (m : M A) :
  (∀ s s', R s s' → R' s s') → (∀ e, E e → E' e) → obeys R E m → obeys R' E' m.
Proof.
  intros HR HE H w s. destruct (H w s) as [H1 H2]. split; [auto |].
  eapply Forall_impl; eauto.
Qed.

Lemma handler_effect_listener e : handler_effect e → listener_effect e.
Proof. destruct e as [[]| | | |]; simpl; auto. Qed.

(** Walk a command table: one case per label, and the case of no label. *)
Ltac case_string_eqb :=
  match goal with
  | |- context [String.eqb ?a ?b] =>
      destruct (String.eqb_spec a b); [subst|]; simpl; try discriminate; try reflexivity
  end.

Lemma lookup_target_closeTarget command :
  lookup_command target_commands command = Some T_closeTarget → command = Some "closeTarget".
Proof. destruct command as [c|]; simpl; [|discriminate]. repeat case_string_eqb. Qed.

Lemma lookup_domain_Target domain :
  lookup_command domains (Some domain) = Some DTarget → domain = "Target".
Proof. simpl. repeat case_string_eqb. Qed.

Lemma obeys_bind_throw {A B} R `{!PreOrder R} E e (k : A → M B) :
  obeys R E (throw_TypeError e ≫= k).
Proof. intros w s. split; [reflexivity | constructor]. Qed.

Lemma obeys_bind_ret {A B} R E (a : A) (k : A → M B) :
  obeys R E (k a) → obeys R E (ret a ≫= k).
Proof. intros H w s. exact (H w s). Qed.

Lemma keeps_target_set d k v s : keeps_target d s (with_pages (JsMap.set k v) s).
Proof.
  split; [reflexivity|]. simpl. intros H.
  destruct (decide (k = d)) as [->|Hne].
  - rewrite JsMap_get_set_eq. eauto.
  - by rewrite JsMap_get_set_ne.
Qed.

Lemma keeps_target_delete d key s :
  key ≠ JStr d → keeps_target d s (with_pages (pages_delete key) s).
Proof.
  intros Hne. split; [reflexivity|]. simpl. intros H.
  destruct key; simpl; auto.
  rewrite JsMap_get_delete_ne; [auto | congruence].
Qed.

Lemma handleTarget_targets d command params :
  (command = Some "closeTarget" → prop params "targetId" ≠ JStr d) →
  obeys (keeps_target d) handler_effect (handleTarget command params).
Proof.
  intros Hclose. unfold handleTarget.
  destruct (lookup_command target_commands command) as [[]|] eqn:Hcmd.
  - obeys_with ltac:(apply keeps_target_set).
  - apply lookup_target_closeTarget in Hcmd.
    obeys_with ltac:(apply keeps_target_delete; auto).
  - obeys_auto.
  - obeys_auto.
  - obeys_auto.
Qed.

Lemma require_target_obeys R `{!PreOrder R} E page targetId :
  obeys R E (require_target page targetId).
Proof. unfold require_target. obeys_auto. Qed.

Lemma handleCDPMethod_targets d method params :
  (∀ m, method = JStr m → domain_of m = "Target" → command_of m = Some "closeTarget" →
        prop params "targetId" ≠ JStr d) →
  obeys (keeps_target d) handler_effect (handleCDPMethod method params).
Proof.
  intros Hclose. unfold handleCDPMethod.
  destruct method as [| | | | |m| |]; try solve [obeys_auto].
  apply obeys_bind; [exact _ | obeys_auto |]. intros s.
  destruct (lookup_command domains (Some (domain_of m))) as [[]|] eqn:Hdom.
  - eapply obeys_weaken; [apply same_targets_keeps | by intros ? ? | apply handleBrowser_targets].
  - apply lookup_domain_Target in Hdom. apply handleTarget_targets. intros Hc. eauto.
  - apply obeys_bind; [exact _ | apply require_target_obeys; exact _ |]. intros p.
    eapply obeys_weaken; [apply same_targets_keeps | by intros ? ? | apply handlePage_targets].
  - apply obeys_bind; [exact _ | apply require_target_obeys; exact _ |]. intros p.
    eapply obeys_weaken; [apply same_targets_keeps | by intros ? ? | apply handleRuntime_targets].
  - apply obeys_bind; [exact _ | apply require_target_obeys; exact _ |]. intros p.
    eapply obeys_weaken; [apply same_targets_keeps | by intros ? ? | apply handleDOM_targets].
  - apply obeys_bind; [exact _ | apply require_target_obeys; exact _ |]. intros p.
    eapply obeys_weaken; [apply same_targets_keeps | by intros ? ? | apply handleInput_targets].
  - eapply obeys_weaken; [apply same_targets_keeps | by intros ? ? | apply handleNetwork_targets].
  - apply obeys_bind; [exact _ | apply require_target_obeys; exact _ |]. intros p.
    eapply obeys_weaken; [apply same_targets_keeps | by intros ? ? | apply handleEmulation_targets].
  - apply obeys_bind; [exact _ | apply require_target_obeys; exact _ |]. intros p.
    eapply obeys_weaken; [apply same_targets_keeps | by intros ? ? | apply handleFetch_targets].
  - obeys_auto.
Qed.

Lemma closes_target_false d request m :
  closes_target d request = false →
  prop request "method" = JStr m → domain_of m = "Target" → command_of m = Some "closeTarget" →
  prop (js_or (prop request "params") empty_object) "targetId" ≠ JStr d.
Proof.
  unfold closes_target. intros H Hm Hd Hc. rewrite Hm, Hd, Hc in H. simpl in H.
  intros Heq. rewrite Heq in H. simpl in H. by rewrite String.eqb_refl in H.
Qed.

Lemma onMessage_targets JSON_parse d data :
  input_closes_target JSON_parse d (Message data) = false →
  obeys (keeps_target d) listener_effect (onMessage JSON_parse data).
Proof.
  unfold input_closes_target, onMessage. intros H.
  destruct (JSON_parse data) as [request|]; [|obeys_auto].
  unfold member. destruct (nullish request); [apply obeys_bind_throw; exact _|].
  apply obeys_bind_ret.
  apply obeys_try_catch; [exact _ | |].
  - apply obeys_bind; [exact _ | |].
    + eapply obeys_weaken; [ | apply handler_effect_listener | ]; [intros ? ? K; exact K|].
      apply handleCDPMethod_targets. intros m Hm Hd Hc.
      eapply closes_target_false; eauto.
    + intros result. apply obeys_emit; [exact _ | exact I].
  - intros err. apply obeys_emit; [exact _ | exact I].
Qed.

Lemma matches_some_pattern_targets url patterns otherwise :
  obeys same_targets handler_effect (matches_some_pattern url patterns otherwise).
Proof.
  induction patterns as [|pattern rest IH]; simpl.
  - obeys_auto.
  - obeys_with ltac:(apply IH).
Qed.

Lemma onRequest_targets patterns request :
  obeys same_targets handler_effect (onRequest patterns request).
Proof.
  unfold onRequest.
  obeys_with ltac:(first [same_targets_step | apply matches_some_pattern_targets]).
Qed.

Lemma step_targets JSON_parse d w i c :
  input_closes_target JSON_parse d i = false →
  keeps_target d (session c) (session (step JSON_parse w i c).1) ∧
  Forall listener_effect (step JSON_parse w i c).2.
Proof.
  intros H. destruct i as [data|k request]; simpl.
  - apply (onMessage_targets JSON_parse d data H w (session c)).
  - destruct (listeners c !! k) as [[p patterns]|]; simpl.
    + destruct (onRequest_targets patterns request w (session c)) as [H1 H2]. split.
      * by apply same_targets_keeps.
      * eapply Forall_impl; [exact H2 | apply handler_effect_listener].
    + split; [reflexivity | constructor].
Qed.

Lemma run_cons JSON_parse c w i rest :
  run JSON_parse c ((w, i) :: rest) =
  ((run JSON_parse (step JSON_parse w i c).1 rest).1,
   (i, (step JSON_parse w i c).2) :: (run JSON_parse (step JSON_parse w i c).1 rest).2).
Proof.
  simpl. destruct (step JSON_parse w i c) as [c' e]. simpl.
  by destruct (run JSON_parse c' rest).
Qed.

Lemma run_targets JSON_parse d inputs : ∀ c,
  Forall (fun wi : World * Input => input_closes_target JSON_parse d wi.2 = false) inputs →
  keeps_target d (session c) (session (run JSON_parse c inputs).1) ∧
  Forall (fun entry : Input * list Effect => Forall listener_effect entry.2)
         (run JSON_parse c inputs).2.
Proof.
  induction inputs as [|[w i] rest IH]; intros c Hall.
  - simpl. split; [reflexivity | constructor].
  - rewrite run_cons. simpl. inversion Hall as [|? ? Hi Hrest]; subst. simpl in Hi.
    destruct (step_targets JSON_parse d w i c Hi) as [H1 H2].
    destruct (IH (step JSON_parse w i c).1 Hrest) as [K1 K2]. split.
    + by etrans.
    + constructor; auto.
Qed.

Lemma listener_effect_closes effects : Forall listener_effect effects → closes effects = [].
Proof.
  induction 1 as [|e effects He _ IH]; [reflexivity|].
  destruct e; simpl in *; auto. contradiction.
Qed.

(** C1 (as amended). From construction on, the default target stays in the
    target map and the default target id is never reassigned, as long as no
    [Target.closeTarget] names the default target id itself; and no command
    closes the socket. *)
Theorem default_target_kept JSON_parse w0 c0 inputs :
  (connect w0).1 = Some c0 →
  Forall (fun wi : World * Input =>
            input_closes_target JSON_parse (defaultTargetId (session c0)) wi.2 = false) inputs →
  is_Some (JsMap.get (defaultTargetId (session c0)) (pages (session c0))) ∧
  defaultTargetId (session (run JSON_parse c0 inputs).1) = defaultTargetId (session c0) ∧
  is_Some (JsMap.get (defaultTargetId (session c0)) (pages (session (run JSON_parse c0 inputs).1))) ∧
  Forall (fun entry : Input * list Effect => closes entry.2 = []) (run JSON_parse c0 inputs).2.
Proof.
  intros Hc Hall.
  assert (Hinit : is_Some (JsMap.get (defaultTargetId (session c0)) (pages (session c0)))).
  { unfold connect, initCDPSession in Hc.
    destruct (launch w0); [|discriminate]. destruct (newPage w0); [|discriminate].
    simpl in Hc. injection Hc as <-. simpl. rewrite String.eqb_refl. eauto. }
  destruct (run_targets JSON_parse _ inputs c0 Hall) as [[H1 H2] H3].
  repeat split; auto.
  eapply Forall_impl; [exact H3|]. intros entry. apply listener_effect_closes.
Qed.

Lemma default_target_kept_witness :
  let inputs := [(world_of [] 2%N "T2", Message (to_json (request 2 "Target.createTarget" [])));
                 (quiet_world, Message (to_json (request 3 "Target.closeTarget" [("targetId", JStr "T2")])));
                 (quiet_world, Message "not json")] in
  is_Some (JsMap.get "T1" (pages (session sample_connection))) ∧
  defaultTargetId (session (run sample_parse sample_connection inputs).1) = "T1" ∧
  is_Some (JsMap.get "T1" (pages (session (run sample_parse sample_connection inputs).1))) ∧
  Forall (fun entry : Input * list Effect => closes entry.2 = [])
         (run sample_parse sample_connection inputs).2.
Proof.
  intros inputs.
  apply (default_target_kept sample_parse quiet_world sample_connection inputs).
  - reflexivity.
  - repeat constructor.
Defined.

(** C1, counterexample. [Target.closeTarget] on the default target id evicts
    the default target while the connection stays open: the command succeeds,
    nothing closes the socket, and the next command without [targetId] finds
    no target. *)
Lemma closeTarget_evicts_default_target :
  let close_default := Message (to_json (request 1 "Target.closeTarget" [("targetId", JStr "T1")])) in
  let navigate := Message (to_json (request 4 "Page.navigate" [("url", JStr "https://example.com")])) in
  let r := run sample_parse sample_connection [(quiet_world, close_default); (quiet_world, navigate)] in
  (connect quiet_world).1 = Some sample_connection ∧
  JsMap.get (defaultTargetId (session sample_connection)) (pages (session sample_connection)) = Some 1%N ∧
  JsMap.get (defaultTargetId (session r.1)) (pages (session r.1)) = None ∧
  map (fun entry : Input * list Effect => frames entry.2) r.2 =
    [ [Event "Target.targetDestroyed" (JObj [("targetId", JStr "T1")]);
       Response (JNum 1) (JObj [("success", JBool true)])];
      [ErrorFrame (JNum 4) (-32000) "Target not found: T1"] ] ∧
  map (fun entry : Input * list Effect => closes entry.2) r.2 = [ []; [] ].
Proof. vm_compute. repeat split. Qed.

(** ** Identifiers: counters only grow, ids in use stay below them *)

Lemma ids_grow_same s s' :
  nodeIdCounter s' = nodeIdCounter s → nodeMap s' = nodeMap s →
  objectIdCounter s' = objectIdCounter s → objectMap s' = objectMap s →
  ids_grow s s'.
Proof.
  intros H1 H2 H3 H4. unfold ids_grow, nodes_above, objects_above.
  rewrite H1, H2, H3, H4. split; [lia | split; [lia | split; auto]].
Qed.

Lemma ids_grow_node_delete key s : ids_grow s (with_nodeMap (nmap_delete key) s).
Proof.
  unfold ids_grow, nodes_above, objects_above. simpl.
  split; [lia | split; [lia | split; [|auto]]].
  intros lo [H1 H2]. split; [auto|]. intros k v Hk. apply (H2 k v).
  destruct key; simpl in Hk; auto.
  apply lookup_delete_Some in Hk. tauto.
Qed.

Lemma ids_grow_object_delete key s : ids_grow s (with_objectMap (smap_delete key) s).
Proof.
  unfold ids_grow, nodes_above, objects_above. simpl.
  split; [lia | split; [lia | split; [auto|]]].
  intros lo [H1 H2]. split; [auto|]. intros k v Hk. apply (H2 k v).
  destruct key; simpl in Hk; auto.
  apply lookup_delete_Some in Hk. tauto.
Qed.

Lemma ids_grow_object_clear s : ids_grow s (with_objectMap (fun _ => ∅) s).
Proof.
  unfold ids_grow, nodes_above, objects_above. simpl.
  split; [lia | split; [lia | split; [auto|]]].
  intros lo [H1 H2]. split; [auto|]. intros k v Hk. by rewrite lookup_empty in Hk.
Qed.

Lemma ids_grow_alloc_node v s :
  ids_grow s (with_nodeMap (insert (nodeIdCounter s) v) (with_nodeIdCounter (fun c => c + 1) s)).
Proof.
  unfold ids_grow, nodes_above, objects_above. simpl.
  split; [lia | split; [lia | split; [|auto]]].
  intros lo [H1 H2]. split; [lia|]. intros k v' Hk.
  apply lookup_insert_Some in Hk. destruct Hk as [[<- _]|[_ Hk]]; [lia|].
  specialize (H2 k v' Hk). lia.
Qed.

Lemma ids_grow_next_node s : ids_grow s (with_nodeIdCounter (fun c => c + 1) s).
Proof.
  unfold ids_grow, nodes_above, objects_above. simpl.
  split; [lia | split; [lia | split; [|auto]]].
  intros lo [H1 H2]. split; [lia|]. intros k v' Hk. specialize (H2 k v' Hk). lia.
Qed.

Lemma ids_grow_alloc_object v s :
  ids_grow s (with_objectMap (insert (object_id (objectIdCounter s)) v)
                (with_objectIdCounter (fun c => c + 1) s)).
Proof.
  unfold ids_grow, nodes_above, objects_above. simpl.
  split; [lia | split; [lia | split; [auto|]]].
  intros lo [H1 H2]. split; [lia|]. intros k v' Hk.
  apply lookup_insert_Some in Hk. destruct Hk as [[<- _]|[_ Hk]].
  - exists (objectIdCounter s). split; [reflexivity | lia].
  - destruct (H2 k v' Hk) as (n & -> & Hn). exists n. split; [reflexivity | lia].
Qed.

Section Allocation.
Context (E : Effect → Prop).

(** [const nodeId = session.nodeIdCounter++; session.nodeMap.set(nodeId, v); ...]. *)
Lemma obeys_alloc_node {A} v (k : Z → M A) :
  (∀ n, obeys ids_grow E (k n)) →
  obeys ids_grow E (next_nodeId ≫= λ n, modify (with_nodeMap (insert n v)) ≫= λ _, k n).
Proof.
  intros Hk w s.
  destruct (Hk (nodeIdCounter s) w
              (with_nodeMap (insert (nodeIdCounter s) v) (with_nodeIdCounter (fun c => c + 1) s)))
    as [H1 H2].
  split; [|exact H2].
  etrans; [apply (ids_grow_alloc_node v s) | exact H1].
Qed.

(** The same with the selector text computed in between, as in
    [querySelectorAll]. *)
Lemma obeys_alloc_node_template {A} t (f : string → JSValue) (k : Z → M A) :
  (∀ n, obeys ids_grow E (k n)) →
  obeys ids_grow E
    (next_nodeId ≫= λ n, template t ≫= λ sel, modify (with_nodeMap (insert n (f sel))) ≫= λ _, k n).
Proof.
  intros Hk w s. unfold template. destruct (js_String t) as [sel|].
  - destruct (Hk (nodeIdCounter s) w
                (with_nodeMap (insert (nodeIdCounter s) (f sel))
                   (with_nodeIdCounter (fun c => c + 1) s))) as [H1 H2].
    split; [|exact H2].
    etrans; [apply (ids_grow_alloc_node (f sel) s) | exact H1].
  - split; [apply ids_grow_next_node | constructor].
Qed.

Lemma store_object_ids returnByValue result :
  obeys ids_grow E (store_object returnByValue result).
Proof.
  unfold store_object.
  destruct (negb (truthy returnByValue) && negb (is_null result) &&
            String.eqb (typeof result) "object").
  - intros w s. split; [apply ids_grow_alloc_object | constructor].
  - intros w s. split; [reflexivity | constructor].
Qed.

End Allocation.

Ltac ids_step :=
  idtac; lazymatch goal with
  | |- ids_grow _ (with_nodeMap (nmap_delete _) _) => apply ids_grow_node_delete
  | |- ids_grow _ (with_objectMap (smap_delete _) _) => apply ids_grow_object_delete
  | |- ids_grow _ (with_objectMap (fun _ => ∅) _) => apply ids_grow_object_clear
  | |- ids_grow _ _ => apply ids_grow_same; reflexivity
  | |- obeys ids_grow _ (store_object _ _) => apply store_object_ids
  | |- obeys ids_grow _ (next_nodeId ≫= _) =>
      first [apply obeys_alloc_node | apply obeys_alloc_node_template]
  end.

Lemma handleBrowser_ids command params :
  obeys ids_grow any_effect (handleBrowser command params).
Proof. unfold handleBrowser. obeys_with ltac:(ids_step). Qed.

Lemma handleTarget_ids command params :
  obeys ids_grow any_effect (handleTarget command params).
Proof. unfold handleTarget. obeys_with ltac:(ids_step). Qed.

Lemma handlePage_ids page command params :
  obeys ids_grow any_effect (handlePage page command params).
Proof. unfold handlePage, inches_field. obeys_with ltac:(ids_step). Qed.

Lemma handleRuntime_ids page command params :
  obeys ids_grow any_effect (handleRuntime page command params).
Proof. unfold handleRuntime. obeys_with ltac:(ids_step). Qed.

Lemma handleDOM_ids page command params :
  obeys ids_grow any_effect (handleDOM page command params).
Proof.
  unfold handleDOM, require_selector, node_selector, allocate_match, toQuad, js_add, to_primitive.
  obeys_with ltac:(ids_step).
Qed.

Lemma handleInput_ids page command params :
  obeys ids_grow any_effect (handleInput page command params).
Proof. unfold handleInput. obeys_with ltac:(ids_step). Qed.

Lemma handleNetwork_ids page command params :
  obeys ids_grow any_effect (handleNetwork page command params).
Proof. unfold handleNetwork, require_page, js_add, to_primitive. obeys_with ltac:(ids_step). Qed.

Lemma handleEmulation_ids page command params :
  obeys ids_grow any_effect (handleEmulation page command params).
Proof. unfold handleEmulation. obeys_with ltac:(ids_step). Qed.

Lemma collect_headers_ids items acc :
  obeys ids_grow any_effect (collect_headers items acc).
Proof.
  revert acc. induction items as [|h items IH]; intros acc; simpl.
  - obeys_auto.
  - obeys_with ltac:(apply IH).
Qed.

Lemma handleFetch_ids page command params :
  obeys ids_grow any_effect (handleFetch page command params).
Proof.
  unfold handleFetch, require_pending.
  obeys_with ltac:(first [ids_step | apply collect_headers_ids]).
Qed.

Lemma handleTarget_effects command params :
  obeys (fun _ _ => True) handler_effect (handleTarget command params).
Proof. unfold handleTarget. obeys_auto. Qed.

Lemma trivially_related {A} R E (m : M A) : obeys R E m → obeys (fun _ _ => True) E m.
Proof. intros H. eapply obeys_weaken; [ | | exact H]; auto. Qed.

Lemma handleCDPMethod_effects method params :
  obeys (fun _ _ => True) handler_effect (handleCDPMethod method params).
Proof.
  unfold handleCDPMethod.
  destruct method as [| | | | |m| |]; try solve [obeys_auto].
  apply obeys_bind; [exact _ | obeys_auto |]. intros s.
  destruct (lookup_command domains (Some (domain_of m))) as [[]|];
    try (apply obeys_bind; [exact _ | apply require_target_obeys; exact _ |]; intros p).
  - apply (trivially_related _ _ _ (handleBrowser_targets _ _)).
  - apply handleTarget_effects.
  - apply (trivially_related _ _ _ (handlePage_targets _ _ _)).
  - apply (trivially_related _ _ _ (handleRuntime_targets _ _ _)).
  - apply (trivially_related _ _ _ (handleDOM_targets _ _ _)).
  - apply (trivially_related _ _ _ (handleInput_targets _ _ _)).
  - apply (trivially_related _ _ _ (handleNetwork_targets _ _ _)).
  - apply (trivially_related _ _ _ (handleEmulation_targets _ _ _)).
  - apply (trivially_related _ _ _ (handleFetch_targets _ _ _)).
  - obeys_auto.
Qed.

Lemma handleCDPMethod_ids method params :
  obeys ids_grow any_effect (handleCDPMethod method params).
Proof.
  unfold handleCDPMethod.
  destruct method as [| | | | |m| |]; try solve [obeys_auto].
  apply obeys_bind; [exact _ | obeys_auto |]. intros s.
  destruct (lookup_command domains (Some (domain_of m))) as [[]|];
    try (apply obeys_bind; [exact _ | apply require_target_obeys; exact _ |]; intros p).
  - apply handleBrowser_ids.
  - apply handleTarget_ids.
  - apply handlePage_ids.
  - apply handleRuntime_ids.
  - apply handleDOM_ids.
  - apply handleInput_ids.
  - apply handleNetwork_ids.
  - apply handleEmulation_ids.
  - apply handleFetch_ids.
  - obeys_auto.
Qed.

Lemma onMessage_ids JSON_parse data :
  obeys ids_grow any_effect (onMessage JSON_parse data).
Proof.
  unfold onMessage, sendResponse, sendError.
  obeys_with ltac:(apply handleCDPMethod_ids).
Qed.

Lemma matches_some_pattern_ids url patterns otherwise :
  obeys ids_grow any_effect (matches_some_pattern url patterns otherwise).
Proof.
  induction patterns as [|pattern rest IH]; simpl.
  - obeys_auto.
  - obeys_with ltac:(apply IH).
Qed.

Lemma onRequest_ids patterns request :
  obeys ids_grow any_effect (onRequest patterns request).
Proof.
  unfold onRequest.
  obeys_with ltac:(first [ids_step | apply matches_some_pattern_ids]).
Qed.

Lemma step_ids JSON_parse w i c : ids_grow (session c) (session (step JSON_parse w i c).1).
Proof.
  destruct i as [data|k request]; simpl.
  - apply (onMessage_ids JSON_parse data w (session c)).
  - destruct (listeners c !! k) as [[p patterns]|]; simpl.
    + apply (onRequest_ids patterns request w (session c)).
    + reflexivity.
Qed.

Lemma run_ids JSON_parse inputs : ∀ c, ids_grow (session c) (session (run JSON_parse c inputs).1).
Proof.
  induction inputs as [|[w i] rest IH]; intros c.
  - reflexivity.
  - rewrite run_cons. simpl. etrans; [apply step_ids | apply IH].
Qed.

(** Every connection a client can face has its ids in use at 1 or above and
    below the counters. *)
Lemma reachable_ids JSON_parse c :
  reachable JSON_parse c → nodes_above 1 (session c) ∧ objects_above 1 (session c).
Proof.
  intros (w0 & c0 & inputs & Hc & <-).
  assert (nodes_above 1 (session c0) ∧ objects_above 1 (session c0)) as [Hn Ho].
  { unfold connect, initCDPSession in Hc.
    destruct (launch w0); [|discriminate]. destruct (newPage w0); [|discriminate].
    simpl in Hc. injection Hc as <-. unfold nodes_above, objects_above. simpl.
    split; (split; [lia|]); intros k v Hk; by rewrite lookup_empty in Hk. }
  destruct (run_ids JSON_parse inputs c0) as (_ & _ & H1 & H2). auto.
Qed.

(** ** Running the listener and the dispatcher *)

Lemma onMessage_run JSON_parse data request w s :
  JSON_parse data = Some request → nullish request = false →
  let r := handleCDPMethod (prop request "method") (js_or (prop request "params") empty_object) w s in
  st (onMessage JSON_parse data w s) = st r ∧
  fx (onMessage JSON_parse data w s) = fx r ++ [Send (reply request (out r))].
Proof.
  intros Hp Hn. unfold onMessage, member. rewrite Hp, Hn. simpl.
  unfold mbind, M_bind, bind, try_catch, ret, sendResponse, sendError, emit. simpl.
  destruct (out (handleCDPMethod _ _ w s)); simpl; rewrite ?app_nil_r; auto.
Qed.

(** ** Running a computation step by step *)

Lemma run_bind_ret {A B} (a : A) (k : A → M B) w s : (ret a ≫= k) w s = k a w s.
Proof. reflexivity. Qed.

Lemma run_bind_gets {A B} (f : CDPSession → A) (k : A → M B) w s : (gets f ≫= k) w s = k (f s) w s.
Proof. reflexivity. Qed.

Lemma run_bind_modify {B} f (k : unit → M B) w s : (modify f ≫= k) w s = k tt w (f s).
Proof. reflexivity. Qed.

Lemma run_bind_uuid {B} (k : string → M B) w s : (crypto_randomUUID ≫= k) w s = k (randomUUID w) w s.
Proof. reflexivity. Qed.

Lemma run_bind_throw {A B} e (k : A → M B) w s : (throw e ≫= k) w s = mkRes (Rejects e) s [].
Proof. reflexivity. Qed.

Lemma run_bind_emit {B} e (k : unit → M B) w s : (emit e ≫= k) w s = after [e] (k tt w s).
Proof. reflexivity. Qed.

Lemma run_bind_call {B} name args (k : JSValue → M B) w s :
  (call name args ≫= k) w s =
  match backend w name args with
  | Returns v => after [Call name args] (k v w s)
  | Rejects e => mkRes (Rejects e) s [Call name args]
  end.
Proof. unfold mbind, M_bind, bind, call. simpl. by destruct (backend w name args). Qed.

Lemma run_bind_assoc {A B C} (m : M A) (f : A → M B) (g : B → M C) w s :
  ((m ≫= f) ≫= g) w s = (m ≫= λ x, f x ≫= g) w s.
Proof.
  unfold mbind, M_bind, bind. simpl.
  destruct (out (m w s)) as [a|e]; simpl; [|reflexivity].
  destruct (out (f a w (st (m w s)))) as [b|e]; simpl; [|reflexivity].
  by rewrite app_assoc.
Qed.

Lemma handleCDPMethod_Page m params w s p :
  domain_of m = "Page" → addressed_page s params = Some p →
  handleCDPMethod (JStr m) params w s = handlePage p (command_of m) params w s.
Proof.
  unfold handleCDPMethod, addressed_page. intros -> Hp.
  rewrite run_bind_gets. unfold id. rewrite Hp. reflexivity.
Qed.

Lemma handleCDPMethod_Runtime m params w s p :
  domain_of m = "Runtime" → addressed_page s params = Some p →
  handleCDPMethod (JStr m) params w s = handleRuntime p (command_of m) params w s.
Proof.
  unfold handleCDPMethod, addressed_page. intros -> Hp.
  rewrite run_bind_gets. unfold id. rewrite Hp. reflexivity.
Qed.

Lemma handleCDPMethod_DOM m params w s p :
  domain_of m = "DOM" → addressed_page s params = Some p →
  handleCDPMethod (JStr m) params w s = handleDOM p (command_of m) params w s.
Proof.
  unfold handleCDPMethod, addressed_page. intros -> Hp.
  rewrite run_bind_gets. unfold id. rewrite Hp. reflexivity.
Qed.

Lemma handleCDPMethod_Fetch m params w s p :
  domain_of m = "Fetch" → addressed_page s params = Some p →
  handleCDPMethod (JStr m) params w s = handleFetch p (command_of m) params w s.
Proof.
  unfold handleCDPMethod, addressed_page. intros -> Hp.
  rewrite run_bind_gets. unfold id. rewrite Hp. reflexivity.
Qed.

Lemma require_target_run {B} page targetId (k : Page → M B) w s :
  (require_target page targetId ≫= k) w s =
  match page with
  | Some p => k p w s
  | None =>
      mkRes (Rejects (ErrorObj (match js_String targetId with
                                | Some t => "Target not found: " +:+ t
                                | None => "Cannot convert object to primitive value"
                                end))) s []
  end.
Proof.
  destruct page as [p|]; [reflexivity|].
  unfold require_target, template. by destruct (js_String targetId).
Qed.

(** The domains whose commands need a page. *)
Lemma handleCDPMethod_without_target m params w s domain :
  lookup_command domains (Some (domain_of m)) = Some domain →
  domain ≠ DBrowser → domain ≠ DTarget → domain ≠ DNetwork →
  addressed_page s params = None →
  ∃ message, handleCDPMethod (JStr m) params w s = mkRes (Rejects (ErrorObj message)) s [].
Proof.
  unfold handleCDPMethod, addressed_page. intros Hdom H1 H2 H3 Hp.
  rewrite run_bind_gets, Hdom. unfold id.
  destruct domain; try congruence; rewrite require_target_run, Hp; eauto.
Qed.

(** One step of a computation whose head is a primitive; the outcome of a
    call to the world is split in its two cases. *)
Ltac exec_step :=
  first
    [ rewrite run_bind_assoc
    | rewrite run_bind_ret
    | rewrite run_bind_gets
    | rewrite run_bind_modify
    | rewrite run_bind_uuid
    | rewrite run_bind_throw
    | rewrite run_bind_emit
    | rewrite run_bind_call
    | match goal with
      | |- context [match backend ?w ?n ?a with _ => _ end] =>
          let E := fresh "Hcall" in destruct (backend w n a) eqn:E
      | |- context [mbind _ (if ?b then _ else _)] =>
          let E := fresh "Hif" in destruct b eqn:E
      end ].

Ltac exec := repeat exec_step.

(** Select the case of a [switch] for a given label. *)
Ltac pick_command :=
  match goal with
  | |- context [lookup_command ?t (Some ?c)] =>
      let v := eval vm_compute in (lookup_command t (Some c)) in
      change (lookup_command t (Some c)) with v; cbv beta iota zeta
  end.

Lemma frames_app e1 e2 : frames (e1 ++ e2) = frames e1 ++ frames e2.
Proof. unfold frames. by rewrite omap_app. Qed.

Lemma frames_handler_events effects f :
  Forall handler_effect effects → In f (frames effects) → ∃ method ps, f = Event method ps.
Proof.
  induction 1 as [|e effects He _ IH]; simpl; [contradiction|].
  destruct e as [[]| | | |]; simpl in *; try contradiction; auto.
  intros [<-|H]; eauto.
Qed.

(** The frames of a message: the events of the handler, then the reply. *)
Lemma onMessage_frames JSON_parse data request w s :
  JSON_parse data = Some request → nullish request = false →
  let r := handleCDPMethod (prop request "method") (js_or (prop request "params") empty_object) w s in
  frames (fx (onMessage JSON_parse data w s)) = frames (fx r) ++ [reply request (out r)].
Proof.
  intros Hp Hn. destruct (onMessage_run JSON_parse data request w s Hp Hn) as [_ ->].
  by rewrite frames_app.
Qed.

Lemma method_not_nullish request m : prop request "method" = JStr m → nullish request = false.
Proof. by destruct request. Qed.

(** Take apart a membership in an explicit list of effects or frames. *)
Ltac in_cases :=
  repeat match goal with
         | H : _ ∨ _ |- _ => destruct H as [H|H]
         | H : False |- _ => destruct H
         | H : In _ _ |- _ => progress simpl in H
         | H : @eq Effect _ _ |- _ => first [discriminate H | inversion H; clear H; subst]
         | H : @eq Frame _ _ |- _ => first [discriminate H | inversion H; clear H; subst]
         | H : Returns _ = Returns _ |- _ => inversion H; clear H; subst
         | H : Rejects _ = Rejects _ |- _ => inversion H; clear H; subst
         | H : Returns _ = Rejects _ |- _ => discriminate H
         | H : Rejects _ = Returns _ |- _ => discriminate H
         end.

(** ** Page.navigate and the frame id (C10) *)

Lemma handlePage_navigate p command params w s :
  command = Some "navigate" →
  let r := handlePage p command params w s in
  st r = s ∧
  (∀ result, out r = Returns result → prop result "frameId" = JStr (defaultTargetId s)) ∧
  (∀ ps, In (Send (Event "Page.frameNavigated" ps)) (fx r) →
     prop (prop ps "frame") "id" = JStr (defaultTargetId s)) ∧
  (∀ args, In (Call "page.goto" args) (fx r) → nth 0 args JUndefined = page_ref p).
Proof.
  intros ->. unfold handlePage. pick_command.
  destruct (negb (truthy (prop params "url"))).
  { simpl. repeat split; intros; try discriminate; contradiction. }
  unfold sendEvent. exec; simpl; repeat split; intros; in_cases; reflexivity.
Qed.

Lemma In_frames f effects : In f (frames effects) ↔ In (Send f) effects.
Proof.
  induction effects as [|e effects IH]; simpl; [tauto|].
  destruct e; simpl; rewrite IH; split; intros H; in_cases; auto.
Qed.

Lemma reply_response request o id result :
  reply request o = Response id result → id = prop request "id" ∧ o = Returns result.
Proof. destruct o; simpl; intros H; inversion H; auto. Qed.

Lemma reply_not_event request o method ps : reply request o ≠ Event method ps.
Proof. by destruct o. Qed.

(** C10. [Page.navigate] reports the default target id as the frame id, in
    its response and in the [Page.frameNavigated] event, whichever page the
    request addressed. When the backend answers, the shim navigates the
    addressed page, asks it for its url, writes [Page.frameNavigated] and
    [Page.loadEventFired] and then the response, in this order, and the
    frame id in the event and in the response is the default target id.
    Whatever the backend does, no response and no [Page.frameNavigated]
    event of the command carries another frame id, [page.goto] is only ever
    called on the addressed page, and when that page is a target other than
    the default one the frame id returned is not its id. *)
Theorem navigate_reports_default_target JSON_parse data request m w s :
  JSON_parse data = Some request →
  prop request "method" = JStr m → domain_of m = "Page" → command_of m = Some "navigate" →
  let params := js_or (prop request "params") empty_object in
  let r := onMessage JSON_parse data w s in
  (∀ p response u origin now ok,
     addressed_page s params = Some p →
     truthy (prop params "url") = true →
     backend w "page.goto" [page_ref p; prop params "url"; JObj [("waitUntil", JStr "load")]]
       = Returns response →
     backend w "page.url" [page_ref p] = Returns u →
     backend w "URL.origin" [u] = Returns origin →
     backend w "Date.now() / 1000" [] = Returns now →
     (nullish response = false → backend w "response.ok" [response] = Returns ok) →
     fx r =
       [Call "page.goto" [page_ref p; prop params "url"; JObj [("waitUntil", JStr "load")]];
        Call "page.url" [page_ref p];
        Call "page.url" [page_ref p];
        Call "URL.origin" [u];
        Send (Event "Page.frameNavigated"
                (JObj [("frame", JObj [("id", JStr (defaultTargetId s)); ("url", u);
                                       ("securityOrigin", origin);
                                       ("mimeType", JStr "text/html")])]));
        Call "Date.now() / 1000" [];
        Send (Event "Page.loadEventFired" (JObj [("timestamp", now)]))] ++
       (if nullish response then [] else [Call "response.ok" [response]]) ++
       [Send (Response (prop request "id")
                (JObj [("frameId", JStr (defaultTargetId s));
                       ("loaderId", JStr (randomUUID w));
                       ("errorText",
                        if nullish response || negb (truthy ok)
                        then JStr "Navigation failed" else JUndefined)]))]) ∧
  (∀ id result, In (Response id result) (frames (fx r)) →
     prop result "frameId" = JStr (defaultTargetId s)) ∧
  (∀ ps, In (Event "Page.frameNavigated" ps) (frames (fx r)) →
     prop (prop ps "frame") "id" = JStr (defaultTargetId s)) ∧
  (∀ args, In (Call "page.goto" args) (fx r) →
     ∃ p, addressed_page s params = Some p ∧ nth 0 args JUndefined = page_ref p) ∧
  (∀ t id result,
     prop params "targetId" = JStr t → t ≠ defaultTargetId s →
     In (Response id result) (frames (fx r)) → prop result "frameId" ≠ JStr t).
Proof.
  intros Hparse Hm Hd Hc params r.
  pose proof (method_not_nullish _ _ Hm) as Hn.
  destruct (onMessage_run JSON_parse data request w s Hparse Hn) as [_ Hfx].
  pose proof (onMessage_frames JSON_parse data request w s Hparse Hn) as Hfr.
  rewrite Hm in Hfx, Hfr. fold params in Hfx, Hfr.
  split.
  { intros p response u origin now ok Hp Hurl Hgoto Hu Horigin Hnow Hok.
    subst r. rewrite Hfx. clear Hfx Hfr.
    rewrite (handleCDPMethod_Page _ _ _ _ p Hd Hp), Hc.
    unfold handlePage. pick_command. rewrite Hurl. change (negb true) with false. cbv iota.
    unfold sendEvent, frame_of. rewrite run_bind_call, Hgoto. cbv beta iota.
    rewrite run_bind_call, Hu. cbv beta iota.
    rewrite run_bind_call, Hu. cbv beta iota.
    rewrite run_bind_call, Horigin. cbv beta iota.
    rewrite run_bind_gets, run_bind_emit, run_bind_call, Hnow. cbv beta iota.
    rewrite run_bind_emit, run_bind_uuid.
    destruct (nullish response) eqn:Hnull.
    - rewrite run_bind_ret. by simpl.
    - rewrite run_bind_call, (Hok eq_refl). simpl. by destruct (truthy ok). }
  destruct (addressed_page s params) as [p|] eqn:Hp.
  - rewrite (handleCDPMethod_Page _ _ _ _ p Hd Hp) in Hfx, Hfr.
    destruct (handlePage_navigate p _ params w s Hc) as (_ & Hout & Hev & Hgoto).
    destruct (handlePage_targets p (command_of m) params w s) as [_ Heff].
    assert (Hresp : ∀ id result, In (Response id result) (frames (fx r)) →
                                  prop result "frameId" = JStr (defaultTargetId s)).
    { intros id result Hin. subst r. rewrite Hfr in Hin. apply in_app_or in Hin as [Hin|Hin].
      - destruct (frames_handler_events _ _ Heff Hin) as (? & ? & ?). discriminate.
      - simpl in Hin. destruct Hin as [Hin|[]]. apply reply_response in Hin as [_ Hin]. auto. }
    split; [exact Hresp|]. split; [|split].
    + intros ps Hin. subst r. rewrite Hfr in Hin. apply in_app_or in Hin as [Hin|Hin].
      * apply Hev. by apply In_frames.
      * simpl in Hin. destruct Hin as [Hin|[]]. by apply reply_not_event in Hin.
    + intros args Hin. subst r. rewrite Hfx in Hin. apply in_app_or in Hin as [Hin|Hin].
      * exists p. auto.
      * simpl in Hin. destruct Hin as [Hin|[]]. discriminate.
    + intros t id result _ Hne Hin. rewrite (Hresp id result Hin). congruence.
  - destruct (handleCDPMethod_without_target m params w s DPage) as [message Hrun];
      try discriminate; auto; [by rewrite Hd|].
    rewrite Hrun in Hfx. simpl in Hfx. subst r. rewrite Hfx. simpl.
    repeat split; intros; in_cases.
Qed.

Lemma navigate_reports_default_target_witness :
  let navigate := request 16 "Page.navigate"
                    [("url", JStr "https://example.com"); ("targetId", JStr "T2")] in
  let r := onMessage sample_parse (to_json navigate) browsing_world two_targets in
  defaultTargetId two_targets = "T1" ∧
  JsMap.get "T2" (pages two_targets) = Some 2%N ∧
  fx r =
    [Call "page.goto" [page_ref 2%N; JStr "https://example.com"; JObj [("waitUntil", JStr "load")]];
     Call "page.url" [page_ref 2%N];
     Call "page.url" [page_ref 2%N];
     Call "URL.origin" [JStr "https://example.com/"];
     Send (Event "Page.frameNavigated"
             (JObj [("frame", JObj [("id", JStr "T1"); ("url", JStr "https://example.com/");
                                    ("securityOrigin", JStr "https://example.com");
                                    ("mimeType", JStr "text/html")])]));
     Call "Date.now() / 1000" [];
     Send (Event "Page.loadEventFired" (JObj [("timestamp", JNum 1700000000)]));
     Call "response.ok" [JObj [("status", JNum 200)]];
     Send (Response (JNum 16)
             (JObj [("frameId", JStr "T1"); ("loaderId", JStr "L1");
                    ("errorText", JUndefined)]))].
Proof.
  intros navigate r. split; [reflexivity|]. split; [reflexivity|].
  exact (proj1 (navigate_reports_default_target sample_parse (to_json navigate) navigate
                  "Page.navigate" browsing_world two_targets eq_refl eq_refl eq_refl eq_refl)
           2%N (JObj [("status", JNum 200)]) (JStr "https://example.com/")
           (JStr "https://example.com") (JNum 1700000000) (JBool true)
           eq_refl eq_refl eq_refl eq_refl eq_refl eq_refl (fun _ => eq_refl)).
Defined.

(** The frames of that exchange: the page of [T2] is navigated, the frame id
    everywhere is [T1]. *)
Example navigate_other_target_frames :
  frames (fx (onMessage sample_parse
                (to_json (request 16 "Page.navigate"
                            [("url", JStr "https://example.com"); ("targetId", JStr "T2")]))
                browsing_world two_targets)) =
  [ Event "Page.frameNavigated"
      (JObj [("frame", JObj [("id", JStr "T1"); ("url", JStr "https://example.com/");
                             ("securityOrigin", JStr "https://example.com");
                             ("mimeType", JStr "text/html")])]);
    Event "Page.loadEventFired" (JObj [("timestamp", JNum 1700000000)]);
    Response (JNum 16)
      (JObj [("frameId", JStr "T1"); ("loaderId", JStr "L1"); ("errorText", JUndefined)]) ].
Proof. vm_compute. reflexivity. Qed.

(** ** Unknown methods and unparseable input (C8) *)

Lemma not_known {C} (table : list (string * C)) command :
  bool_decide (is_Some (lookup_command table command)) = false →
  lookup_command table command = None.
Proof.
  intros H. apply bool_decide_eq_false in H.
  destruct (lookup_command table command); [|reflexivity]. destruct H. eauto.
Qed.

Lemma handleCDPMethod_unknown m params w s :
  known_method m = false →
  ∃ message,
    handleCDPMethod (JStr m) params w s = mkRes (Rejects (ErrorObj message)) s [] ∧
    (lookup_command domains (Some (domain_of m)) = None →
     message = "Unknown domain: " +:+ domain_of m).
Proof.
  unfold known_method, handleCDPMethod. intros Hk. rewrite run_bind_gets.
  destruct (lookup_command domains (Some (domain_of m))) as [[]|];
    try apply not_known in Hk; try discriminate;
    rewrite ?require_target_run;
    try destruct (pages_get _ _);
    unfold handleBrowser, handleTarget, handlePage, handleRuntime, handleDOM, handleInput,
      handleNetwork, handleEmulation, handleFetch;
    rewrite ?Hk; eexists; (split; [reflexivity | intros; first [discriminate | reflexivity]]).
Qed.

(** C8. A parseable frame whose method names an unknown domain, or an unknown
    command of a known domain, is answered by exactly one frame, an error
    frame with code -32000 carrying the id of the request; a text that does
    not parse is answered by nothing; either way the session is left as it
    was and the socket stays open. *)
Theorem unknown_method_or_malformed_text JSON_parse data w s :
  match JSON_parse data with
  | None =>
      fx (onMessage JSON_parse data w s) = [] ∧ st (onMessage JSON_parse data w s) = s
  | Some request =>
      ∀ m, prop request "method" = JStr m → known_method m = false →
        ∃ message,
          frames (fx (onMessage JSON_parse data w s)) =
            [ErrorFrame (prop request "id") (-32000) message] ∧
          (lookup_command domains (Some (domain_of m)) = None →
           message = "Unknown domain: " +:+ domain_of m) ∧
          closes (fx (onMessage JSON_parse data w s)) = [] ∧
          st (onMessage JSON_parse data w s) = s
  end.
Proof.
  destruct (JSON_parse data) as [request|] eqn:Hparse.
  - intros m Hm Hk.
    pose proof (method_not_nullish _ _ Hm) as Hn.
    destruct (onMessage_run JSON_parse data request w s Hparse Hn) as [Hst Hfx].
    destruct (handleCDPMethod_unknown m (js_or (prop request "params") empty_object) w s Hk)
      as (message & Hrun & Hdom).
    rewrite Hm, Hrun in Hst, Hfx. simpl in Hst, Hfx.
    exists message. rewrite Hfx. auto.
  - unfold onMessage. rewrite Hparse. auto.
Qed.

Lemma unknown_method_or_malformed_text_witness :
  (∃ message,
     frames (fx (onMessage sample_parse (to_json (request 18 "Storage.clear" []))
                   quiet_world (session sample_connection))) =
       [ErrorFrame (JNum 18) (-32000) message] ∧
     (lookup_command domains (Some (domain_of "Storage.clear")) = None →
      message = "Unknown domain: " +:+ domain_of "Storage.clear") ∧
     closes (fx (onMessage sample_parse (to_json (request 18 "Storage.clear" []))
                   quiet_world (session sample_connection))) = [] ∧
     st (onMessage sample_parse (to_json (request 18 "Storage.clear" []))
           quiet_world (session sample_connection)) = session sample_connection) ∧
  (fx (onMessage sample_parse "{not json" quiet_world (session sample_connection)) = [] ∧
   st (onMessage sample_parse "{not json" quiet_world (session sample_connection)) =
     session sample_connection).
Proof.
  split.
  - apply (unknown_method_or_malformed_text sample_parse
             (to_json (request 18 "Storage.clear" [])) quiet_world (session sample_connection)
             "Storage.clear"); reflexivity.
  - exact (unknown_method_or_malformed_text sample_parse "{not json"
             quiet_world (session sample_connection)).
Defined.

Example unknown_domain_frame :
  frames (fx (onMessage sample_parse (to_json (request 18 "Storage.clear" []))
                quiet_world (session sample_connection))) =
  [ErrorFrame (JNum 18) (-32000) "Unknown domain: Storage"].
Proof. vm_compute. reflexivity. Qed.

Example unknown_command_frame :
  frames (fx (onMessage sample_parse (to_json (request 19 "Page.explode" []))
                quiet_world (session sample_connection))) =
  [ErrorFrame (JNum 19) (-32000) "Unknown Page method: explode"].
Proof. vm_compute. reflexivity. Qed.

(** ** Evaluation failures (C6) *)

Lemma run_bind_template {B} v (k : string → M B) w s :
  (template v ≫= k) w s =
  match js_String v with
  | Some t => k t w s
  | None => mkRes (Rejects (ErrorObj "Cannot convert object to primitive value")) s []
  end.
Proof. unfold template. by destruct (js_String v). Qed.

Lemma run_bind_member {B} v name (k : JSValue → M B) w s :
  (member v name ≫= k) w s =
  if nullish v
  then mkRes (Rejects (ErrorObj ("Cannot read properties of " +:+ default "" (js_String v) +:+
                                 " (reading '" +:+ name +:+ "')"))) s []
  else k (prop v name) w s.
Proof. unfold member. by destruct (nullish v). Qed.

Lemma run_bind_quiet {A B} (m : M A) (k : A → M B) w s :
  quiet m →
  (m ≫= k) w s =
  match out (m w s) with
  | Returns a => k a w s
  | Rejects e => mkRes (Rejects e) s []
  end.
Proof.
  intros Hq. destruct (Hq w s) as [Hst Hfx].
  unfold mbind, M_bind, bind. rewrite Hst, Hfx. by destruct (out (m w s)).
Qed.

Lemma quiet_map_M {A B} (f : A → M B) l : (∀ x, quiet (f x)) → quiet (map_M f l).
Proof.
  intros Hf. induction l as [|x l IH]; intros w s; simpl; [auto|].
  rewrite (run_bind_quiet _ _ _ _ (Hf x)). destruct (out (f x w s)); [|auto].
  rewrite (run_bind_quiet _ _ _ _ IH). destruct (out (map_M f l w s)); auto.
Qed.

Lemma quiet_resolve_argument a :
  quiet (objectId ← member a "objectId";
         if truthy objectId
         then om ← gets objectMap; ret (default JUndefined (smap_get om objectId))
         else ret (prop a "value")).
Proof.
  intros w s. rewrite run_bind_member. destruct (nullish a); [auto|].
  destruct (truthy (prop a "objectId")); auto.
Qed.

Ltac exec_more :=
  first
    [ exec_step
    | rewrite run_bind_template
    | rewrite run_bind_member
    | match goal with
      | |- context [match js_String ?v with _ => _ end] =>
          let E := fresh "Hstr" in destruct (js_String v) eqn:E
      | |- context [if nullish ?v then _ else _] =>
          let E := fresh "Hnull" in destruct (nullish v) eqn:E
      end ].

Lemma call_only_frames effects : Forall call_only effects → frames effects = [].
Proof.
  induction 1 as [|e effects He _ IH]; [reflexivity|].
  destruct e; simpl in *; auto; contradiction.
Qed.

Lemma handleRuntime_calls page command params w s :
  Forall call_only (fx (handleRuntime page command params w s)).
Proof.
  assert (obeys (fun _ _ => True) call_only (handleRuntime page command params)) as H.
  { unfold handleRuntime, store_object. obeys_auto. }
  apply H.
Qed.

(** No message makes the listener close the socket. *)
Lemma onMessage_closes JSON_parse data w s : closes (fx (onMessage JSON_parse data w s)) = [].
Proof.
  apply listener_effect_closes.
  assert (obeys (fun _ _ => True) listener_effect (onMessage JSON_parse data)) as H; [|apply H].
  unfold onMessage, sendResponse, sendError.
  obeys_with ltac:(first [ exact I
                         | eapply obeys_weaken;
                           [ | apply handler_effect_listener | apply handleCDPMethod_effects ];
                           auto ]).
Qed.

Lemma try_catch_returns {A} (m : M A) (h : Thrown → A) w s :
  ∃ a, out (try_catch m (fun err => ret (h err)) w s) = Returns a.
Proof.
  unfold try_catch. destruct (out (m w s)) as [a|e] eqn:E; simpl; eauto.
Qed.

(** Inside the [try] of the two commands nothing escapes. *)
Lemma handleRuntime_catches p command params w s :
  command = Some "callFunctionOn" ∨
  (command = Some "evaluate" ∧ truthy (prop params "expression") = true) →
  ∃ result, out (handleRuntime p command params w s) = Returns result.
Proof.
  intros [->|[-> Hexpr]]; unfold handleRuntime; pick_command.
  - apply try_catch_returns.
  - rewrite Hexpr. change (negb true) with false. cbv iota. apply try_catch_returns.
Qed.

Lemma resolved_arguments items w s :
  Forall (fun a => nullish a = false) items →
  out (map_M (fun a =>
                objectId ← member a "objectId";
                if truthy objectId
                then om ← gets objectMap; ret (default JUndefined (smap_get om objectId))
                else ret (prop a "value")) items w s)
  = Returns (map (argument_value s) items).
Proof.
  induction 1 as [|a items Ha _ IH]; [reflexivity|].
  cbn [map_M map].
  rewrite (run_bind_quiet _ _ w s (quiet_resolve_argument a)).
  rewrite run_bind_member, Ha. unfold argument_value at 1.
  destruct (truthy (prop a "objectId")); rewrite ?run_bind_gets; cbn [out ret];
    rewrite (run_bind_quiet _ _ w s (quiet_map_M _ _ quiet_resolve_argument)), IH;
    reflexivity.
Qed.

(** C6. A [Runtime.evaluate] with an expression, or a
    [Runtime.callFunctionOn], addressed to a live target, is always answered
    by a response frame with the id of the request, whatever the backend
    does: never by an error frame, and the socket is not closed. When the
    execution in the page throws, the shim has asked the page for exactly
    that execution, the result of the response is [exceptionDetails] with
    the message of the thrown error as its text, and the session is
    unchanged. *)
Theorem evaluation_failure_is_a_result JSON_parse data request m w s p :
  JSON_parse data = Some request →
  prop request "method" = JStr m → domain_of m = "Runtime" →
  let params := js_or (prop request "params") empty_object in
  addressed_page s params = Some p →
  let r := onMessage JSON_parse data w s in
  (command_of m = Some "evaluate" → truthy (prop params "expression") = true →
   (∃ result, frames (fx r) = [Response (prop request "id") result]) ∧
   closes (fx r) = [] ∧
   ∀ e err,
     js_String (prop params "expression") = Some e →
     let wrappedExpression :=
       if truthy (js_coalesce (prop params "awaitPromise") (JBool false))
       then JStr ("(async () => { return " +:+ e +:+ "; })()")
       else prop params "expression" in
     backend w "page.evaluate" [page_ref p; wrappedExpression] = Rejects err →
     fx r = [Call "page.evaluate" [page_ref p; wrappedExpression];
             Send (Response (prop request "id") (exceptionDetails err "Evaluation failed"))] ∧
     st r = s) ∧
  (command_of m = Some "callFunctionOn" →
   (∃ result, frames (fx r) = [Response (prop request "id") result]) ∧
   closes (fx r) = [] ∧
   ∀ items decl fn err,
     js_or (prop params "arguments") (JArr []) = JArr items →
     Forall (fun a => nullish a = false) items →
     js_String (prop params "functionDeclaration") = Some decl →
     let body := JStr ("return (" +:+ decl +:+ ").apply(this, arguments)") in
     backend w "new Function" [body] = Returns fn →
     backend w "page.evaluate" (page_ref p :: fn :: map (argument_value s) items) = Rejects err →
     fx r = [Call "new Function" [body];
             Call "page.evaluate" (page_ref p :: fn :: map (argument_value s) items);
             Send (Response (prop request "id") (exceptionDetails err "Call failed"))] ∧
     st r = s) ∧
  (∀ message fallback,
     prop (prop (exceptionDetails (ErrorObj message) fallback) "exceptionDetails") "text"
     = JStr message).
Proof.
  intros Hparse Hm Hd params Hp r.
  pose proof (method_not_nullish _ _ Hm) as Hn.
  destruct (onMessage_run JSON_parse data request w s Hparse Hn) as [Hst Hfx].
  pose proof (onMessage_frames JSON_parse data request w s Hparse Hn) as Hfr.
  rewrite Hm in Hst, Hfx, Hfr. fold params in Hst, Hfx, Hfr.
  rewrite (handleCDPMethod_Runtime _ _ _ _ p Hd Hp) in Hst, Hfx, Hfr.
  assert (Hnone : frames (fx (handleRuntime p (command_of m) params w s)) = []).
  { apply call_only_frames. apply handleRuntime_calls. }
  assert (Halways : (∃ result, out (handleRuntime p (command_of m) params w s) = Returns result) →
                    ∃ result, frames (fx r) = [Response (prop request "id") result]).
  { intros [result Hout]. exists result. subst r. by rewrite Hfr, Hnone, Hout. }
  split; [|split]; [| |reflexivity].
  - intros Hc Hexpr. split; [|split; [apply onMessage_closes|]].
    { apply Halways. apply handleRuntime_catches. right. auto. }
    intros e err He wrappedExpression Hrej.
    subst r. rewrite Hst, Hfx, Hc. clear Hst Hfx Hfr Hnone Halways.
    unfold handleRuntime. pick_command. rewrite Hexpr. change (negb true) with false. cbv iota.
    unfold try_catch. subst wrappedExpression.
    destruct (truthy (js_coalesce (prop params "awaitPromise") (JBool false))).
    + rewrite run_bind_assoc, run_bind_template, He. cbv beta iota.
      rewrite run_bind_ret, run_bind_call, Hrej. by simpl.
    + rewrite run_bind_ret, run_bind_call, Hrej. by simpl.
  - intros Hc. split; [|split; [apply onMessage_closes|]].
    { apply Halways. apply handleRuntime_catches. left. auto. }
    intros items decl fn err Hitems Hnn Hdecl body Hfn Hrej.
    subst r. rewrite Hst, Hfx, Hc. clear Hst Hfx Hfr Hnone Halways.
    unfold handleRuntime. pick_command. unfold try_catch. rewrite Hitems.
    rewrite (run_bind_quiet (map_M _ items) _ w s (quiet_map_M _ _ quiet_resolve_argument)).
    rewrite (resolved_arguments items w s Hnn).
    rewrite run_bind_template, Hdecl. cbv beta iota.
    fold body. rewrite run_bind_call, Hfn. cbv beta iota.
    rewrite run_bind_call, Hrej. by simpl.
Qed.

Lemma evaluation_failure_is_a_result_witness :
  let evaluate := request 17 "Runtime.evaluate" [("expression", JStr "missing()")] in
  let call := request 23 "Runtime.callFunctionOn"
                [("functionDeclaration", JStr "function(n) { throw new Error('boom') }");
                 ("arguments", JArr [JObj [("value", JNum 7)]])] in
  let w := world_of [("new Function", Returns (JStr "fn"));
                     ("page.evaluate", Rejects (ErrorObj "boom"))] 3%N "L1" in
  let r := onMessage sample_parse (to_json evaluate) throwing_world (session sample_connection) in
  let r' := onMessage (parse_among [call]) (to_json call) w (session sample_connection) in
  (fx r = [Call "page.evaluate" [page_ref 1%N; JStr "missing()"];
           Send (Response (JNum 17)
                   (JObj [("exceptionDetails",
                           JObj [("exceptionId", JNum 1); ("text", JStr "missing is not defined");
                                 ("lineNumber", JNum 0); ("columnNumber", JNum 0)])]))] ∧
   st r = session sample_connection) ∧
  (fx r' = [Call "new Function"
              [JStr "return (function(n) { throw new Error('boom') }).apply(this, arguments)"];
            Call "page.evaluate" [page_ref 1%N; JStr "fn"; JNum 7];
            Send (Response (JNum 23)
                    (JObj [("exceptionDetails",
                            JObj [("exceptionId", JNum 1); ("text", JStr "boom");
                                  ("lineNumber", JNum 0); ("columnNumber", JNum 0)])]))] ∧
   st r' = session sample_connection).
Proof.
  intros evaluate call w r r'. split.
  - exact (proj2 (proj2 (proj1 (evaluation_failure_is_a_result sample_parse (to_json evaluate)
                                  evaluate "Runtime.evaluate" throwing_world
                                  (session sample_connection) 1%N
                                  eq_refl eq_refl eq_refl eq_refl) eq_refl eq_refl))
             "missing()" (ErrorObj "missing is not defined") eq_refl eq_refl).
  - exact (proj2 (proj2 (proj1 (proj2 (evaluation_failure_is_a_result (parse_among [call])
                                         (to_json call) call "Runtime.callFunctionOn" w
                                         (session sample_connection) 1%N
                                         eq_refl eq_refl eq_refl eq_refl)) eq_refl))
             [JObj [("value", JNum 7)]] "function(n) { throw new Error('boom') }"
             (JStr "fn") (ErrorObj "boom")
             eq_refl (@List.Forall_cons _ (fun a => nullish a = false) (JObj [("value", JNum 7)]) [] eq_refl (@List.Forall_nil _ _)) eq_refl eq_refl eq_refl).
Defined.

Example callFunctionOn_failure_frame :
  frames (fx (onMessage sample_parse
                (to_json (request 23 "Runtime.callFunctionOn"
                            [("functionDeclaration", JStr "function() { throw new Error('boom') }")]))
                throwing_world (session sample_connection))) =
  [Response (JNum 23)
     (JObj [("exceptionDetails",
             JObj [("exceptionId", JNum 1); ("text", JStr "missing is not defined");
                   ("lineNumber", JNum 0); ("columnNumber", JNum 0)])])].
Proof. vm_compute. reflexivity. Qed.

(** ** Intercepted requests (C3, C9) *)


Lemma require_pending_run {B} requestId (k : Request → M B) w s :
  (require_pending requestId ≫= k) w s =
  match smap_get (pendingRequests s) requestId with
  | Some pending => k pending w s
  | None =>
      mkRes (Rejects (ErrorObj (match js_String requestId with
                                | Some t => "Request not found: " +:+ t
                                | None => "Cannot convert object to primitive value"
                                end))) s []
  end.
Proof.
  unfold require_pending. rewrite run_bind_assoc, run_bind_gets.
  destruct (smap_get (pendingRequests s) requestId); [reflexivity|].
  rewrite run_bind_assoc, run_bind_template. by destruct (js_String requestId).
Qed.









Lemma abortReason_timeout reason :
  includes (toLowerCase reason) "timeout" = true →
  includes (toLowerCase reason) "access" = false →
  includes (toLowerCase reason) "address" = false →
  includes (toLowerCase reason) "blocked" = false →
  includes (toLowerCase reason) "connection" = false →
  abortReason reason = "timedout".
Proof. unfold abortReason. cbv zeta. by intros -> -> -> -> ->. Qed.

Lemma abortReason_generic reason :
  includes (toLowerCase reason) "access" = false →
  includes (toLowerCase reason) "address" = false →
  includes (toLowerCase reason) "blocked" = false →
  includes (toLowerCase reason) "connection" = false →
  includes (toLowerCase reason) "timeout" = false →
  abortReason reason = "failed".
Proof. unfold abortReason. cbv zeta. by intros -> -> -> -> ->. Qed.

(** C9 (as amended). [Fetch.failRequest] on a parked request, addressed to a
    live target, with a string as [errorReason]: the backend is asked to
    abort the request with the reason the cascade gives, and once it has done
    so the reply is [{}] and the request is out of the pending map. The
    cascade gives [timedout] when the lowercased reason contains [timeout]
    and none of [access], [address], [blocked], [connection], and [failed]
    when it contains none of the five keywords. *)
Theorem failRequest_abort_reason JSON_parse data request m w s p rid pending reason v :
  JSON_parse data = Some request →
  prop request "method" = JStr m → domain_of m = "Fetch" →
  command_of m = Some "failRequest" →
  addressed_page s (js_or (prop request "params") empty_object) = Some p →
  prop (js_or (prop request "params") empty_object) "requestId" = JStr rid →
  pendingRequests s !! rid = Some pending →
  prop (js_or (prop request "params") empty_object) "errorReason" = JStr reason →
  backend w "request.abort" [request_ref pending; JStr (abortReason reason)] = Returns v →
  let r := onMessage JSON_parse data w s in
  fx r = [Call "request.abort" [request_ref pending; JStr (abortReason reason)];
          Send (Response (prop request "id") empty_object)] ∧
  pendingRequests (st r) = delete rid (pendingRequests s) ∧
  (includes (toLowerCase reason) "timeout" = true →
   includes (toLowerCase reason) "access" = false →
   includes (toLowerCase reason) "address" = false →
   includes (toLowerCase reason) "blocked" = false →
   includes (toLowerCase reason) "connection" = false →
   abortReason reason = "timedout") ∧
  (includes (toLowerCase reason) "access" = false →
   includes (toLowerCase reason) "address" = false →
   includes (toLowerCase reason) "blocked" = false →
   includes (toLowerCase reason) "connection" = false →
   includes (toLowerCase reason) "timeout" = false →
   abortReason reason = "failed").
Proof.
  intros Hparse Hm Hd Hc Hp Hrid Hpending Hreason Hret r.
  pose proof (method_not_nullish _ _ Hm) as Hn.
  destruct (onMessage_run JSON_parse data request w s Hparse Hn) as [Hst Hfx].
  rewrite Hm in Hst, Hfx.
  rewrite (handleCDPMethod_Fetch _ _ _ _ p Hd Hp), Hc in Hst, Hfx.
  assert (handleFetch p (Some "failRequest") (js_or (prop request "params") empty_object) w s
          = mkRes (Returns empty_object) (with_pendingRequests (delete rid) s)
              [Call "request.abort" [request_ref pending; JStr (abortReason reason)]]) as Hrun.
  { unfold handleFetch. pick_command. rewrite require_pending_run, Hrid. simpl smap_get.
    rewrite Hpending, Hreason. rewrite run_bind_ret, run_bind_call, Hret.
    repeat exec_step. reflexivity. }
  rewrite Hrun in Hst, Hfx. subst r. rewrite Hst, Hfx. simpl.
  split; [reflexivity|]. split; [reflexivity|].
  split; [apply abortReason_timeout | apply abortReason_generic].
Qed.

Lemma failRequest_abort_reason_witness :
  let data := to_json (request 14 "Fetch.failRequest"
                         [("requestId", JStr "R1"); ("errorReason", JStr "TimeoutError")]) in
  let r := onMessage sample_parse data quiet_world parked_session in
  fx r = [Call "request.abort" [request_ref sample_request; JStr "timedout"];
          Send (Response (JNum 14) empty_object)] ∧
  pendingRequests (st r) = delete "R1" (pendingRequests parked_session) ∧
  abortReason "TimeoutError" = "timedout" ∧
  abortReason "Nope" = "failed".
Proof.
  intros data r.
  destruct (failRequest_abort_reason sample_parse data
              (request 14 "Fetch.failRequest"
                 [("requestId", JStr "R1"); ("errorReason", JStr "TimeoutError")])
              "Fetch.failRequest" quiet_world parked_session 1%N "R1" sample_request
              "TimeoutError" JUndefined
              eq_refl eq_refl eq_refl eq_refl eq_refl eq_refl eq_refl eq_refl eq_refl)
    as (H1 & H2 & H3 & _).
  split; [exact H1|]. split; [exact H2|]. split.
  - exact (H3 eq_refl eq_refl eq_refl eq_refl eq_refl).
  - reflexivity.
Defined.

(** C9, counterexample. A reason whose lowercased form contains [timeout]
    but also [connection]: the request is aborted with [connectionfailed],
    not with [timedout]. *)
Lemma timeout_reason_not_always_timedout :
  let data := to_json (request 15 "Fetch.failRequest"
                         [("requestId", JStr "R1"); ("errorReason", JStr "ConnectionTimeout")]) in
  let r := onMessage sample_parse data quiet_world parked_session in
  pendingRequests parked_session !! "R1" = Some sample_request ∧
  includes (toLowerCase "ConnectionTimeout") "timeout" = true ∧
  fx r = [Call "request.abort" [request_ref sample_request; JStr "connectionfailed"];
          Send (Response (JNum 15) empty_object)].
Proof. vm_compute. repeat split. Qed.

Lemma append_inj_prefix (p x y : string) : p +:+ x = p +:+ y → x = y.
Proof. induction p as [|c p IH]; simpl; [auto|]. intros H. injection H as H. auto. Qed.

Lemma object_id_inj n n' : object_id n = object_id n' → n = n'.
Proof.
  unfold object_id. intros H. apply append_inj_prefix in H.
  by apply (inj (pretty : Z → string)) in H.
Qed.

Lemma handleRuntime_releaseObjectGroup p params w s :
  handleRuntime p (Some "releaseObjectGroup") params w s =
  mkRes (Returns empty_object) (with_objectMap (fun _ => ∅) s) [].
Proof. reflexivity. Qed.

Lemma handleRuntime_getProperties_released p params w s oid :
  prop params "objectId" = JStr oid → objectMap s !! oid = None →
  handleRuntime p (Some "getProperties") params w s =
  mkRes (Returns (JObj [("result", JArr [])])) s [].
Proof.
  intros Hoid Hnone. unfold handleRuntime. pick_command.
  rewrite run_bind_gets, Hoid. cbn [smap_get]. rewrite Hnone. reflexivity.
Qed.

(** C5 (as amended). [Runtime.releaseObjectGroup] addressed to a live target,
    whatever its other parameters, empties the object map and is answered by
    [{}]; from then on, whatever else happens on the connection,
    [Runtime.getProperties] addressed to a live target on any object id that
    was valid before the release is answered by a response with an empty
    property list. *)
Theorem released_objects_stay_released JSON_parse c w data request m p :
  reachable JSON_parse c →
  JSON_parse data = Some request →
  prop request "method" = JStr m → domain_of m = "Runtime" →
  command_of m = Some "releaseObjectGroup" →
  addressed_page (session c) (js_or (prop request "params") empty_object) = Some p →
  let released := step JSON_parse w (Message data) c in
  objectMap (session released.1) = ∅ ∧
  frames released.2 = [Response (prop request "id") empty_object] ∧
  ∀ inputs oid w' data' request' m' p',
    is_Some (objectMap (session c) !! oid) →
    let later := (run JSON_parse released.1 inputs).1 in
    JSON_parse data' = Some request' →
    prop request' "method" = JStr m' → domain_of m' = "Runtime" →
    command_of m' = Some "getProperties" →
    addressed_page (session later) (js_or (prop request' "params") empty_object) = Some p' →
    prop (js_or (prop request' "params") empty_object) "objectId" = JStr oid →
    frames (step JSON_parse w' (Message data') later).2 =
      [Response (prop request' "id") (JObj [("result", JArr [])])].
Proof.
  intros Hreach Hparse Hm Hd Hc Hp released.
  destruct (reachable_ids _ _ Hreach) as [_ [Hlo Hobjs]].
  pose proof (method_not_nullish _ _ Hm) as Hn.
  destruct (onMessage_run JSON_parse data request w (session c) Hparse Hn) as [Hst Hfx].
  rewrite Hm in Hst, Hfx.
  rewrite (handleCDPMethod_Runtime _ _ _ _ p Hd Hp), Hc, handleRuntime_releaseObjectGroup
    in Hst, Hfx.
  simpl in Hst, Hfx.
  assert (Hs1 : session released.1 = with_objectMap (fun _ => ∅) (session c)) by exact Hst.
  split; [by rewrite Hs1|]. split; [subst released; simpl; by rewrite Hfx|].
  intros inputs oid w' data' request' m' p' [v Hvalid] later Hparse' Hm' Hd' Hc' Hp' Hoid.
  assert (Hgone : objectMap (session later) !! oid = None).
  { destruct (Hobjs oid v Hvalid) as (n & -> & Hn1).
    destruct (run_ids JSON_parse inputs released.1) as (_ & _ & _ & Hgrow).
    destruct (Hgrow (objectIdCounter (session c))) as [_ Hlater].
    { rewrite Hs1. split; simpl; [lia|]. intros k v' Hk. by rewrite lookup_empty in Hk. }
    destruct (objectMap (session later) !! object_id n) as [v'|] eqn:Hl; [|reflexivity].
    destruct (Hlater _ _ Hl) as (n' & Heq & Hn2). apply object_id_inj in Heq. lia. }
  pose proof (method_not_nullish _ _ Hm') as Hn'.
  simpl. rewrite (onMessage_frames JSON_parse data' request' w' (session later) Hparse' Hn').
  rewrite Hm', (handleCDPMethod_Runtime _ _ _ _ p' Hd' Hp'), Hc'.
  by rewrite (handleRuntime_getProperties_released p' _ w' _ oid Hoid Hgone).
Qed.

Lemma holding_connection_reachable : reachable sample_parse holding_connection.
Proof.
  exists quiet_world, sample_connection,
    [(object_world,
      Message (to_json (request 7 "Runtime.evaluate"
                          [("expression", JStr "({a: 1})"); ("returnByValue", JBool false)])))].
  split; reflexivity.
Qed.

Lemma released_objects_stay_released_witness :
  let release := to_json (request 8 "Runtime.releaseObjectGroup" [("objectGroup", JStr "console")]) in
  let evaluate := to_json (request 7 "Runtime.evaluate"
                             [("expression", JStr "({a: 1})"); ("returnByValue", JBool false)]) in
  let getProperties := to_json (request 9 "Runtime.getProperties" [("objectId", JStr "obj-1")]) in
  let released := step sample_parse quiet_world (Message release) holding_connection in
  let later := (run sample_parse released.1 [(object_world, Message evaluate)]).1 in
  objectMap (session holding_connection) !! "obj-1" = Some (JObj [("a", JNum 1)]) ∧
  objectMap (session released.1) = ∅ ∧
  frames released.2 = [Response (JNum 8) empty_object] ∧
  frames (step sample_parse quiet_world (Message getProperties) later).2 =
    [Response (JNum 9) (JObj [("result", JArr [])])].
Proof.
  intros release evaluate getProperties released later.
  destruct (released_objects_stay_released sample_parse holding_connection quiet_world release
              (request 8 "Runtime.releaseObjectGroup" [("objectGroup", JStr "console")])
              "Runtime.releaseObjectGroup" 1%N
              holding_connection_reachable eq_refl eq_refl eq_refl eq_refl eq_refl)
    as (H1 & H2 & H3).
  split; [reflexivity|]. split; [exact H1|]. split; [exact H2|].
  refine (H3 [(object_world, Message evaluate)] "obj-1" quiet_world getProperties
            (request 9 "Runtime.getProperties" [("objectId", JStr "obj-1")])
            "Runtime.getProperties" 1%N _ eq_refl eq_refl eq_refl eq_refl eq_refl eq_refl).
  vm_compute. eauto.
Defined.

(** C5, counterexample. [Runtime.releaseObjectGroup] whose parameters name a
    target that is not in the target map is refused by the guard of the
    dispatcher: the object map keeps its objects, and [getProperties] on a
    stored object still lists its properties. *)
Lemma releaseObjectGroup_unknown_target_keeps_objects :
  let release := to_json (request 10 "Runtime.releaseObjectGroup" [("targetId", JStr "no-such-target")]) in
  let getProperties := to_json (request 9 "Runtime.getProperties" [("objectId", JStr "obj-1")]) in
  let r := onMessage sample_parse release quiet_world (session holding_connection) in
  reachable sample_parse holding_connection ∧
  frames (fx r) = [ErrorFrame (JNum 10) (-32000) "Target not found: no-such-target"] ∧
  objectMap (st r) !! "obj-1" = Some (JObj [("a", JNum 1)]) ∧
  frames (fx (onMessage sample_parse getProperties quiet_world (st r))) =
    [Response (JNum 9)
       (JObj [("result",
               JArr [JObj [("name", JStr "a");
                           ("value", JObj [("type", JStr "number"); ("value", JNum 1);
                                           ("description", JStr "1")]);
                           ("writable", JBool true); ("configurable", JBool true);
                           ("enumerable", JBool true); ("isOwn", JBool true)]])])].
Proof. split; [exact holding_connection_reachable|]. vm_compute. repeat split. Qed.

Lemma handleDOM_querySelector_no_match p params w s element :
  truthy (prop params "selector") = true →
  backend w "page.$" [page_ref p; prop params "selector"] = Returns element →
  truthy element = false →
  handleDOM p (Some "querySelector") params w s =
  mkRes (Returns (JObj [("nodeId", JNum 0)])) s [Call "page.$" [page_ref p; prop params "selector"]].
Proof.
  intros Hsel Hcall Hnull. unfold handleDOM. pick_command. rewrite Hsel.
  cbn [negb]. rewrite run_bind_call, Hcall, Hnull. reflexivity.
Qed.

Lemma handleDOM_getOuterHTML_document p params w s html :
  nmap_get (nodeMap s) (prop params "nodeId") = None →
  backend w "page.content" [page_ref p] = Returns html →
  handleDOM p (Some "getOuterHTML") params w s =
  mkRes (Returns (JObj [("outerHTML", html)])) s [Call "page.content" [page_ref p]].
Proof.
  intros Hnone Hcall. unfold handleDOM, node_selector. pick_command.
  rewrite run_bind_assoc, run_bind_gets, run_bind_ret, Hnone.
  cbn [default truthy negb]. rewrite run_bind_call, Hcall. reflexivity.
Qed.

(** C4. On every connection a client can face, node id 0 is not in the node
    map. A [DOM.querySelector] whose selector matches nothing (the backend
    answers [null]) is answered by the response [{nodeId: 0}], without
    allocating anything. A [DOM.getOuterHTML] on node id 0 does not go
    through any selector: it asks the backend for the content of the page and
    answers with it as [outerHTML]. *)
Theorem no_match_is_node_zero JSON_parse c w data request m p :
  reachable JSON_parse c →
  JSON_parse data = Some request →
  prop request "method" = JStr m → domain_of m = "DOM" →
  addressed_page (session c) (js_or (prop request "params") empty_object) = Some p →
  let params := js_or (prop request "params") empty_object in
  let r := onMessage JSON_parse data w (session c) in
  nodeMap (session c) !! 0 = None ∧
  (∀ element,
     command_of m = Some "querySelector" →
     truthy (prop params "selector") = true →
     backend w "page.$" [page_ref p; prop params "selector"] = Returns element →
     truthy element = false →
     frames (fx r) = [Response (prop request "id") (JObj [("nodeId", JNum 0)])] ∧
     st r = session c) ∧
  (∀ html,
     command_of m = Some "getOuterHTML" →
     prop params "nodeId" = JNum 0 →
     backend w "page.content" [page_ref p] = Returns html →
     fx r = [Call "page.content" [page_ref p];
             Send (Response (prop request "id") (JObj [("outerHTML", html)]))] ∧
     st r = session c).
Proof.
  intros Hreach Hparse Hm Hd Hp params r.
  destruct (reachable_ids _ _ Hreach) as [[_ Hnodes] _].
  assert (Hzero : nodeMap (session c) !! 0 = None).
  { destruct (nodeMap (session c) !! 0) as [v|] eqn:H0; [|reflexivity].
    specialize (Hnodes 0 v H0). lia. }
  pose proof (method_not_nullish _ _ Hm) as Hn.
  destruct (onMessage_run JSON_parse data request w (session c) Hparse Hn) as [Hst Hfx].
  pose proof (onMessage_frames JSON_parse data request w (session c) Hparse Hn) as Hfr.
  rewrite Hm in Hst, Hfx, Hfr.
  rewrite (handleCDPMethod_DOM _ _ _ _ p Hd Hp) in Hst, Hfx, Hfr.
  split; [exact Hzero|]. split.
  - intros element Hc Hsel Hcall Hnull. subst r. rewrite Hfr, Hst, Hc.
    by rewrite (handleDOM_querySelector_no_match p _ w _ element Hsel Hcall Hnull).
  - intros html Hc Hid Hcall. subst r. rewrite Hfx, Hst, Hc.
    rewrite (handleDOM_getOuterHTML_document p _ w _ html); auto.
    fold params. by rewrite Hid.
Qed.

Lemma no_match_is_node_zero_witness :
  let query := to_json (request 5 "DOM.querySelector" [("selector", JStr "#missing")]) in
  let outer := to_json (request 6 "DOM.getOuterHTML" [("nodeId", JNum 0)]) in
  let r := onMessage sample_parse query browsing_world (session holding_connection) in
  let r' := onMessage sample_parse outer browsing_world (st r) in
  nodeMap (session holding_connection) !! 0 = None ∧
  (frames (fx r) = [Response (JNum 5) (JObj [("nodeId", JNum 0)])] ∧
   st r = session holding_connection) ∧
  (fx r' = [Call "page.content" [page_ref 1%N];
            Send (Response (JNum 6) (JObj [("outerHTML", JStr "<html><body></body></html>")]))] ∧
   st r' = session holding_connection).
Proof.
  intros query outer r r'.
  destruct (no_match_is_node_zero sample_parse holding_connection browsing_world query
              (request 5 "DOM.querySelector" [("selector", JStr "#missing")])
              "DOM.querySelector" 1%N
              holding_connection_reachable eq_refl eq_refl eq_refl eq_refl)
    as (H1 & H2 & _).
  destruct (no_match_is_node_zero sample_parse holding_connection browsing_world outer
              (request 6 "DOM.getOuterHTML" [("nodeId", JNum 0)])
              "DOM.getOuterHTML" 1%N
              holding_connection_reachable eq_refl eq_refl eq_refl eq_refl)
    as (_ & _ & H3).
  split; [exact H1|]. split.
  - exact (H2 JNull eq_refl eq_refl eq_refl eq_refl).
  - exact (H3 (JStr "<html><body></body></html>") eq_refl eq_refl eq_refl).
Defined.

Lemma increasing_within_nil lo hi : lo ≤ hi → increasing_within lo hi [].
Proof. intros H. split; [auto|]. split; constructor. Qed.

Lemma increasing_within_one lo hi n : lo ≤ n < hi → increasing_within lo hi [n].
Proof. intros H. split; [lia|]. split; repeat constructor; auto; lia. Qed.

Lemma increasing_within_app lo mid hi ids ids' :
  increasing_within lo mid ids → increasing_within mid hi ids' →
  increasing_within lo hi (ids ++ ids').
Proof.
  intros (Hle & Hs & Hb) (Hle' & Hs' & Hb'). split; [lia|]. split.
  - induction Hs as [|x ids Hs IH Hx]; simpl; [auto|].
    inversion Hb as [|? ? Hxb Hb0]; subst.
    constructor; [auto|]. apply Forall_app. split; [auto|].
    eapply Forall_impl; [exact Hb'|]. simpl. lia.
  - apply Forall_app. split.
    + eapply Forall_impl; [exact Hb|]. simpl. lia.
    + eapply Forall_impl; [exact Hb'|]. simpl. lia.
Qed.

Lemma increasing_within_consecutive c n :
  increasing_within c (c + Z.of_nat n) (consecutive c n).
Proof.
  revert c. induction n as [|n IH]; intros c; simpl consecutive.
  - apply increasing_within_nil. lia.
  - change (c :: consecutive (c + 1) n) with ([c] ++ consecutive (c + 1) n).
    apply (increasing_within_app c (c + 1)).
    + apply increasing_within_one. lia.
    + replace (c + Z.of_nat (S n)) with (c + 1 + Z.of_nat n) by lia. apply IH.
Qed.

Lemma numbers_of_JNum ids : numbers_of (map JNum ids) = ids.
Proof. induction ids as [|n ids IH]; simpl; [auto|]. unfold numbers_of in *. simpl. by rewrite IH. Qed.

Lemma bind_returns {A B} (m : M A) (k : A → M B) w s b :
  out ((m ≫= k) w s) = Returns b →
  ∃ a, out (m w s) = Returns a ∧ out (k a w (st (m w s))) = Returns b ∧
       st ((m ≫= k) w s) = st (k a w (st (m w s))).
Proof.
  unfold mbind, M_bind, bind. destruct (out (m w s)) as [a|e]; simpl; [|discriminate].
  intros H. exists a. auto.
Qed.

Lemma allocate_match_returns selector i w s y :
  out (allocate_match selector i w s) = Returns y →
  y = JNum (nodeIdCounter s) ∧
  nodeIdCounter (st (allocate_match selector i w s)) = nodeIdCounter s + 1.
Proof.
  unfold allocate_match, next_nodeId. repeat exec_more; simpl; [|discriminate].
  intros H. injection H as <-. auto.
Qed.

(** The loop of [querySelectorAll]: as many consecutive ids as matches. *)
Lemma querySelectorAll_loop selector (indices : list nat) : ∀ w s nodeIds,
  out (map_M (allocate_match selector) indices w s) = Returns nodeIds →
  nodeIds = map JNum (consecutive (nodeIdCounter s) (length indices)) ∧
  nodeIdCounter (st (map_M (allocate_match selector) indices w s)) =
    nodeIdCounter s + Z.of_nat (length indices).
Proof.
  induction indices as [|i indices IH]; intros w s nodeIds.
  - simpl. intros H. injection H as <-. split; [reflexivity | lia].
  - cbn [map_M length]. intros H.
    apply bind_returns in H as (y & Hy & H & ->).
    apply bind_returns in H as (ys & Hys & H & ->).
    injection H as <-.
    destruct (allocate_match_returns _ _ _ _ _ Hy) as [-> Hc1].
    destruct (IH _ _ _ Hys) as [-> Hc2].
    rewrite Hc1 in *. split; [reflexivity|].
    cbn [st ret]. rewrite Hc2. lia.
Qed.

Lemma handleDOM_node_ids p m params w s result :
  domain_of m = "DOM" →
  out (handleDOM p (command_of m) params w s) = Returns result →
  increasing_within (nodeIdCounter s)
    (nodeIdCounter (st (handleDOM p (command_of m) params w s)))
    (allocated_node_ids m result).
Proof.
  intros Hd. unfold allocated_node_ids. rewrite Hd. cbn [negb String.eqb Ascii.eqb Bool.eqb].
  assert (Hmono : nodeIdCounter s ≤ nodeIdCounter (st (handleDOM p (command_of m) params w s))).
  { destruct (handleDOM_ids p (command_of m) params w s) as [(H & _) _]. exact H. }
  destruct (command_of m) as [c|]; [|intros _; by apply increasing_within_nil].
  destruct (String.eqb_spec c "getDocument") as [->|_].
  { clear Hmono. unfold handleDOM, next_nodeId. pick_command.
    repeat exec_more; simpl; intros H; in_cases.
    apply increasing_within_one. lia. }
  destruct (String.eqb_spec c "querySelector") as [->|_].
  { clear Hmono. unfold handleDOM, next_nodeId. pick_command.
    destruct (negb (truthy (prop params "selector"))); [simpl; discriminate|].
    rewrite run_bind_call.
    destruct (backend w "page.$" _) as [element|e]; [|simpl; discriminate].
    destruct (negb (truthy element)).
    - simpl. intros H. in_cases. simpl. apply increasing_within_nil. lia.
    - repeat exec_more. simpl. intros H. in_cases. unfold numbers_of. simpl.
      rewrite filter_cons. destruct (decide (nodeIdCounter s ≠ 0)).
      + apply increasing_within_one. lia.
      + apply increasing_within_nil. lia. }
  destruct (String.eqb_spec c "querySelectorAll") as [->|_];
    [|intros _; by apply increasing_within_nil].
  clear Hmono. unfold handleDOM. pick_command.
  destruct (negb (truthy (prop params "selector"))); [simpl; discriminate|].
  rewrite run_bind_call.
  destruct (backend w "page.$$" _) as [elements|e]; [|simpl; discriminate].
  destruct elements as [| | | | | |items|]; try (simpl; discriminate).
  intros H. cbn [out after] in H.
  apply bind_returns in H as (nodeIds & Hloop & H & Hst).
  injection H as <-. cbn [st after]. rewrite Hst. cbn [st ret].
  destruct (querySelectorAll_loop _ _ _ _ _ Hloop) as [-> Hc].
  rewrite Hc. simpl. rewrite numbers_of_JNum. apply increasing_within_consecutive.
Qed.

Ltac object_ids_case s :=
  first
    [ exists []; split; [reflexivity | apply increasing_within_nil; simpl; lia]
    | exists [objectIdCounter s]; split;
      [reflexivity | apply increasing_within_one; simpl; lia] ].

Lemma handleRuntime_object_ids p m params w s result :
  domain_of m = "Runtime" →
  out (handleRuntime p (command_of m) params w s) = Returns result →
  ∃ ns, object_ids_of_result m result = map object_id ns ∧
        increasing_within (objectIdCounter s)
          (objectIdCounter (st (handleRuntime p (command_of m) params w s))) ns.
Proof.
  intros Hd. unfold object_ids_of_result. rewrite Hd. cbn [negb String.eqb Ascii.eqb Bool.eqb].
  assert (Hmono : objectIdCounter s ≤
                  objectIdCounter (st (handleRuntime p (command_of m) params w s))).
  { destruct (handleRuntime_ids p (command_of m) params w s) as [(_ & H & _) _]. exact H. }
  destruct (command_of m) as [c|];
    [|intros _; exists []; split; [reflexivity | by apply increasing_within_nil]].
  destruct (String.eqb_spec c "evaluate") as [->|_].
  { clear Hmono. cbn [orb]. unfold handleRuntime. pick_command.
    destruct (negb (truthy (prop params "expression"))); [simpl; discriminate|].
    unfold try_catch, store_object.
    repeat exec_more; simpl; intros H; in_cases; simpl; object_ids_case s. }
  destruct (String.eqb_spec c "callFunctionOn") as [->|_];
    [|intros _; exists []; split; [reflexivity | by apply increasing_within_nil]].
  clear Hmono. cbn [orb]. unfold handleRuntime. pick_command.
  unfold try_catch, store_object.
  destruct (js_or (prop params "arguments") (JArr [])) as [| | | | | |items|];
    try (simpl; intros H; in_cases; simpl; object_ids_case s).
  rewrite (run_bind_quiet (map_M _ items) _ w s (quiet_map_M _ _ quiet_resolve_argument)).
  destruct (out (map_M _ items w s)) as [argValues|e];
    [|simpl; intros H; in_cases; simpl; object_ids_case s].
  repeat exec_more; simpl; intros H; in_cases; simpl; object_ids_case s.
Qed.

Lemma handleCDPMethod_rejects_without_target m params w s domain :
  lookup_command domains (Some (domain_of m)) = Some domain →
  domain ≠ DBrowser → domain ≠ DTarget → domain ≠ DNetwork →
  addressed_page s params = None →
  ∃ e, out (handleCDPMethod (JStr m) params w s) = Rejects e.
Proof.
  intros Hdom H1 H2 H3 Hp.
  destruct (handleCDPMethod_without_target m params w s domain Hdom H1 H2 H3 Hp) as [message ->].
  simpl. eauto.
Qed.

Lemma handleCDPMethod_node_ids m params w s result :
  out (handleCDPMethod (JStr m) params w s) = Returns result →
  increasing_within (nodeIdCounter s)
    (nodeIdCounter (st (handleCDPMethod (JStr m) params w s)))
    (allocated_node_ids m result).
Proof.
  intros Hout. destruct (String.eqb_spec (domain_of m) "DOM") as [Hd|Hd].
  - destruct (addressed_page s params) as [p|] eqn:Hp.
    + rewrite (handleCDPMethod_DOM _ _ _ _ p Hd Hp) in *. by apply handleDOM_node_ids.
    + destruct (handleCDPMethod_rejects_without_target m params w s DDOM) as [e He];
        try discriminate; auto; [by rewrite Hd | congruence].
  - unfold allocated_node_ids. apply String.eqb_neq in Hd. rewrite Hd. simpl.
    apply increasing_within_nil.
    destruct (handleCDPMethod_ids (JStr m) params w s) as [(H & _) _]. exact H.
Qed.

Lemma handleCDPMethod_object_ids m params w s result :
  out (handleCDPMethod (JStr m) params w s) = Returns result →
  ∃ ns, object_ids_of_result m result = map object_id ns ∧
        increasing_within (objectIdCounter s)
          (objectIdCounter (st (handleCDPMethod (JStr m) params w s))) ns.
Proof.
  intros Hout. destruct (String.eqb_spec (domain_of m) "Runtime") as [Hd|Hd].
  - destruct (addressed_page s params) as [p|] eqn:Hp.
    + rewrite (handleCDPMethod_Runtime _ _ _ _ p Hd Hp) in *. by apply handleRuntime_object_ids.
    + destruct (handleCDPMethod_rejects_without_target m params w s DRuntime) as [e He];
        try discriminate; auto; [by rewrite Hd | congruence].
  - unfold object_ids_of_result. apply String.eqb_neq in Hd. rewrite Hd. simpl.
    exists []. split; [reflexivity|]. apply increasing_within_nil.
    destruct (handleCDPMethod_ids (JStr m) params w s) as [(_ & H & _) _]. exact H.
Qed.

(** The responses of a message: the reply of the listener when the handler
    returned, nothing otherwise. *)
Lemma responses_to_message JSON_parse data w s :
  responses_to JSON_parse (Message data, fx (onMessage JSON_parse data w s)) =
  match JSON_parse data with
  | Some request =>
      match prop request "method" with
      | JStr m =>
          match out (handleCDPMethod (JStr m) (js_or (prop request "params") empty_object) w s) with
          | Returns result => [(m, result)]
          | Rejects _ => []
          end
      | _ => []
      end
  | None => []
  end.
Proof.
  unfold responses_to. cbn [fst snd].
  destruct (JSON_parse data) as [request|] eqn:Hparse; [|reflexivity].
  destruct (prop request "method") as [| | | | |m| |] eqn:Hm; try reflexivity.
  pose proof (method_not_nullish _ _ Hm) as Hn.
  rewrite (onMessage_frames JSON_parse data request w s Hparse Hn), Hm.
  rewrite omap_app.
  destruct (handleCDPMethod_effects (JStr m) (js_or (prop request "params") empty_object) w s)
    as [_ Heff].
  assert (omap (fun f => match f with Response _ result => Some (m, result) | _ => None end)
            (frames (fx (handleCDPMethod (JStr m) (js_or (prop request "params") empty_object) w s)))
          = []) as ->.
  { induction Heff as [|e effects He _ IH]; [reflexivity|].
    destruct e as [[]| | | |]; simpl in *; auto; contradiction. }
  by destruct (out _).
Qed.

Lemma step_node_ids JSON_parse w i c :
  increasing_within (nodeIdCounter (session c))
    (nodeIdCounter (session (step JSON_parse w i c).1))
    (flat_map (fun mr : string * JSValue => allocated_node_ids mr.1 mr.2)
       (responses_to JSON_parse (i, (step JSON_parse w i c).2))).
Proof.
  assert (Hmono : nodeIdCounter (session c) ≤ nodeIdCounter (session (step JSON_parse w i c).1)).
  { destruct (step_ids JSON_parse w i c) as (H & _). exact H. }
  destruct i as [data|k request].
  - cbn [step fst snd] in *. rewrite responses_to_message.
    destruct (JSON_parse data) as [request|] eqn:Hparse; [|by apply increasing_within_nil].
    destruct (prop request "method") as [| | | | |m| |] eqn:Hm;
      try by apply increasing_within_nil.
    pose proof (method_not_nullish _ _ Hm) as Hn.
    destruct (onMessage_run JSON_parse data request w (session c) Hparse Hn) as [Hst _].
    rewrite Hst, Hm in *.
    destruct (out (handleCDPMethod _ _ w (session c))) as [result|e] eqn:Hout;
      [|by apply increasing_within_nil].
    simpl. rewrite app_nil_r. by apply handleCDPMethod_node_ids.
  - by apply increasing_within_nil.
Qed.

Lemma step_object_ids JSON_parse w i c :
  ∃ ns,
    flat_map (fun mr : string * JSValue => object_ids_of_result mr.1 mr.2)
      (responses_to JSON_parse (i, (step JSON_parse w i c).2)) = map object_id ns ∧
    increasing_within (objectIdCounter (session c))
      (objectIdCounter (session (step JSON_parse w i c).1)) ns.
Proof.
  assert (Hmono : objectIdCounter (session c) ≤
                  objectIdCounter (session (step JSON_parse w i c).1)).
  { destruct (step_ids JSON_parse w i c) as (_ & H & _). exact H. }
  assert (Hnil : ∃ ns, @nil string = map object_id ns ∧
                       increasing_within (objectIdCounter (session c))
                         (objectIdCounter (session (step JSON_parse w i c).1)) ns).
  { exists []. split; [reflexivity | by apply increasing_within_nil]. }
  destruct i as [data|k request]; [|exact Hnil].
  cbn [step fst snd] in *. rewrite responses_to_message.
  destruct (JSON_parse data) as [request|] eqn:Hparse; [|exact Hnil].
  destruct (prop request "method") as [| | | | |m| |] eqn:Hm; try exact Hnil.
  pose proof (method_not_nullish _ _ Hm) as Hn.
  destruct (onMessage_run JSON_parse data request w (session c) Hparse Hn) as [Hst _].
  rewrite Hst, Hm in *.
  destruct (out (handleCDPMethod _ _ w (session c))) as [result|e] eqn:Hout; [|exact Hnil].
  simpl. rewrite app_nil_r. by apply handleCDPMethod_object_ids.
Qed.

Lemma run_node_ids JSON_parse inputs : ∀ c,
  increasing_within (nodeIdCounter (session c))
    (nodeIdCounter (session (run JSON_parse c inputs).1))
    (allocated_nodes JSON_parse (run JSON_parse c inputs).2).
Proof.
  induction inputs as [|[w i] rest IH]; intros c.
  - simpl. apply increasing_within_nil. lia.
  - rewrite run_cons. cbn [fst snd]. unfold allocated_nodes. cbn [flat_map].
    eapply increasing_within_app; [apply step_node_ids | apply IH].
Qed.

Lemma run_object_ids JSON_parse inputs : ∀ c,
  ∃ ns, handed_out_objects JSON_parse (run JSON_parse c inputs).2 = map object_id ns ∧
        increasing_within (objectIdCounter (session c))
          (objectIdCounter (session (run JSON_parse c inputs).1)) ns.
Proof.
  induction inputs as [|[w i] rest IH]; intros c.
  - simpl. exists []. split; [reflexivity|]. apply increasing_within_nil. lia.
  - rewrite run_cons. cbn [fst snd]. unfold handed_out_objects. cbn [flat_map].
    destruct (step_object_ids JSON_parse w i c) as (ns & -> & H1).
    destruct (IH (step JSON_parse w i c).1) as (ns' & Hns' & H2).
    unfold handed_out_objects in Hns'. rewrite Hns'.
    exists (ns ++ ns'). split; [by rewrite map_app|].
    eapply increasing_within_app; eauto.
Qed.

Lemma StronglySorted_lt_NoDup ids : StronglySorted Z.lt ids → NoDup ids.
Proof.
  induction 1 as [|x ids Hs IH Hx]; constructor; auto.
  intros Hin. rewrite Forall_forall in Hx. specialize (Hx x Hin). lia.
Qed.

(** The ids allocated from the counter are among the ids handed out. *)
Lemma allocated_among_serialized root :
  numbers_of [prop root "nodeId"] `sublist_of` serialized_node_ids root.
Proof.
  destruct root as [| | | | | | |fields]; try apply sublist_nil_l.
  cbn [prop serialized_node_ids].
  induction fields as [|[k v] fields IH]; [apply sublist_nil_l|].
  cbn [assoc]. rewrite (String.eqb_sym "nodeId" k).
  destruct (String.eqb k "nodeId").
  - apply sublist_inserts_r. reflexivity.
  - apply sublist_inserts_l. exact IH.
Qed.

Lemma allocated_among_handed_out m result :
  allocated_node_ids m result `sublist_of` node_ids_of_result m result.
Proof.
  unfold node_ids_of_result, allocated_node_ids.
  destruct (String.eqb (domain_of m) "DOM"); [|reflexivity].
  cbn [negb andb]. destruct (command_of m) as [c|]; [|reflexivity].
  destruct (String.eqb c "getDocument"); [|reflexivity].
  apply allocated_among_serialized.
Qed.

Lemma sublist_flat_map {A B} (f g : A → list B) l :
  (∀ x, f x `sublist_of` g x) → flat_map f l `sublist_of` flat_map g l.
Proof.
  intros H. induction l as [|x l IH]; simpl; [reflexivity|]. by apply sublist_app.
Qed.

(** C2 (as amended). Along any run of a connection, from any state, the node
    ids that the responses hand out from the counter of the session (the root
    of [DOM.getDocument], the match of [DOM.querySelector], the matches of
    [DOM.querySelectorAll]) increase strictly, and so do the numbers of the
    object ids handed out by [Runtime.evaluate] and [Runtime.callFunctionOn];
    in particular none of them is handed out twice, whatever was removed or
    released in between, and each is at or above its counter at the start of
    the run. They are among the node ids handed out; the others, the
    [nodeId] members of the subtree serialized by [DOM.getDocument], are not
    covered. *)
Theorem allocated_ids_increase JSON_parse c inputs :
  let log := (run JSON_parse c inputs).2 in
  StronglySorted Z.lt (allocated_nodes JSON_parse log) ∧
  NoDup (allocated_nodes JSON_parse log) ∧
  Forall (fun n => nodeIdCounter (session c) ≤ n) (allocated_nodes JSON_parse log) ∧
  allocated_nodes JSON_parse log `sublist_of` handed_out_nodes JSON_parse log ∧
  ∃ ns, handed_out_objects JSON_parse log = map object_id ns ∧
        StronglySorted Z.lt ns ∧
        NoDup (handed_out_objects JSON_parse log) ∧
        Forall (fun n => objectIdCounter (session c) ≤ n) ns.
Proof.
  intros log.
  destruct (run_node_ids JSON_parse inputs c) as (_ & Hs & Hb).
  destruct (run_object_ids JSON_parse inputs c) as (ns & Hns & _ & Hs' & Hb').
  split; [exact Hs|]. split; [by apply StronglySorted_lt_NoDup|]. split.
  { eapply Forall_impl; [exact Hb|]. simpl. lia. }
  split.
  { apply sublist_flat_map. intros entry. apply sublist_flat_map. intros mr.
    apply allocated_among_handed_out. }
  exists ns. split; [exact Hns|]. split; [exact Hs'|]. split.
  - subst log. rewrite Hns. apply NoDup_fmap_2; [|by apply StronglySorted_lt_NoDup].
    intros n n'. apply object_id_inj.
  - eapply Forall_impl; [exact Hb'|]. simpl. lia.
Qed.

(** C2, counterexample. A connection is opened and serves a
    [DOM.getDocument], a [DOM.querySelector] and a second [DOM.getDocument].
    The first response hands out the root id 1 and, in the subtree, the ids
    2, 907613 and 2 that the page drew: the id 2 twice in one response, and
    after a larger one. The query then hands out the id 2 from the counter,
    which the client was already given, and the last response hands out the
    subtree ids again. The ids from the counter are 1, 2 and 3. *)
Lemma subtree_node_ids_repeat :
  let r := run sample_parse sample_connection
             [(document_world, Message (to_json (request 22 "DOM.getDocument" [])));
              (document_world, Message (to_json (request 25 "DOM.querySelector" [("selector", JStr "body")])));
              (document_world, Message (to_json (request 22 "DOM.getDocument" [])))] in
  handed_out_nodes sample_parse r.2 = [1; 2; 907613; 2; 2; 3; 2; 907613; 2] ∧
  allocated_nodes sample_parse r.2 = [1; 2; 3] ∧
  (connect quiet_world).1 = Some sample_connection.
Proof. vm_compute. repeat split. Qed.

(** Ids are not reused after [DOM.removeNode] and
    [Runtime.releaseObjectGroup]. *)
Example ids_after_removal :
  let r := run sample_parse sample_connection id_session in
  allocated_nodes sample_parse r.2 = [1; 2; 3; 4; 5] ∧
  handed_out_objects sample_parse r.2 = ["obj-1"; "obj-2"] ∧
  nodeMap (session r.1) !! 1 = None ∧
  objectMap (session r.1) !! "obj-1" = None.
Proof. vm_compute. repeat split. Qed.

(** ** The gatekeeper (C7) *)

Lemma timingSafeEqual_loop_spec a b (indices : list nat) : ∀ acc : Z * nat,
  let r := fold_left (fun acc i => (Z.lor (fst acc) (Z.lxor (charCodeAt a i) (charCodeAt b i)),
                                    S (snd acc))) indices acc in
  (fst r = 0 ↔ fst acc = 0 ∧ Forall (fun i => charCodeAt a i = charCodeAt b i) indices) ∧
  snd r = (snd acc + length indices)%nat.
Proof.
  induction indices as [|i indices IH]; intros acc; simpl.
  - split; [|lia]. split; [intros H; split; [auto | constructor] | tauto].
  - destruct (IH (Z.lor (fst acc) (Z.lxor (charCodeAt a i) (charCodeAt b i)), S (snd acc)))
      as [H1 H2].
    simpl in H1, H2. split; [|lia].
    rewrite H1, Z.lor_eq_0_iff, Z.lxor_eq_0_iff. split.
    + intros [[Ha Hi] Hall]. split; [auto | constructor; auto].
    + intros [Ha Hall]. inversion Hall; subst. auto.
Qed.

Lemma charCodeAt_head c s c' s' :
  charCodeAt (String c s) 0 = charCodeAt (String c' s') 0 → c = c'.
Proof.
  unfold charCodeAt. simpl. intros H. apply N2Z.inj in H.
  rewrite <- (ascii_N_embedding c), <- (ascii_N_embedding c'). by rewrite H.
Qed.

Lemma same_codes_equal : ∀ a b : string,
  String.length a = String.length b →
  Forall (fun i => charCodeAt a i = charCodeAt b i) (seq 0 (String.length a)) →
  a = b.
Proof.
  induction a as [|c a IH]; intros [|c' b] Hlen Hall; simpl in Hlen; try discriminate; auto.
  simpl in Hall. inversion Hall as [|? ? Hhead Htail]; subst.
  apply charCodeAt_head in Hhead as ->. f_equal. apply IH; [lia|].
  rewrite <- seq_shift in Htail. rewrite Forall_map in Htail. exact Htail.
Qed.

Lemma timingSafeEqual_spec a b : timingSafeEqual a b = true ↔ a = b.
Proof.
  unfold timingSafeEqual, timingSafeEqual_loop.
  destruct (Nat.eqb_spec (String.length a) (String.length b)) as [Hlen|Hlen]; simpl.
  - destruct (timingSafeEqual_loop_spec a b (seq 0 (String.length a)) (0, 0%nat)) as [H _].
    simpl in H. rewrite Z.eqb_eq, H. split.
    + intros [_ Hall]. by apply same_codes_equal.
    + intros ->. split; [reflexivity|]. apply Forall_forall. auto.
  - split; [discriminate|]. intros ->. by destruct Hlen.
Qed.

Lemma timingSafeEqual_iterations_spec a b :
  String.length a = String.length b → timingSafeEqual_iterations a b = String.length a.
Proof.
  intros Hlen. unfold timingSafeEqual_iterations, timingSafeEqual_loop.
  rewrite Hlen, Nat.eqb_refl. simpl.
  destruct (timingSafeEqual_loop_spec a b (seq 0 (String.length a)) (0, 0%nat)) as [_ H].
  rewrite <- Hlen. rewrite H. simpl. by rewrite length_seq.
Qed.

(** C7. On a WebSocket upgrade: without a configured secret the answer is
    503; with one, the check passes exactly when the provided secret is the
    same string, and every other provided secret (another length, one
    character changed, or none) is answered 401; the comparison returns true
    exactly on equal strings, and on strings of equal length it goes through
    as many iterations as the strings are long, wherever they differ. *)
Theorem secret_check req env :
  match upgradeHeader req with
  | Some h => String.eqb (toLowerCase h) "websocket" = true
  | None => False
  end →
  (CDP_SECRET env = None ∨ CDP_SECRET env = Some "" →
   cdp_get_root req env = Json 503 "CDP endpoint not configured") ∧
  (∀ expected, CDP_SECRET env = Some expected → expected ≠ "" →
     (providedSecret req = Some expected →
      cdp_get_root req env =
        if BROWSER env then SwitchingProtocols else Json 503 "Browser Rendering not configured") ∧
     (providedSecret req ≠ Some expected → cdp_get_root req env = Json 401 "Unauthorized")) ∧
  (∀ a b, timingSafeEqual a b = true ↔ a = b) ∧
  (∀ a b b', String.length b = String.length a → String.length b' = String.length a →
     timingSafeEqual_iterations a b = String.length a ∧
     timingSafeEqual_iterations a b' = String.length a).
Proof.
  intros Hup. unfold cdp_get_root.
  destruct (upgradeHeader req) as [h|]; [|contradiction]. rewrite Hup. cbn [negb].
  split; [|split; [|split]].
  - intros [-> | ->]; reflexivity.
  - intros expected -> Hne. destruct expected as [|c expected]; [congruence|]. split.
    + intros ->. assert (timingSafeEqual (String c expected) (String c expected) = true) as ->
        by by apply timingSafeEqual_spec.
      cbn [negb]. by destruct (BROWSER env).
    + intros Hp. destruct (providedSecret req) as [[|c' provided]|]; try reflexivity.
      destruct (timingSafeEqual (String c' provided) (String c expected)) eqn:Heq; [|reflexivity].
      apply timingSafeEqual_spec in Heq. congruence.
  - apply timingSafeEqual_spec.
  - intros a b b' Hb Hb'. split; apply timingSafeEqual_iterations_spec; auto.
Qed.

Lemma secret_check_witness :
  cdp_get_root (upgrade_with (Some "s3cret")) unconfigured_env =
    Json 503 "CDP endpoint not configured" ∧
  cdp_get_root (upgrade_with (Some "s3cret")) sample_env = SwitchingProtocols ∧
  cdp_get_root (upgrade_with (Some "s3creT")) sample_env = Json 401 "Unauthorized" ∧
  cdp_get_root (upgrade_with (Some "s3cre")) sample_env = Json 401 "Unauthorized" ∧
  cdp_get_root (upgrade_with None) sample_env = Json 401 "Unauthorized" ∧
  timingSafeEqual_iterations "s3cret" "X3cret" = 6%nat ∧
  timingSafeEqual_iterations "s3cret" "s3creX" = 6%nat.
Proof.
  destruct (secret_check (upgrade_with (Some "s3cret")) unconfigured_env eq_refl)
    as (H1 & _ & _ & H4).
  destruct (secret_check (upgrade_with (Some "s3cret")) sample_env eq_refl) as (_ & H2 & _).
  destruct (secret_check (upgrade_with (Some "s3creT")) sample_env eq_refl) as (_ & H3 & _).
  destruct (secret_check (upgrade_with (Some "s3cre")) sample_env eq_refl) as (_ & H5 & _).
  destruct (secret_check (upgrade_with None) sample_env eq_refl) as (_ & H6 & _).
  split; [apply H1; by left|].
  split; [exact (proj1 (H2 "s3cret" eq_refl ltac:(discriminate)) eq_refl)|].
  split; [exact (proj2 (H3 "s3cret" eq_refl ltac:(discriminate)) ltac:(discriminate))|].
  split; [exact (proj2 (H5 "s3cret" eq_refl ltac:(discriminate)) ltac:(discriminate))|].
  split; [exact (proj2 (H6 "s3cret" eq_refl ltac:(discriminate)) ltac:(discriminate))|].
  exact (H4 "s3cret" "X3cret" "s3creX" eq_refl eq_refl).
Defined.

(** A comparison that stops at the first difference does not have the last
    property. *)
Example early_exit_depends_on_position :
  early_exit_iterations "s3cret" "X3cret" = 1%nat ∧
  early_exit_iterations "s3cret" "s3creX" = 6%nat.
Proof. split; reflexivity. Qed.

(** ** Every message gets one reply *)

Lemma onMessage_handled JSON_parse data request m w s :
  JSON_parse data = Some request → prop request "method" = JStr m →
  let r := handleCDPMethod (JStr m) (js_or (prop request "params") empty_object) w s in
  st (onMessage JSON_parse data w s) = st r ∧
  fx (onMessage JSON_parse data w s) = fx r ++ [Send (reply request (out r))].
Proof.
  intros Hp Hm. pose proof (onMessage_run JSON_parse data request w s Hp (method_not_nullish _ _ Hm)) as H.
  by rewrite Hm in H.
Qed.

Lemma frames_events effects :
  Forall handler_effect effects →
  Forall (fun f => ∃ method ps, f = Event method ps) (frames effects).
Proof.
  intros H. apply Forall_forall. intros f Hin. apply list_elem_of_In in Hin.
  eapply frames_handler_events; eauto.
Qed.

(** X1. Whatever a text frame holds and whatever the backend does, the
    listener answers a request with exactly one frame, written last: a
    response or an error frame with code -32000, carrying the [id] of the
    request; every frame before it is an event. A text that does not parse,
    or that parses to [null], is answered by nothing. *)
Theorem every_request_answered_once JSON_parse data w s :
  let r := onMessage JSON_parse data w s in
  match JSON_parse data with
  | None => fx r = []
  | Some request =>
      if nullish request then fx r = []
      else ∃ events o,
             frames (fx r) = events ++ [reply request o] ∧
             Forall (fun f => ∃ method ps, f = Event method ps) events
  end.
Proof.
  intros r. subst r. destruct (JSON_parse data) as [request|] eqn:Hp.
  - destruct (nullish request) eqn:Hn.
    + unfold onMessage. rewrite Hp, run_bind_member, Hn. reflexivity.
    + pose proof (onMessage_frames JSON_parse data request w s Hp Hn) as Hfr.
      simpl in Hfr. eexists _, _. split; [exact Hfr|].
      apply frames_events. apply handleCDPMethod_effects.
  - unfold onMessage. by rewrite Hp.
Qed.

(** ** The socket stays open *)

Lemma onRequest_closes patterns request w s : closes (fx (onRequest patterns request w s)) = [].
Proof.
  apply listener_effect_closes.
  eapply Forall_impl; [apply onRequest_targets | apply handler_effect_listener].
Qed.

Lemma step_closes JSON_parse w i c : closes (step JSON_parse w i c).2 = [].
Proof.
  destruct i as [data|k request]; simpl.
  - apply onMessage_closes.
  - destruct (listeners c !! k) as [[page patterns]|]; simpl; [apply onRequest_closes | reflexivity].
Qed.

(** X2. The socket is closed by the shim in one case only, when the
    session cannot be constructed: if the browser cannot be launched or its
    first page cannot be opened, no frame is ever written and the socket is
    closed with code 1011 and the reason [Browser launch failed]; otherwise
    construction does not close it, and afterwards nothing a client sends
    and nothing the browser reports does: not [Browser.close], not closing
    the last target, not a failing backend. *)
Theorem socket_closed_only_when_construction_fails JSON_parse :
  (∀ w, (connect w).1 = None ↔ (∃ e, launch w = Rejects e) ∨ (∃ e, newPage w = Rejects e)) ∧
  (∀ w, closes (connect w).2 =
        match (connect w).1 with Some _ => [] | None => [(1011, "Browser launch failed")] end) ∧
  (∀ w, (connect w).1 = None → frames (connect w).2 = []) ∧
  (∀ c inputs,
     Forall (fun entry : Input * list Effect => closes entry.2 = []) (run JSON_parse c inputs).2).
Proof.
  split; [|split; [|split]].
  - intros w. unfold connect, initCDPSession.
    destruct (launch w) as [b|e]; [destruct (newPage w) as [page|e]|]; simpl.
    + split; [discriminate|]. intros [[e He]|[e He]]; discriminate.
    + split; eauto.
    + split; eauto.
  - intros w. unfold connect, initCDPSession.
    destruct (launch w) as [b|e]; [destruct (newPage w) as [page|e]|]; reflexivity.
  - intros w. unfold connect, initCDPSession.
    destruct (launch w) as [b|e]; [destruct (newPage w) as [page|e]|]; simpl;
      [discriminate | reflexivity | reflexivity].
  - intros c inputs. revert c. induction inputs as [|[w i] rest IH]; intros c.
    + constructor.
    + rewrite run_cons. simpl. constructor; [apply step_closes | apply IH].
Qed.

(** ** The guard of the dispatcher *)

Lemma needs_target_domain domain :
  needs_target domain = true →
  ∃ d, lookup_command domains (Some domain) = Some d ∧
       d ≠ DBrowser ∧ d ≠ DTarget ∧ d ≠ DNetwork.
Proof.
  unfold needs_target. intros H. simpl in H.
  repeat match type of H with
         | context [String.eqb ?a ?b] =>
             let E := fresh "E" in
             destruct (String.eqb_spec a b) as [E|E];
             [rewrite E; eexists; split; [reflexivity | repeat split; discriminate] | simpl in H]
         end.
  discriminate.
Qed.

(** X3. A command of the Page, Runtime, DOM, Input, Emulation or Fetch
    domain that addresses a target that is not in the target map (one that
    was closed or never existed; the default target when [params.targetId]
    is absent) is refused before the domain handler runs: the reply is the
    error frame [Target not found: <id>], nothing is asked of the backend and
    the session is left as it was, whatever the command. *)
Theorem missing_target_is_reported JSON_parse data request m w s t :
  JSON_parse data = Some request → prop request "method" = JStr m →
  needs_target (domain_of m) = true →
  let params := js_or (prop request "params") empty_object in
  addressed_page s params = None →
  js_String (js_or (prop params "targetId") (JStr (defaultTargetId s))) = Some t →
  let r := onMessage JSON_parse data w s in
  fx r = [Send (ErrorFrame (prop request "id") (-32000) ("Target not found: " +:+ t))] ∧
  st r = s.
Proof.
  intros Hp Hm Hd params Hpage Ht r.
  destruct (onMessage_handled JSON_parse data request m w s Hp Hm) as [Hst Hfx].
  fold params in Hst, Hfx. subst r. rewrite Hst, Hfx. clear Hst Hfx.
  destruct (needs_target_domain _ Hd) as (d & Hdom & H1 & H2 & H3).
  unfold handleCDPMethod. rewrite run_bind_gets, Hdom. unfold id.
  unfold addressed_page in Hpage.
  destruct d; try congruence; rewrite require_target_run, Hpage, Ht; auto.
Qed.

Lemma missing_target_is_reported_witness :
  let data := to_json (request 22 "DOM.getDocument" [("targetId", JStr "closed")]) in
  let r := onMessage (parse_among [request 22 "DOM.getDocument" [("targetId", JStr "closed")]])
             data quiet_world (session sample_connection) in
  fx r = [Send (ErrorFrame (JNum 22) (-32000) "Target not found: closed")] ∧
  st r = session sample_connection.
Proof.
  intros data r.
  apply (missing_target_is_reported _ data
           (request 22 "DOM.getDocument" [("targetId", JStr "closed")]) "DOM.getDocument");
    reflexivity.
Defined.

(** ** Network commands without a target *)

Lemma handleCDPMethod_Network m params w s :
  domain_of m = "Network" →
  handleCDPMethod (JStr m) params w s =
  handleNetwork (addressed_page s params) (command_of m) params w s.
Proof.
  unfold handleCDPMethod, addressed_page. intros ->. by rewrite run_bind_gets.
Qed.

(** X4. The Network domain is dispatched without the target guard. With no
    live target addressed, [Network.enable], [Network.disable] and
    [Network.setCacheDisabled] still succeed with [{}] and ask nothing of
    the backend, while the cookie commands and [Network.setUserAgentOverride]
    fail with [No page available] (not [Target not found]); the session is
    left as it was in both cases. *)
Theorem network_without_target JSON_parse data request m w s :
  JSON_parse data = Some request → prop request "method" = JStr m →
  domain_of m = "Network" →
  addressed_page s (js_or (prop request "params") empty_object) = None →
  let r := onMessage JSON_parse data w s in
  (In (command_of m) [Some "enable"; Some "disable"; Some "setCacheDisabled"] →
   fx r = [Send (Response (prop request "id") empty_object)] ∧ st r = s) ∧
  (In (command_of m)
      [Some "setCookie"; Some "setCookies"; Some "getCookies"; Some "deleteCookies";
       Some "clearBrowserCookies"; Some "setUserAgentOverride"] →
   fx r = [Send (ErrorFrame (prop request "id") (-32000) "No page available")] ∧ st r = s).
Proof.
  intros Hp Hm Hd Hpage r.
  destruct (onMessage_handled JSON_parse data request m w s Hp Hm) as [Hst Hfx].
  subst r. rewrite Hst, Hfx. clear Hst Hfx.
  rewrite (handleCDPMethod_Network _ _ _ _ Hd), Hpage.
  split; intros Hc; simpl in Hc; in_cases; rewrite <- Hc; auto.
Qed.

Lemma network_without_target_witness :
  let cookie := request 31 "Network.setCookie" [("name", JStr "a"); ("value", JStr "b"); ("targetId", JStr "closed")] in
  let cache := request 32 "Network.setCacheDisabled" [("cacheDisabled", JBool true); ("targetId", JStr "closed")] in
  let on frame := onMessage (parse_among [cookie; cache]) (to_json frame) quiet_world
                    (session sample_connection) in
  fx (on cache) = [Send (Response (JNum 32) empty_object)] ∧
  fx (on cookie) = [Send (ErrorFrame (JNum 31) (-32000) "No page available")].
Proof.
  intros cookie cache on. split.
  - apply (network_without_target _ (to_json cache) cache "Network.setCacheDisabled");
      try reflexivity. simpl. auto.
  - apply (network_without_target _ (to_json cookie) cookie "Network.setCookie");
      try reflexivity. simpl. auto.
Defined.

(** ** The components of a method *)

Lemma split_dot_go_app acc a b :
  split_dot_go acc (a +:+ "." +:+ b) = split_dot_go acc a ++ split_dot b.
Proof.
  revert acc. induction a as [|c a IH]; intros acc; simpl.
  - reflexivity.
  - destruct (Ascii.eqb c "."%char); simpl; by rewrite IH.
Qed.

Lemma split_dot_app a b : split_dot (a +:+ "." +:+ b) = split_dot a ++ split_dot b.
Proof. apply split_dot_go_app. Qed.

Lemma split_dot_go_nonempty acc s : split_dot_go acc s ≠ [].
Proof.
  revert acc. induction s as [|c s IH]; intros acc; simpl; [discriminate|].
  destruct (Ascii.eqb c "."%char); [discriminate | apply IH].
Qed.

(** X5. Only the first two components of [method] are looked at: anything
    after a second dot is dropped by the destructuring of
    [method.split('.')], so [Page.navigate.anything] is served exactly as
    [Page.navigate]. *)
Theorem later_components_are_ignored m extra params w s :
  is_Some (command_of m) →
  handleCDPMethod (JStr (m +:+ "." +:+ extra)) params w s = handleCDPMethod (JStr m) params w s.
Proof.
  intros [c Hc].
  assert (Hd : domain_of (m +:+ "." +:+ extra) = domain_of m).
  { unfold domain_of. rewrite split_dot_app.
    pose proof (split_dot_go_nonempty "" m) as Hne. fold (split_dot m) in Hne.
    destruct (split_dot m); [done | reflexivity]. }
  assert (Hc' : command_of (m +:+ "." +:+ extra) = command_of m).
  { unfold command_of in *. rewrite split_dot_app.
    destruct (split_dot m) as [|x [|y l]]; simpl in *; try discriminate. reflexivity. }
  unfold handleCDPMethod. by rewrite Hd, Hc'.
Qed.

Lemma later_components_are_ignored_witness :
  handleCDPMethod (JStr "Browser.getVersion.now") empty_object quiet_world (session sample_connection) =
  handleCDPMethod (JStr "Browser.getVersion") empty_object quiet_world (session sample_connection).
Proof.
  apply (later_components_are_ignored "Browser.getVersion" "now"). by exists "getVersion".
Defined.

(** ** Targets: creation, listing, closing *)

Lemma handleCDPMethod_Target m params w s :
  domain_of m = "Target" →
  handleCDPMethod (JStr m) params w s = handleTarget (command_of m) params w s.
Proof. unfold handleCDPMethod. intros ->. by rewrite run_bind_gets. Qed.

Lemma run_bind_newPage {B} (k : Page → M B) w s :
  (browser_newPage ≫= k) w s =
  match newPage w with
  | Returns p => after [Call "browser.newPage" []] (k p w s)
  | Rejects e => mkRes (Rejects e) s [Call "browser.newPage" []]
  end.
Proof. unfold mbind, M_bind, bind, browser_newPage. simpl. by destruct (newPage w). Qed.

Lemma JsMap_delete_set_fresh {V} k (v : V) m :
  JsMap.get k m = None → JsMap.delete k (JsMap.set k v m) = m.
Proof.
  induction m as [|[k' v'] m IH]; simpl.
  - by rewrite String.eqb_refl.
  - destruct (String.eqb_spec k k') as [->|Hne]; [discriminate|].
    simpl. destruct (String.eqb_spec k k'); [done|]. intros H. by rewrite IH.
Qed.

(** X6. [Target.createTarget]: once the backend has opened the page (and
    loaded the url, when one other than [about:blank] is given), the page is
    in the target map under a fresh identifier, the default target id is
    unchanged, a [Target.targetCreated] event carrying the identifier, title
    and url of the page is written, and after it the response
    [{targetId}]; the page is navigated exactly when the url is not
    [about:blank]. *)
Theorem createTarget_registers_page JSON_parse data request m w s page loaded title u :
  JSON_parse data = Some request → prop request "method" = JStr m →
  domain_of m = "Target" → command_of m = Some "createTarget" →
  let url := js_or (prop (js_or (prop request "params") empty_object) "url") (JStr "about:blank") in
  newPage w = Returns page →
  (is_string url "about:blank" = false →
   backend w "page.goto" [page_ref page; url] = Returns loaded) →
  backend w "page.title" [page_ref page] = Returns title →
  backend w "page.url" [page_ref page] = Returns u →
  let r := onMessage JSON_parse data w s in
  pages (st r) = JsMap.set (randomUUID w) page (pages s) ∧
  JsMap.get (randomUUID w) (pages (st r)) = Some page ∧
  defaultTargetId (st r) = defaultTargetId s ∧
  frames (fx r) =
    [Event "Target.targetCreated" (JObj [("targetInfo", targetInfo (randomUUID w) title u)]);
     Response (prop request "id") (JObj [("targetId", JStr (randomUUID w))])] ∧
  (In (Call "page.goto" [page_ref page; url]) (fx r) ↔ is_string url "about:blank" = false).
Proof.
  intros Hp Hm Hd Hc url Hnew Hgoto Htitle Hurl r.
  destruct (onMessage_handled JSON_parse data request m w s Hp Hm) as [Hst Hfx].
  subst r. rewrite Hst, Hfx. clear Hst Hfx.
  rewrite (handleCDPMethod_Target _ _ _ _ Hd), Hc.
  unfold handleTarget. pick_command. fold url. unfold sendEvent.
  rewrite run_bind_newPage, Hnew, run_bind_uuid, run_bind_modify.
  destruct (is_string url "about:blank") eqn:Hblank; simpl negb; cbv iota.
  - rewrite run_bind_ret, run_bind_call, Htitle, run_bind_call, Hurl, run_bind_emit.
    simpl. rewrite JsMap_get_set_eq. repeat split; auto.
    + intros H. in_cases.
    + discriminate.
  - rewrite run_bind_assoc, run_bind_call, (Hgoto eq_refl), run_bind_ret, run_bind_call, Htitle,
      run_bind_call, Hurl, run_bind_emit.
    simpl. rewrite JsMap_get_set_eq. repeat split; auto.
Qed.

Lemma createTarget_registers_page_witness :
  let create := request 41 "Target.createTarget" [("url", JStr "https://example.com")] in
  let w := world_of [("page.title", Returns (JStr "Example")); ("page.url", Returns (JStr "https://example.com/"))] 2%N "T2" in
  let r := onMessage (parse_among [create]) (to_json create) w (session sample_connection) in
  pages (st r) = [("T1", 1%N); ("T2", 2%N)] ∧
  JsMap.get "T2" (pages (st r)) = Some 2%N ∧
  defaultTargetId (st r) = "T1" ∧
  frames (fx r) =
    [Event "Target.targetCreated"
       (JObj [("targetInfo", targetInfo "T2" (JStr "Example") (JStr "https://example.com/"))]);
     Response (JNum 41) (JObj [("targetId", JStr "T2")])] ∧
  (In (Call "page.goto" [page_ref 2%N; JStr "https://example.com"]) (fx r) ↔ false = false).
Proof.
  intros create w r.
  apply (createTarget_registers_page _ (to_json create) create "Target.createTarget" w
           (session sample_connection) 2%N JUndefined (JStr "Example") (JStr "https://example.com/"));
    reflexivity.
Defined.

(** X7. [Target.createTarget] registers the page before it navigates it: when
    the navigation to the given url is rejected, the reply is an error frame
    and no [Target.targetCreated] event is written, yet the page opened for
    the request is already in the target map, under an identifier the client
    was never told. *)
Theorem createTarget_failed_navigation_keeps_page JSON_parse data request m w s page err :
  JSON_parse data = Some request → prop request "method" = JStr m →
  domain_of m = "Target" → command_of m = Some "createTarget" →
  let url := js_or (prop (js_or (prop request "params") empty_object) "url") (JStr "about:blank") in
  newPage w = Returns page →
  is_string url "about:blank" = false →
  backend w "page.goto" [page_ref page; url] = Rejects err →
  let r := onMessage JSON_parse data w s in
  frames (fx r) = [ErrorFrame (prop request "id") (-32000) (error_text err "Unknown error")] ∧
  pages (st r) = JsMap.set (randomUUID w) page (pages s) ∧
  JsMap.get (randomUUID w) (pages (st r)) = Some page.
Proof.
  intros Hp Hm Hd Hc url Hnew Hblank Hgoto r.
  destruct (onMessage_handled JSON_parse data request m w s Hp Hm) as [Hst Hfx].
  subst r. rewrite Hst, Hfx. clear Hst Hfx.
  rewrite (handleCDPMethod_Target _ _ _ _ Hd), Hc.
  unfold handleTarget. pick_command. fold url.
  rewrite run_bind_newPage, Hnew, run_bind_uuid, run_bind_modify, Hblank.
  simpl negb. cbv iota.
  rewrite run_bind_assoc, run_bind_call, Hgoto.
  simpl. rewrite JsMap_get_set_eq. auto.
Qed.

Lemma createTarget_failed_navigation_keeps_page_witness :
  let create := request 41 "Target.createTarget" [("url", JStr "https://example.com")] in
  let w := world_of [("page.goto", Rejects (ErrorObj "net::ERR_NAME_NOT_RESOLVED"))] 2%N "T2" in
  let r := onMessage (parse_among [create]) (to_json create) w (session sample_connection) in
  frames (fx r) = [ErrorFrame (JNum 41) (-32000) "net::ERR_NAME_NOT_RESOLVED"] ∧
  pages (st r) = [("T1", 1%N); ("T2", 2%N)] ∧
  JsMap.get "T2" (pages (st r)) = Some 2%N.
Proof.
  intros create w r.
  apply (createTarget_failed_navigation_keeps_page _ (to_json create) create "Target.createTarget" w
           (session sample_connection) 2%N (ErrorObj "net::ERR_NAME_NOT_RESOLVED"));
    reflexivity.
Defined.

Lemma pages_get_delete_eq {V} key (m : JsMap.t V) : pages_get (pages_delete key m) key = None.
Proof. destruct key; simpl; auto. apply JsMap_get_delete_eq. Qed.

(** X8. [Target.closeTarget]: a [targetId] that names no target of the map
    (or none at all) is answered by the error frame [Target not found: <id>]
    with nothing asked of the backend and the session as it was. For a live
    target, the target is removed only once the backend has closed the page:
    then the event [Target.targetDestroyed] and the response
    [{success: true}] are written and every other target is still in the
    map; when closing is rejected the target stays in the map. *)
Theorem closeTarget_removes_only_that_target JSON_parse data request m w s :
  JSON_parse data = Some request → prop request "method" = JStr m →
  domain_of m = "Target" → command_of m = Some "closeTarget" →
  let targetId := prop (js_or (prop request "params") empty_object) "targetId" in
  let r := onMessage JSON_parse data w s in
  match pages_get (pages s) targetId with
  | None =>
      ∀ t, js_String targetId = Some t →
        fx r = [Send (ErrorFrame (prop request "id") (-32000) ("Target not found: " +:+ t))] ∧
        st r = s
  | Some page =>
      (∀ v, backend w "page.close" [page_ref page] = Returns v →
         frames (fx r) = [Event "Target.targetDestroyed" (JObj [("targetId", targetId)]);
                          Response (prop request "id") (JObj [("success", JBool true)])] ∧
         pages_get (pages (st r)) targetId = None ∧
         (∀ k, JStr k ≠ targetId → JsMap.get k (pages (st r)) = JsMap.get k (pages s))) ∧
      (∀ err, backend w "page.close" [page_ref page] = Rejects err →
         frames (fx r) = [ErrorFrame (prop request "id") (-32000) (error_text err "Unknown error")] ∧
         st r = s)
  end.
Proof.
  intros Hp Hm Hd Hc targetId r.
  destruct (onMessage_handled JSON_parse data request m w s Hp Hm) as [Hst Hfx].
  subst r. rewrite Hst, Hfx. clear Hst Hfx.
  rewrite (handleCDPMethod_Target _ _ _ _ Hd), Hc.
  unfold handleTarget. pick_command. fold targetId. unfold sendEvent.
  rewrite run_bind_gets.
  destruct (pages_get (pages s) targetId) as [page|] eqn:Hget.
  - split.
    + intros v Hclose. rewrite run_bind_call, Hclose, run_bind_modify, run_bind_emit. simpl.
      split; [reflexivity|]. split; [apply pages_get_delete_eq|].
      intros k Hk. destruct targetId; simpl; auto.
      apply JsMap_get_delete_ne. congruence.
    + intros err Hclose. rewrite run_bind_call, Hclose. simpl. auto.
  - intros t Ht. rewrite run_bind_template, Ht. simpl. auto.
Qed.

Lemma run_bind_returns {A B} (m : M A) (k : A → M B) w s a :
  out (m w s) = Returns a → (m ≫= k) w s = after (fx (m w s)) (k a w (st (m w s))).
Proof. intros H. unfold mbind, M_bind, bind, after. cbv zeta. by rewrite H. Qed.

Lemma getTargets_loop w s (title url : Page → JSValue) (l : list (string * Page)) :
  Forall (fun entry : string * Page =>
            backend w "page.title" [page_ref entry.2] = Returns (title entry.2) ∧
            backend w "page.url" [page_ref entry.2] = Returns (url entry.2)) l →
  let r := map_M (fun entry : string * Page =>
                    t ← call "page.title" [page_ref entry.2];
                    u ← call "page.url" [page_ref entry.2];
                    ret (targetInfo entry.1 t u)) l w s in
  out r = Returns (map (fun entry : string * Page =>
                          targetInfo entry.1 (title entry.2) (url entry.2)) l) ∧
  st r = s ∧ frames (fx r) = [].
Proof.
  induction 1 as [|entry l [Ht Hu] _ IH]; [by simpl|].
  destruct IH as (IH1 & IH2 & IH3). cbv zeta.
  simpl map_M.
  rewrite !run_bind_assoc, run_bind_call, Ht. cbv beta iota.
  rewrite ?run_bind_assoc, run_bind_call, Hu. cbv beta iota.
  rewrite ?run_bind_assoc, run_bind_ret.
  rewrite (run_bind_returns _ _ _ _ _ IH1). simpl. rewrite IH2. split; [reflexivity|].
  split; [reflexivity|]. rewrite app_nil_r. exact IH3.
Qed.

Lemma handleTarget_getTargets params w s (title url : Page → JSValue) :
  Forall (fun entry : string * Page =>
            backend w "page.title" [page_ref entry.2] = Returns (title entry.2) ∧
            backend w "page.url" [page_ref entry.2] = Returns (url entry.2)) (pages s) →
  let r := handleTarget (Some "getTargets") params w s in
  out r = Returns (JObj [("targetInfos",
                          JArr (map (fun entry : string * Page =>
                                       targetInfo entry.1 (title entry.2) (url entry.2))
                                    (pages s)))]) ∧
  st r = s ∧ frames (fx r) = [].
Proof.
  intros Hall. unfold handleTarget. pick_command. rewrite run_bind_gets.
  destruct (getTargets_loop w s title url _ Hall) as (H1 & H2 & H3).
  rewrite (run_bind_returns _ _ _ _ _ H1). simpl. rewrite H2, app_nil_r, H3. auto.
Qed.

(** X9. [Target.getTargets] lists every target of the map, once and in the
    order in which the targets were created, asking each page for its title
    and url; the session is left as it was. *)
Theorem getTargets_lists_every_target JSON_parse data request m w s (title url : Page → JSValue) :
  JSON_parse data = Some request → prop request "method" = JStr m →
  domain_of m = "Target" → command_of m = Some "getTargets" →
  Forall (fun entry : string * Page =>
            backend w "page.title" [page_ref entry.2] = Returns (title entry.2) ∧
            backend w "page.url" [page_ref entry.2] = Returns (url entry.2)) (pages s) →
  let r := onMessage JSON_parse data w s in
  frames (fx r) =
    [Response (prop request "id")
       (JObj [("targetInfos",
               JArr (map (fun entry : string * Page =>
                            targetInfo entry.1 (title entry.2) (url entry.2)) (pages s)))])] ∧
  st r = s.
Proof.
  intros Hp Hm Hd Hc Hall r.
  destruct (onMessage_handled JSON_parse data request m w s Hp Hm) as [Hst Hfx].
  subst r. rewrite Hst, Hfx. clear Hst Hfx.
  rewrite (handleCDPMethod_Target _ _ _ _ Hd), Hc.
  destruct (handleTarget_getTargets (js_or (prop request "params") empty_object) w s title url Hall)
    as (H1 & H2 & H3).
  rewrite frames_app, H1, H2, H3. auto.
Qed.

Lemma closeTarget_removes_only_that_target_witness :
  let close t := request 42 "Target.closeTarget" [("targetId", JStr t)] in
  let on t := onMessage (parse_among [close "T2"; close "T9"]) (to_json (close t))
                quiet_world two_targets in
  (fx (on "T9") = [Send (ErrorFrame (JNum 42) (-32000) "Target not found: T9")] ∧
   st (on "T9") = two_targets) ∧
  (frames (fx (on "T2")) = [Event "Target.targetDestroyed" (JObj [("targetId", JStr "T2")]);
                            Response (JNum 42) (JObj [("success", JBool true)])] ∧
   pages_get (pages (st (on "T2"))) (JStr "T2") = None ∧
   (∀ k, JStr k ≠ JStr "T2" → JsMap.get k (pages (st (on "T2"))) = JsMap.get k (pages two_targets))).
Proof.
  intros close on. split.
  - exact (closeTarget_removes_only_that_target _ (to_json (close "T9")) (close "T9")
             "Target.closeTarget" quiet_world two_targets eq_refl eq_refl eq_refl eq_refl
             "T9" eq_refl).
  - exact (proj1 (closeTarget_removes_only_that_target _ (to_json (close "T2")) (close "T2")
                    "Target.closeTarget" quiet_world two_targets eq_refl eq_refl eq_refl eq_refl)
             JUndefined eq_refl).
Defined.

Lemma getTargets_lists_every_target_witness :
  let list := request 43 "Target.getTargets" [] in
  let w := world_of [("page.title", Returns (JStr "Example"));
                     ("page.url", Returns (JStr "https://example.com/"))] 2%N "T3" in
  let r := onMessage (parse_among [list]) (to_json list) w two_targets in
  frames (fx r) =
    [Response (JNum 43)
       (JObj [("targetInfos",
               JArr [targetInfo "T1" (JStr "Example") (JStr "https://example.com/");
                     targetInfo "T2" (JStr "Example") (JStr "https://example.com/")])])] ∧
  st r = two_targets.
Proof.
  intros list w r.
  apply (getTargets_lists_every_target _ (to_json list) list "Target.getTargets" w two_targets
           (fun _ => JStr "Example") (fun _ => JStr "https://example.com/"));
    try reflexivity.
  repeat constructor.
Defined.

Lemma handleTarget_createTarget_state params w s page :
  newPage w = Returns page →
  st (handleTarget (Some "createTarget") params w s) =
  with_pages (JsMap.set (randomUUID w) page) s.
Proof.
  intros Hnew. unfold handleTarget. pick_command. unfold sendEvent.
  rewrite run_bind_newPage, Hnew, run_bind_uuid, run_bind_modify.
  destruct (negb _); exec; reflexivity.
Qed.

Lemma handleTarget_closeTarget_closed params w s page v :
  pages_get (pages s) (prop params "targetId") = Some page →
  backend w "page.close" [page_ref page] = Returns v →
  handleTarget (Some "closeTarget") params w s =
  mkRes (Returns (JObj [("success", JBool true)]))
        (with_pages (pages_delete (prop params "targetId")) s)
        [Call "page.close" [page_ref page];
         Send (Event "Target.targetDestroyed" (JObj [("targetId", prop params "targetId")]))].
Proof.
  intros Hget Hclose. unfold handleTarget. pick_command. unfold sendEvent.
  rewrite run_bind_gets, Hget, run_bind_call, Hclose, run_bind_modify, run_bind_emit.
  reflexivity.
Qed.

(** X10. Closing a target that [Target.createTarget] has just registered
    under a fresh identifier puts the target map back as it was before the
    creation, whatever happened to the page in between (also when its
    navigation failed and the client was answered by an error). *)
Theorem closing_a_created_target_restores_the_map
    JSON_parse data request m data' request' m' w w' s page v :
  JSON_parse data = Some request → prop request "method" = JStr m →
  domain_of m = "Target" → command_of m = Some "createTarget" →
  JSON_parse data' = Some request' → prop request' "method" = JStr m' →
  domain_of m' = "Target" → command_of m' = Some "closeTarget" →
  prop (js_or (prop request' "params") empty_object) "targetId" = JStr (randomUUID w) →
  newPage w = Returns page →
  JsMap.get (randomUUID w) (pages s) = None →
  backend w' "page.close" [page_ref page] = Returns v →
  let created := onMessage JSON_parse data w s in
  let closed := onMessage JSON_parse data' w' (st created) in
  JsMap.get (randomUUID w) (pages (st created)) = Some page ∧
  pages (st closed) = pages s ∧
  frames (fx closed) =
    [Event "Target.targetDestroyed" (JObj [("targetId", JStr (randomUUID w))]);
     Response (prop request' "id") (JObj [("success", JBool true)])].
Proof.
  intros Hp Hm Hd Hc Hp' Hm' Hd' Hc' Hid Hnew Hfresh Hclose created closed.
  destruct (onMessage_handled JSON_parse data request m w s Hp Hm) as [Hst _].
  rewrite (handleCDPMethod_Target _ _ _ _ Hd), Hc,
    (handleTarget_createTarget_state _ _ _ _ Hnew) in Hst.
  fold created in Hst.
  destruct (onMessage_handled JSON_parse data' request' m' w' (st created) Hp' Hm') as [Hst' Hfx'].
  fold closed in Hst', Hfx'.
  assert (Hget : pages_get (pages (st created))
                   (prop (js_or (prop request' "params") empty_object) "targetId") = Some page).
  { rewrite Hid, Hst. simpl. apply JsMap_get_set_eq. }
  rewrite (handleCDPMethod_Target _ _ _ _ Hd'), Hc',
    (handleTarget_closeTarget_closed _ _ _ _ _ Hget Hclose) in Hst', Hfx'.
  rewrite Hst', Hfx', Hid, Hst. simpl.
  rewrite JsMap_get_set_eq, (JsMap_delete_set_fresh _ _ _ Hfresh). auto.
Qed.

Lemma closing_a_created_target_restores_the_map_witness :
  let create := request 41 "Target.createTarget" [("url", JStr "https://example.com")] in
  let close := request 42 "Target.closeTarget" [("targetId", JStr "T2")] in
  let w := world_of [("page.goto", Rejects (ErrorObj "net::ERR_NAME_NOT_RESOLVED"))] 2%N "T2" in
  let created := onMessage (parse_among [create; close]) (to_json create) w (session sample_connection) in
  let closed := onMessage (parse_among [create; close]) (to_json close) quiet_world (st created) in
  JsMap.get "T2" (pages (st created)) = Some 2%N ∧
  pages (st closed) = [("T1", 1%N)] ∧
  frames (fx closed) =
    [Event "Target.targetDestroyed" (JObj [("targetId", JStr "T2")]);
     Response (JNum 42) (JObj [("success", JBool true)])].
Proof.
  intros create close w created closed.
  apply (closing_a_created_target_restores_the_map _ (to_json create) create "Target.createTarget"
           (to_json close) close "Target.closeTarget" w quiet_world (session sample_connection)
           2%N JUndefined); reflexivity.
Defined.

(** ** Construction of the session *)

(** X11. The target announced when the connection is constructed is the one
    a first [Target.getTargets] lists, alone, under the same identifier, and
    that identifier is the default target id of the session. *)
Theorem announced_target_is_listed JSON_parse w0 c0 page data request m w title u :
  (connect w0).1 = Some c0 → newPage w0 = Returns page →
  JSON_parse data = Some request → prop request "method" = JStr m →
  domain_of m = "Target" → command_of m = Some "getTargets" →
  backend w "page.title" [page_ref page] = Returns title →
  backend w "page.url" [page_ref page] = Returns u →
  frames (connect w0).2 =
    [Event "Target.targetCreated"
       (JObj [("targetInfo", targetInfo (randomUUID w0) (JStr "") (JStr "about:blank"))])] ∧
  defaultTargetId (session c0) = randomUUID w0 ∧
  frames (fx (onMessage JSON_parse data w (session c0))) =
    [Response (prop request "id")
       (JObj [("targetInfos", JArr [targetInfo (randomUUID w0) title u])])].
Proof.
  intros Hc0 Hnew Hp Hm Hd Hc Htitle Hurl.
  unfold connect, initCDPSession in *. rewrite Hnew in *.
  destruct (launch w0) as [b|e]; [|discriminate].
  simpl in Hc0. injection Hc0 as <-. simpl.
  split; [reflexivity|]. split; [reflexivity|].
  match goal with |- context [onMessage _ _ _ ?s] => set (s0 := s) end.
  destruct (onMessage_handled JSON_parse data request m w s0 Hp Hm) as [_ Hfx].
  rewrite Hfx. clear Hfx.
  rewrite (handleCDPMethod_Target _ _ _ _ Hd), Hc.
  destruct (handleTarget_getTargets (js_or (prop request "params") empty_object) w s0
              (fun _ => title) (fun _ => u)) as (H1 & H2 & H3).
  { constructor; [split; assumption | constructor]. }
  rewrite frames_app, H1, H3. reflexivity.
Qed.

Lemma announced_target_is_listed_witness :
  let list := request 43 "Target.getTargets" [] in
  let w := world_of [("page.title", Returns (JStr "Example"));
                     ("page.url", Returns (JStr "https://example.com/"))] 2%N "T3" in
  frames (connect quiet_world).2 =
    [Event "Target.targetCreated"
       (JObj [("targetInfo", targetInfo "T1" (JStr "") (JStr "about:blank"))])] ∧
  defaultTargetId (session sample_connection) = "T1" ∧
  frames (fx (onMessage (parse_among [list]) (to_json list) w (session sample_connection))) =
    [Response (JNum 43)
       (JObj [("targetInfos",
               JArr [targetInfo "T1" (JStr "Example") (JStr "https://example.com/")])])].
Proof.
  intros list w.
  apply (announced_target_is_listed _ quiet_world sample_connection 1%N (to_json list) list
           "Target.getTargets" w); reflexivity.
Defined.

(** ** Required parameters *)

(** X12. The six commands that require a parameter check it before anything
    else: when it is missing or empty the reply is the error frame
    [<name> is required], nothing is asked of the backend and the session is
    left as it was. For [Runtime.evaluate] this is an error frame, not an
    [exceptionDetails] result: the check sits outside the [try]. *)
Theorem required_parameter_is_checked JSON_parse data request m w s p name :
  JSON_parse data = Some request → prop request "method" = JStr m →
  In (domain_of m, command_of m, name)
     [("Page", Some "navigate", "url"); ("Page", Some "setContent", "html");
      ("Page", Some "addScriptToEvaluateOnNewDocument", "source");
      ("Runtime", Some "evaluate", "expression");
      ("DOM", Some "querySelector", "selector"); ("DOM", Some "querySelectorAll", "selector")] →
  let params := js_or (prop request "params") empty_object in
  addressed_page s params = Some p →
  truthy (prop params name) = false →
  let r := onMessage JSON_parse data w s in
  fx r = [Send (ErrorFrame (prop request "id") (-32000) (name +:+ " is required"))] ∧ st r = s.
Proof.
  intros Hp Hm Hin params Hpage Hmissing r.
  destruct (onMessage_handled JSON_parse data request m w s Hp Hm) as [Hst Hfx].
  fold params in Hst, Hfx. subst r. rewrite Hst, Hfx. clear Hst Hfx.
  simpl in Hin.
  repeat (destruct Hin as [Hin|Hin]; [injection Hin as Hd Hc <-; symmetry in Hd, Hc|]);
    [..|destruct Hin].
  - rewrite (handleCDPMethod_Page _ _ _ _ p Hd Hpage), Hc.
    unfold handlePage. pick_command. by rewrite Hmissing.
  - rewrite (handleCDPMethod_Page _ _ _ _ p Hd Hpage), Hc.
    unfold handlePage. pick_command. by rewrite Hmissing.
  - rewrite (handleCDPMethod_Page _ _ _ _ p Hd Hpage), Hc.
    unfold handlePage. pick_command. by rewrite Hmissing.
  - rewrite (handleCDPMethod_Runtime _ _ _ _ p Hd Hpage), Hc.
    unfold handleRuntime. pick_command. by rewrite Hmissing.
  - rewrite (handleCDPMethod_DOM _ _ _ _ p Hd Hpage), Hc.
    unfold handleDOM. pick_command. by rewrite Hmissing.
  - rewrite (handleCDPMethod_DOM _ _ _ _ p Hd Hpage), Hc.
    unfold handleDOM. pick_command. by rewrite Hmissing.
Qed.

Lemma required_parameter_is_checked_witness :
  let evaluate := request 51 "Runtime.evaluate" [("expression", JStr "")] in
  let r := onMessage (parse_among [evaluate]) (to_json evaluate) throwing_world
             (session sample_connection) in
  fx r = [Send (ErrorFrame (JNum 51) (-32000) "expression is required")] ∧
  st r = session sample_connection.
Proof.
  intros evaluate r.
  apply (required_parameter_is_checked _ (to_json evaluate) evaluate "Runtime.evaluate"
           throwing_world (session sample_connection) 1%N "expression");
    try reflexivity.
  simpl. auto 10.
Defined.

(** ** Scripts for new documents *)

Lemma handlePage_addScript_state p params w s :
  truthy (prop params "source") = true →
  st (handlePage p (Some "addScriptToEvaluateOnNewDocument") params w s) =
  with_scripts (insert (randomUUID w) (prop params "source")) s.
Proof.
  intros Hsrc. unfold handlePage. pick_command. rewrite Hsrc. change (negb true) with false. cbv iota.
  exec; reflexivity.
Qed.

(** X13. [Page.addScriptToEvaluateOnNewDocument] records the source under a
    fresh identifier before it hands the script to the page, and answers
    with that identifier once the page has taken it;
    [Page.removeScriptToEvaluateOnNewDocument] on that identifier puts the
    record back as it was and asks nothing of the backend: the script itself
    stays installed in the page. *)
Theorem script_record_round_trip JSON_parse data request m data' request' m' w w' s p p' :
  JSON_parse data = Some request → prop request "method" = JStr m →
  domain_of m = "Page" → command_of m = Some "addScriptToEvaluateOnNewDocument" →
  JSON_parse data' = Some request' → prop request' "method" = JStr m' →
  domain_of m' = "Page" → command_of m' = Some "removeScriptToEvaluateOnNewDocument" →
  let params := js_or (prop request "params") empty_object in
  let params' := js_or (prop request' "params") empty_object in
  addressed_page s params = Some p →
  truthy (prop params "source") = true →
  scriptsToEvaluateOnNewDocument s !! randomUUID w = None →
  prop params' "identifier" = JStr (randomUUID w) →
  let added := onMessage JSON_parse data w s in
  addressed_page (st added) params' = Some p' →
  let removed := onMessage JSON_parse data' w' (st added) in
  scriptsToEvaluateOnNewDocument (st added) !! randomUUID w = Some (prop params "source") ∧
  (∀ v, backend w "page.evaluateOnNewDocument" [page_ref p; prop params "source"] = Returns v →
        frames (fx added) =
          [Response (prop request "id") (JObj [("identifier", JStr (randomUUID w))])]) ∧
  scriptsToEvaluateOnNewDocument (st removed) = scriptsToEvaluateOnNewDocument s ∧
  fx removed = [Send (Response (prop request' "id") empty_object)].
Proof.
  intros Hp Hm Hd Hc Hp' Hm' Hd' Hc' params params' Hpage Hsrc Hfresh Hid added Hpage' removed.
  destruct (onMessage_handled JSON_parse data request m w s Hp Hm) as [Hst Hfx].
  fold params added in Hst, Hfx.
  rewrite (handleCDPMethod_Page _ _ _ _ p Hd Hpage), Hc in Hst, Hfx.
  rewrite (handlePage_addScript_state _ _ _ _ Hsrc) in Hst.
  destruct (onMessage_handled JSON_parse data' request' m' w' (st added) Hp' Hm') as [Hst' Hfx'].
  fold params' removed in Hst', Hfx'.
  rewrite (handleCDPMethod_Page _ _ _ _ p' Hd' Hpage'), Hc' in Hst', Hfx'.
  unfold handlePage in Hst', Hfx'. revert Hst' Hfx'. pick_command. rewrite Hid.
  intros Hst' Hfx'. simpl in Hst', Hfx'.
  split; [|split; [|split]].
  - rewrite Hst. simpl. apply lookup_insert_eq.
  - intros v Hret. rewrite Hfx. unfold handlePage. pick_command. rewrite Hsrc. change (negb true) with false. cbv iota.
    rewrite run_bind_uuid, run_bind_modify, run_bind_call, Hret. reflexivity.
  - rewrite Hst', Hst. simpl. by rewrite delete_insert_id.
  - exact Hfx'.
Qed.

Lemma script_record_round_trip_witness :
  let add := request 52 "Page.addScriptToEvaluateOnNewDocument" [("source", JStr "window.x = 1")] in
  let remove := request 53 "Page.removeScriptToEvaluateOnNewDocument" [("identifier", JStr "S1")] in
  let parse := parse_among [add; remove] in
  let added := onMessage parse (to_json add) (naming_world "S1") (session sample_connection) in
  let removed := onMessage parse (to_json remove) quiet_world (st added) in
  scriptsToEvaluateOnNewDocument (st added) !! "S1" = Some (JStr "window.x = 1") ∧
  (∀ v, Returns JUndefined = Returns v →
        frames (fx added) = [Response (JNum 52) (JObj [("identifier", JStr "S1")])]) ∧
  scriptsToEvaluateOnNewDocument (st removed) = ∅ ∧
  fx removed = [Send (Response (JNum 53) empty_object)].
Proof.
  intros add remove parse added removed.
  apply (script_record_round_trip parse (to_json add) add "Page.addScriptToEvaluateOnNewDocument"
           (to_json remove) remove "Page.removeScriptToEvaluateOnNewDocument"
           (naming_world "S1") quiet_world (session sample_connection) 1%N 1%N);
    reflexivity.
Defined.

(** ** The outcome of a navigation *)

(** X14. [Page.navigate] writes [Page.frameNavigated], then
    [Page.loadEventFired], then its response, and only after the backend has
    loaded the url: a rejected navigation is answered by an error frame and
    no event. The response carries [errorText: 'Navigation failed'] whenever
    the backend resolved the navigation without a response object
    ([null]) or with one that is not [ok]; otherwise [errorText] is
    absent. *)
Theorem navigate_outcome JSON_parse data request m w s p u origin now ok :
  JSON_parse data = Some request → prop request "method" = JStr m →
  domain_of m = "Page" → command_of m = Some "navigate" →
  let params := js_or (prop request "params") empty_object in
  addressed_page s params = Some p →
  truthy (prop params "url") = true →
  backend w "page.url" [page_ref p] = Returns u →
  backend w "URL.origin" [u] = Returns origin →
  backend w "Date.now() / 1000" [] = Returns now →
  (∀ response, backend w "response.ok" [response] = Returns ok) →
  let r := onMessage JSON_parse data w s in
  match backend w "page.goto" [page_ref p; prop params "url"; JObj [("waitUntil", JStr "load")]] with
  | Rejects err =>
      frames (fx r) = [ErrorFrame (prop request "id") (-32000) (error_text err "Unknown error")]
  | Returns response =>
      frames (fx r) =
        [Event "Page.frameNavigated" (JObj [("frame", frame_of s [] u origin)]);
         Event "Page.loadEventFired" (JObj [("timestamp", now)]);
         Response (prop request "id")
           (JObj [("frameId", JStr (defaultTargetId s));
                  ("loaderId", JStr (randomUUID w));
                  ("errorText",
                   if nullish response || negb (truthy ok)
                   then JStr "Navigation failed" else JUndefined)])]
  end ∧ st r = s.
Proof.
  intros Hp Hm Hd Hc params Hpage Hurl Hu Horigin Hnow Hok r.
  destruct (onMessage_handled JSON_parse data request m w s Hp Hm) as [Hst Hfx].
  fold params in Hst, Hfx. subst r. rewrite Hst, Hfx. clear Hst Hfx.
  rewrite (handleCDPMethod_Page _ _ _ _ p Hd Hpage), Hc.
  unfold handlePage. pick_command. rewrite Hurl. change (negb true) with false. cbv iota.
  unfold sendEvent. rewrite run_bind_call.
  destruct (backend w "page.goto" _) as [response|err]; [|by simpl].
  rewrite run_bind_call, Hu. cbv beta iota.
  rewrite run_bind_call, Hu. cbv beta iota.
  rewrite run_bind_call, Horigin. cbv beta iota.
  rewrite run_bind_gets, run_bind_emit, run_bind_call, Hnow. cbv beta iota.
  rewrite run_bind_emit, run_bind_uuid.
  destruct (nullish response) eqn:Hnull.
  - rewrite run_bind_ret. by simpl.
  - rewrite run_bind_call, (Hok response). simpl. by destruct (truthy ok).
Qed.

Lemma navigate_outcome_witness :
  let navigate := request 4 "Page.navigate" [("url", JStr "https://example.com")] in
  let w := world_of [("page.goto", Returns JNull);
                     ("page.url", Returns (JStr "https://example.com/"));
                     ("URL.origin", Returns (JStr "https://example.com"));
                     ("Date.now() / 1000", Returns (JNum 1700000000))] 3%N "L1" in
  let r := onMessage (parse_among [navigate]) (to_json navigate) w (session sample_connection) in
  frames (fx r) =
    [Event "Page.frameNavigated"
       (JObj [("frame", frame_of (session sample_connection) []
                          (JStr "https://example.com/") (JStr "https://example.com"))]);
     Event "Page.loadEventFired" (JObj [("timestamp", JNum 1700000000)]);
     Response (JNum 4)
       (JObj [("frameId", JStr "T1"); ("loaderId", JStr "L1");
              ("errorText", JStr "Navigation failed")])] ∧
  st r = session sample_connection.
Proof.
  intros navigate w r.
  exact (navigate_outcome _ (to_json navigate) navigate "Page.navigate" w
           (session sample_connection) 1%N (JStr "https://example.com/")
           (JStr "https://example.com") (JNum 1700000000) JUndefined
           eq_refl eq_refl eq_refl eq_refl eq_refl eq_refl eq_refl eq_refl eq_refl
           (fun _ => eq_refl)).
Defined.

(** ** Objects kept for the client *)

(** The property descriptors [Runtime.getProperties] returns for the members
    of a stored plain object. *)
Lemma getProperties_loop (own : bool) w s : ∀ fields : list (string * JSValue),
  Forall (fun kv : string * JSValue => is_Some (js_String kv.2)) fields →
  let r := map_M (fun p : string * JSValue * (bool * bool * bool) =>
                    let '(key, value, (writable, configurable, enumerable)) := p in
                    description ← template value;
                    ret (JObj [("name", JStr key);
                               ("value", JObj [("type", JStr (typeof value)); ("value", value);
                                               ("description", JStr description)]);
                               ("writable", JBool writable);
                               ("configurable", JBool configurable);
                               ("enumerable", JBool enumerable);
                               ("isOwn", JBool true)]))
                 (own_properties (JObj fields) own) w s in
  ∃ props, out r = Returns props ∧ st r = s ∧ fx r = [] ∧
           map (fun d => prop d "name") props = map (fun kv : string * JSValue => JStr kv.1) fields ∧
           map (fun d => prop (prop d "value") "value") props = map snd fields.
Proof.
  induction 1 as [|[key value] fields [d Hd] _ IH].
  - exists []. by simpl.
  - destruct IH as (props & H1 & H2 & H3 & H4 & H5). cbv zeta in *.
    simpl own_properties in *. simpl map_M.
    rewrite run_bind_assoc, run_bind_template. simpl in Hd. rewrite Hd.
    rewrite run_bind_ret, (run_bind_returns _ _ _ _ _ H1), H2, H3.
    eexists. split; [reflexivity|]. simpl. rewrite H4, H5. auto.
Qed.

Lemma handleRuntime_evaluate_by_reference p params w s e fields d :
  prop params "expression" = JStr e → e ≠ "" →
  prop params "returnByValue" = JBool false →
  (∀ args, backend w "page.evaluate" args = Returns (JObj fields)) →
  js_String (JObj fields) = Some d →
  ∃ args result,
    handleRuntime p (Some "evaluate") params w s =
      mkRes (Returns (JObj [("result", result)]))
            (with_objectMap (insert (object_id (objectIdCounter s)) (JObj fields))
               (with_objectIdCounter (fun c => c + 1) s))
            [Call "page.evaluate" args] ∧
    prop result "objectId" = JStr (object_id (objectIdCounter s)) ∧
    prop result "value" = JUndefined.
Proof.
  intros He Hne Hby Hev Hd.
  unfold handleRuntime. pick_command. rewrite He, Hby.
  assert (Htruthy : truthy (JStr e) = true).
  { simpl. by destruct (String.eqb_spec e ""). }
  rewrite Htruthy. change (negb true) with false. cbv iota.
  unfold try_catch, store_object.
  change (js_coalesce (JBool false) (JBool true)) with (JBool false).
  change (truthy (JBool false)) with false.
  destruct (truthy (js_coalesce (prop params "awaitPromise") (JBool false))).
  - rewrite ?run_bind_assoc, run_bind_template. simpl js_String. cbv iota.
    rewrite !run_bind_ret, run_bind_call, Hev.
    cbv beta iota.
    change (negb false && negb (is_null (JObj fields)) &&
            String.eqb (typeof (JObj fields)) "object") with true. cbv iota.
    rewrite ?run_bind_assoc, run_bind_gets, ?run_bind_assoc, run_bind_modify,
      ?run_bind_assoc, run_bind_modify, run_bind_ret, run_bind_template, Hd.
    eexists _, _. split; [reflexivity|]. split; reflexivity.
  - rewrite !run_bind_ret, run_bind_call, Hev.
    cbv beta iota.
    change (negb false && negb (is_null (JObj fields)) &&
            String.eqb (typeof (JObj fields)) "object") with true. cbv iota.
    rewrite ?run_bind_assoc, run_bind_gets, ?run_bind_assoc, run_bind_modify,
      ?run_bind_assoc, run_bind_modify, run_bind_ret, run_bind_template, Hd.
    eexists _, _. split; [reflexivity|]. split; reflexivity.
Qed.

Lemma handleRuntime_getProperties_stored p params w s oid fields :
  prop params "objectId" = JStr oid →
  objectMap s !! oid = Some (JObj fields) →
  Forall (fun kv : string * JSValue => is_Some (js_String kv.2)) fields →
  ∃ props,
    handleRuntime p (Some "getProperties") params w s =
      mkRes (Returns (JObj [("result", JArr props)])) s [] ∧
    map (fun d => prop d "name") props = map (fun kv : string * JSValue => JStr kv.1) fields ∧
    map (fun d => prop (prop d "value") "value") props = map snd fields.
Proof.
  intros Hid Hsome Hall.
  unfold handleRuntime. pick_command. rewrite Hid, run_bind_gets.
  cbn [smap_get]. rewrite Hsome.
  change (default JUndefined (Some (JObj fields))) with (JObj fields).
  change (negb (truthy (JObj fields)) || negb (String.eqb (typeof (JObj fields)) "object"))
    with false. cbv iota.
  destruct (getProperties_loop
              (truthy (js_coalesce (prop params "ownProperties") (JBool true))) w s fields Hall)
    as (props & H1 & H2 & H3 & H4 & H5).
  exists props. rewrite (run_bind_returns _ _ _ _ _ H1), H2, H3. auto.
Qed.

(** X15. An object that [Runtime.evaluate] returns by reference
    ([returnByValue: false]) is stored under [obj-<n>], [n] the object
    counter, which then moves on by one; the response carries that
    [objectId], and a [Runtime.getProperties] on it, to whatever target it is
    addressed, lists the members of the stored object, by name and value, in
    their order. *)
Theorem stored_object_can_be_inspected
    JSON_parse data request m data' request' m' w w' s p p' e fields d :
  JSON_parse data = Some request → prop request "method" = JStr m →
  domain_of m = "Runtime" → command_of m = Some "evaluate" →
  JSON_parse data' = Some request' → prop request' "method" = JStr m' →
  domain_of m' = "Runtime" → command_of m' = Some "getProperties" →
  let params := js_or (prop request "params") empty_object in
  let params' := js_or (prop request' "params") empty_object in
  addressed_page s params = Some p →
  prop params "expression" = JStr e → e ≠ "" →
  prop params "returnByValue" = JBool false →
  (∀ args, backend w "page.evaluate" args = Returns (JObj fields)) →
  js_String (JObj fields) = Some d →
  Forall (fun kv : string * JSValue => is_Some (js_String kv.2)) fields →
  prop params' "objectId" = JStr (object_id (objectIdCounter s)) →
  let evaluated := onMessage JSON_parse data w s in
  addressed_page (st evaluated) params' = Some p' →
  let inspected := onMessage JSON_parse data' w' (st evaluated) in
  (∃ result, frames (fx evaluated) = [Response (prop request "id") (JObj [("result", result)])] ∧
             prop result "objectId" = JStr (object_id (objectIdCounter s)) ∧
             prop result "value" = JUndefined) ∧
  objectMap (st evaluated) !! object_id (objectIdCounter s) = Some (JObj fields) ∧
  objectIdCounter (st evaluated) = objectIdCounter s + 1 ∧
  ∃ props, fx inspected = [Send (Response (prop request' "id") (JObj [("result", JArr props)]))] ∧
           map (fun d => prop d "name") props = map (fun kv : string * JSValue => JStr kv.1) fields ∧
           map (fun d => prop (prop d "value") "value") props = map snd fields.
Proof.
  intros Hp Hm Hd Hc Hp' Hm' Hd' Hc' params params' Hpage He Hne Hby Hev Hstr Hall Hid
    evaluated Hpage' inspected.
  destruct (onMessage_handled JSON_parse data request m w s Hp Hm) as [Hst Hfx].
  fold params evaluated in Hst, Hfx.
  rewrite (handleCDPMethod_Runtime _ _ _ _ p Hd Hpage), Hc in Hst, Hfx.
  destruct (handleRuntime_evaluate_by_reference p params w s e fields d He Hne Hby Hev Hstr)
    as (args & result & Hrun & Hoid & Hval).
  rewrite Hrun in Hst, Hfx. simpl in Hst, Hfx.
  destruct (onMessage_handled JSON_parse data' request' m' w' (st evaluated) Hp' Hm') as [_ Hfx'].
  fold params' inspected in Hfx'.
  rewrite (handleCDPMethod_Runtime _ _ _ _ p' Hd' Hpage'), Hc' in Hfx'.
  assert (Hstored : objectMap (st evaluated) !! object_id (objectIdCounter s) = Some (JObj fields)).
  { rewrite Hst. simpl. apply lookup_insert_eq. }
  destruct (handleRuntime_getProperties_stored p' params' w' (st evaluated) _ fields Hid Hstored Hall)
    as (props & Hrun' & Hnames & Hvalues).
  rewrite Hrun' in Hfx'. simpl in Hfx'.
  split; [|split; [exact Hstored|split]].
  - exists result. rewrite Hfx. auto.
  - by rewrite Hst.
  - exists props. auto.
Qed.

Lemma stored_object_can_be_inspected_witness :
  let evaluate := request 7 "Runtime.evaluate"
                    [("expression", JStr "({a: 1})"); ("returnByValue", JBool false)] in
  let inspect := request 9 "Runtime.getProperties" [("objectId", JStr "obj-1")] in
  let parse := parse_among [evaluate; inspect] in
  let evaluated := onMessage parse (to_json evaluate) object_world (session sample_connection) in
  let inspected := onMessage parse (to_json inspect) quiet_world (st evaluated) in
  (∃ result, frames (fx evaluated) = [Response (JNum 7) (JObj [("result", result)])] ∧
             prop result "objectId" = JStr "obj-1" ∧ prop result "value" = JUndefined) ∧
  objectMap (st evaluated) !! "obj-1" = Some (JObj [("a", JNum 1)]) ∧
  objectIdCounter (st evaluated) = 2 ∧
  ∃ props, fx inspected = [Send (Response (JNum 9) (JObj [("result", JArr props)]))] ∧
           map (fun d => prop d "name") props = [JStr "a"] ∧
           map (fun d => prop (prop d "value") "value") props = [JNum 1].
Proof.
  intros evaluate inspect parse evaluated inspected.
  apply (stored_object_can_be_inspected parse (to_json evaluate) evaluate "Runtime.evaluate"
           (to_json inspect) inspect "Runtime.getProperties" object_world quiet_world
           (session sample_connection) 1%N 1%N "({a: 1})" [("a", JNum 1)] "[object Object]");
    try reflexivity.
  - discriminate.
  - repeat constructor. by eexists.
Defined.

(** X16. [Runtime.releaseObject] removes the one object it names and no
    other, leaves the object counter where it was, and succeeds whether or
    not the id was in use; a later [Runtime.getProperties] on the released id
    answers with an empty list. *)
Theorem releaseObject_removes_one_object
    JSON_parse data request m data' request' m' w w' s p p' oid :
  JSON_parse data = Some request → prop request "method" = JStr m →
  domain_of m = "Runtime" → command_of m = Some "releaseObject" →
  JSON_parse data' = Some request' → prop request' "method" = JStr m' →
  domain_of m' = "Runtime" → command_of m' = Some "getProperties" →
  let params := js_or (prop request "params") empty_object in
  let params' := js_or (prop request' "params") empty_object in
  addressed_page s params = Some p →
  prop params "objectId" = JStr oid →
  prop params' "objectId" = JStr oid →
  let released := onMessage JSON_parse data w s in
  addressed_page (st released) params' = Some p' →
  let inspected := onMessage JSON_parse data' w' (st released) in
  fx released = [Send (Response (prop request "id") empty_object)] ∧
  objectMap (st released) !! oid = None ∧
  (∀ other, other ≠ oid → objectMap (st released) !! other = objectMap s !! other) ∧
  objectIdCounter (st released) = objectIdCounter s ∧
  fx inspected = [Send (Response (prop request' "id") (JObj [("result", JArr [])]))].
Proof.
  intros Hp Hm Hd Hc Hp' Hm' Hd' Hc' params params' Hpage Hid Hid' released Hpage' inspected.
  destruct (onMessage_handled JSON_parse data request m w s Hp Hm) as [Hst Hfx].
  fold params released in Hst, Hfx.
  rewrite (handleCDPMethod_Runtime _ _ _ _ p Hd Hpage), Hc in Hst, Hfx.
  unfold handleRuntime in Hst, Hfx. revert Hst Hfx. pick_command. rewrite Hid.
  intros Hst Hfx. simpl in Hst, Hfx.
  assert (Hgone : objectMap (st released) !! oid = None).
  { rewrite Hst. simpl. apply lookup_delete_eq. }
  destruct (onMessage_handled JSON_parse data' request' m' w' (st released) Hp' Hm') as [_ Hfx'].
  fold params' inspected in Hfx'.
  rewrite (handleCDPMethod_Runtime _ _ _ _ p' Hd' Hpage'), Hc',
    (handleRuntime_getProperties_released _ _ _ _ _ Hid' Hgone) in Hfx'.
  repeat split; auto.
  - intros other Hne. rewrite Hst. simpl. by apply lookup_delete_ne.
  - by rewrite Hst.
Qed.

Lemma releaseObject_removes_one_object_witness :
  let release := request 61 "Runtime.releaseObject" [("objectId", JStr "obj-1")] in
  let inspect := request 9 "Runtime.getProperties" [("objectId", JStr "obj-1")] in
  let parse := parse_among [release; inspect] in
  let released := onMessage parse (to_json release) quiet_world (session holding_connection) in
  let inspected := onMessage parse (to_json inspect) quiet_world (st released) in
  fx released = [Send (Response (JNum 61) empty_object)] ∧
  objectMap (st released) !! "obj-1" = None ∧
  (∀ other, other ≠ "obj-1" →
     objectMap (st released) !! other = objectMap (session holding_connection) !! other) ∧
  objectIdCounter (st released) = objectIdCounter (session holding_connection) ∧
  fx inspected = [Send (Response (JNum 9) (JObj [("result", JArr [])]))].
Proof.
  intros release inspect parse released inspected.
  apply (releaseObject_removes_one_object parse (to_json release) release "Runtime.releaseObject"
           (to_json inspect) inspect "Runtime.getProperties" quiet_world quiet_world
           (session holding_connection) 1%N 1%N "obj-1"); reflexivity.
Defined.

(** ** Nodes *)

Lemma require_selector_run {B} nodeId (k : JSValue → M B) w s :
  (require_selector nodeId ≫= k) w s =
  let selector := default JUndefined (nmap_get (nodeMap s) nodeId) in
  if truthy selector then k selector w s
  else mkRes (Rejects (ErrorObj (match js_String nodeId with
                                 | Some t => "Node not found: " +:+ t
                                 | None => "Cannot convert object to primitive value"
                                 end))) s [].
Proof.
  unfold require_selector, node_selector.
  rewrite !run_bind_assoc, run_bind_gets, run_bind_ret. cbv zeta.
  destruct (truthy _); [by rewrite run_bind_ret|].
  rewrite run_bind_assoc, run_bind_template. by destruct (js_String nodeId).
Qed.

(** X17. The eight DOM commands that act on a node refuse a [nodeId] that is
    not in the node map (never handed out, removed, or the answer 0 of a
    query without match): the reply is the error frame
    [Node not found: <id>], nothing is asked of the backend and the session
    is left as it was. *)
Theorem unknown_node_is_reported JSON_parse data request m w s p c t :
  JSON_parse data = Some request → prop request "method" = JStr m →
  domain_of m = "DOM" → command_of m = Some c →
  In c ["getAttributes"; "setAttributeValue"; "focus"; "getBoxModel";
        "scrollIntoViewIfNeeded"; "removeNode"; "setNodeValue"; "setFileInputFiles"] →
  let params := js_or (prop request "params") empty_object in
  addressed_page s params = Some p →
  nmap_get (nodeMap s) (prop params "nodeId") = None →
  js_String (prop params "nodeId") = Some t →
  let r := onMessage JSON_parse data w s in
  fx r = [Send (ErrorFrame (prop request "id") (-32000) ("Node not found: " +:+ t))] ∧ st r = s.
Proof.
  intros Hp Hm Hd Hc Hin params Hpage Hnode Ht r.
  destruct (onMessage_handled JSON_parse data request m w s Hp Hm) as [Hst Hfx].
  fold params in Hst, Hfx. subst r. rewrite Hst, Hfx. clear Hst Hfx.
  rewrite (handleCDPMethod_DOM _ _ _ _ p Hd Hpage), Hc.
  simpl in Hin.
  repeat (destruct Hin as [<-|Hin]; [unfold handleDOM; pick_command;
                                     rewrite require_selector_run, Hnode, Ht; by simpl|]).
  destruct Hin.
Qed.

Lemma unknown_node_is_reported_witness :
  let focus := request 62 "DOM.focus" [("nodeId", JNum 0)] in
  let r := onMessage (parse_among [focus]) (to_json focus) quiet_world (session sample_connection) in
  fx r = [Send (ErrorFrame (JNum 62) (-32000) "Node not found: 0")] ∧
  st r = session sample_connection.
Proof.
  intros focus r.
  apply (unknown_node_is_reported _ (to_json focus) focus "DOM.focus" quiet_world
           (session sample_connection) 1%N "focus" "0"); try reflexivity.
  simpl. auto.
Defined.

Lemma handleDOM_querySelector_match p params w s element :
  truthy (prop params "selector") = true →
  backend w "page.$" [page_ref p; prop params "selector"] = Returns element →
  truthy element = true →
  handleDOM p (Some "querySelector") params w s =
  mkRes (Returns (JObj [("nodeId", JNum (nodeIdCounter s))]))
        (with_nodeMap (insert (nodeIdCounter s) (prop params "selector"))
           (with_nodeIdCounter (fun c => c + 1) s))
        [Call "page.$" [page_ref p; prop params "selector"]].
Proof.
  intros Hsel Hcall Helem. unfold handleDOM. pick_command.
  rewrite Hsel. change (negb true) with false. cbv iota.
  rewrite run_bind_call, Hcall. cbv beta iota. rewrite Helem. change (negb true) with false.
  cbv iota. unfold next_nodeId.
  rewrite !run_bind_assoc, run_bind_gets, !run_bind_assoc, run_bind_modify, run_bind_ret,
    run_bind_modify.
  reflexivity.
Qed.

(** X18. A node found by [DOM.querySelector] is remembered by its selector
    under the node id returned, the node counter before the query. The node
    map belongs to the session, not to a target: a later
    [DOM.getOuterHTML] on that id evaluates the remembered selector in
    whatever page the later request addresses, and does not fall back to the
    document. *)
Theorem matched_node_is_remembered
    JSON_parse data request m data' request' m' w w' s p p' element html :
  JSON_parse data = Some request → prop request "method" = JStr m →
  domain_of m = "DOM" → command_of m = Some "querySelector" →
  JSON_parse data' = Some request' → prop request' "method" = JStr m' →
  domain_of m' = "DOM" → command_of m' = Some "getOuterHTML" →
  let params := js_or (prop request "params") empty_object in
  let params' := js_or (prop request' "params") empty_object in
  addressed_page s params = Some p →
  truthy (prop params "selector") = true →
  backend w "page.$" [page_ref p; prop params "selector"] = Returns element →
  truthy element = true →
  prop params' "nodeId" = JNum (nodeIdCounter s) →
  let found := onMessage JSON_parse data w s in
  addressed_page (st found) params' = Some p' →
  backend w' "page.evaluate" [page_ref p'; JStr "outerHTML"; prop params "selector"] = Returns html →
  let read := onMessage JSON_parse data' w' (st found) in
  frames (fx found) = [Response (prop request "id") (JObj [("nodeId", JNum (nodeIdCounter s))])] ∧
  nodeMap (st found) !! nodeIdCounter s = Some (prop params "selector") ∧
  nodeIdCounter (st found) = nodeIdCounter s + 1 ∧
  fx read = [Call "page.evaluate" [page_ref p'; JStr "outerHTML"; prop params "selector"];
             Send (Response (prop request' "id") (JObj [("outerHTML", html)]))].
Proof.
  intros Hp Hm Hd Hc Hp' Hm' Hd' Hc' params params' Hpage Hsel Hcall Helem Hid found Hpage'
    Hhtml read.
  destruct (onMessage_handled JSON_parse data request m w s Hp Hm) as [Hst Hfx].
  fold params found in Hst, Hfx.
  rewrite (handleCDPMethod_DOM _ _ _ _ p Hd Hpage), Hc,
    (handleDOM_querySelector_match _ _ _ _ _ Hsel Hcall Helem) in Hst, Hfx.
  simpl in Hst, Hfx.
  assert (Hnode : nodeMap (st found) !! nodeIdCounter s = Some (prop params "selector")).
  { rewrite Hst. simpl. apply lookup_insert_eq. }
  destruct (onMessage_handled JSON_parse data' request' m' w' (st found) Hp' Hm') as [_ Hfx'].
  fold params' read in Hfx'.
  rewrite (handleCDPMethod_DOM _ _ _ _ p' Hd' Hpage'), Hc' in Hfx'.
  unfold handleDOM in Hfx'. revert Hfx'. pick_command. unfold node_selector.
  rewrite Hid, !run_bind_assoc, run_bind_gets, run_bind_ret. cbn [nmap_get]. rewrite Hnode.
  change (default JUndefined (Some (prop params "selector"))) with (prop params "selector").
  rewrite Hsel. change (negb true) with false. cbv iota.
  rewrite run_bind_call, Hhtml. intros Hfx'. simpl in Hfx'.
  rewrite Hfx. repeat split; auto. by rewrite Hst.
Qed.

Lemma matched_node_is_remembered_witness :
  let query := request 5 "DOM.querySelector" [("selector", JStr "#main")] in
  let outer := request 6 "DOM.getOuterHTML" [("nodeId", JNum 1); ("targetId", JStr "T2")] in
  let parse := parse_among [query; outer] in
  let w' := world_of [("page.evaluate", Returns (JStr "<div id='main'></div>"))] 3%N "L1" in
  let found := onMessage parse (to_json query) matching_world two_targets in
  let read := onMessage parse (to_json outer) w' (st found) in
  frames (fx found) = [Response (JNum 5) (JObj [("nodeId", JNum 1)])] ∧
  nodeMap (st found) !! 1 = Some (JStr "#main") ∧
  nodeIdCounter (st found) = 1 + 1 ∧
  fx read = [Call "page.evaluate" [page_ref 2%N; JStr "outerHTML"; JStr "#main"];
             Send (Response (JNum 6) (JObj [("outerHTML", JStr "<div id='main'></div>")]))].
Proof.
  intros query outer parse w' found read.
  apply (matched_node_is_remembered parse (to_json query) query "DOM.querySelector"
           (to_json outer) outer "DOM.getOuterHTML" matching_world w' two_targets 1%N 2%N
           (JObj []) (JStr "<div id='main'></div>")); reflexivity.
Defined.

Lemma allocate_match_run selector sel i w s :
  js_String selector = Some sel →
  allocate_match selector i w s =
  mkRes (Returns (JNum (nodeIdCounter s)))
        (with_nodeMap (insert (nodeIdCounter s) (nth_of_type sel i))
           (with_nodeIdCounter (fun c => c + 1) s)) [].
Proof.
  intros Hsel. unfold allocate_match, next_nodeId.
  rewrite !run_bind_assoc, run_bind_gets, !run_bind_assoc, run_bind_modify, run_bind_ret,
    run_bind_template, Hsel, run_bind_modify.
  reflexivity.
Qed.

Lemma querySelectorAll_records selector sel w : ∀ (n a : nat) s,
  js_String selector = Some sel →
  let r := map_M (allocate_match selector) (seq a n) w s in
  out r = Returns (map JNum (consecutive (nodeIdCounter s) n)) ∧
  fx r = [] ∧
  nodeIdCounter (st r) = nodeIdCounter s + Z.of_nat n ∧
  (∀ i, (i < n)%nat →
        nodeMap (st r) !! (nodeIdCounter s + Z.of_nat i) = Some (nth_of_type sel (a + i))) ∧
  (∀ k, k < nodeIdCounter s → nodeMap (st r) !! k = nodeMap s !! k) ∧
  pages (st r) = pages s ∧ defaultTargetId (st r) = defaultTargetId s ∧
  objectMap (st r) = objectMap s ∧ objectIdCounter (st r) = objectIdCounter s ∧
  pendingRequests (st r) = pendingRequests s.
Proof.
  induction n as [|n IH]; intros a s Hsel; cbv zeta.
  - simpl. repeat split; auto; try lia.
  - simpl seq. simpl map_M.
    set (s1 := with_nodeMap (insert (nodeIdCounter s) (nth_of_type sel a))
                 (with_nodeIdCounter (fun c => c + 1) s)).
    pose proof (allocate_match_run selector sel a w s Hsel) as Hrun. fold s1 in Hrun.
    assert (Hout : out (allocate_match selector a w s) = Returns (JNum (nodeIdCounter s)))
      by (by rewrite Hrun).
    rewrite (run_bind_returns _ _ _ _ _ Hout), Hrun. cbn [st fx after out].
    destruct (IH (S a) s1 Hsel) as (H1 & H2 & H3 & H4 & H5 & H6 & H7 & H8 & H9 & H10).
    rewrite (run_bind_returns _ _ _ _ _ H1), H2. cbn [st fx after out ret app].
    change (nodeIdCounter s1) with (nodeIdCounter s + 1) in *.
    split; [reflexivity|]. split; [reflexivity|]. split; [rewrite H3; lia|].
    split; [|split].
    + intros [|i] Hi.
      * rewrite Z.add_0_r, Nat.add_0_r, H5 by lia. subst s1. simpl. apply lookup_insert_eq.
      * replace (nodeIdCounter s + Z.of_nat (S i)) with (nodeIdCounter s + 1 + Z.of_nat i) by lia.
        replace (a + S i)%nat with (S a + i)%nat by lia. apply H4. lia.
    + intros k Hk. rewrite H5 by lia. subst s1. simpl. apply lookup_insert_ne. lia.
    + rewrite H6, H7, H8, H9, H10. by subst s1.
Qed.

(** X19. [DOM.querySelectorAll] hands out one node id per match, consecutive
    from the node counter, and records for the match at index [i] the
    selector [<selector>:nth-of-type(<i+1>)]; the node ids in use before
    keep their selectors, and with no match the list is empty and no id is
    used up. *)
Theorem querySelectorAll_numbers_the_matches JSON_parse data request m w s p sel items :
  JSON_parse data = Some request → prop request "method" = JStr m →
  domain_of m = "DOM" → command_of m = Some "querySelectorAll" →
  let params := js_or (prop request "params") empty_object in
  addressed_page s params = Some p →
  prop params "selector" = JStr sel → sel ≠ "" →
  backend w "page.$$" [page_ref p; JStr sel] = Returns (JArr items) →
  let r := onMessage JSON_parse data w s in
  frames (fx r) =
    [Response (prop request "id")
       (JObj [("nodeIds", JArr (map JNum (consecutive (nodeIdCounter s) (length items))))])] ∧
  nodeIdCounter (st r) = nodeIdCounter s + Z.of_nat (length items) ∧
  (∀ i, (i < length items)%nat →
        nodeMap (st r) !! (nodeIdCounter s + Z.of_nat i) = Some (nth_of_type sel i)) ∧
  (∀ k, k < nodeIdCounter s → nodeMap (st r) !! k = nodeMap s !! k).
Proof.
  intros Hp Hm Hd Hc params Hpage Hsel Hne Hcall r.
  destruct (onMessage_handled JSON_parse data request m w s Hp Hm) as [Hst Hfx].
  fold params in Hst, Hfx. subst r. rewrite Hst, Hfx. clear Hst Hfx.
  rewrite (handleCDPMethod_DOM _ _ _ _ p Hd Hpage), Hc.
  unfold handleDOM. pick_command. rewrite Hsel.
  assert (Htruthy : truthy (JStr sel) = true).
  { simpl. by destruct (String.eqb_spec sel ""). }
  rewrite Htruthy. change (negb true) with false. cbv iota.
  rewrite run_bind_call, Hcall. cbv beta iota.
  destruct (querySelectorAll_records (JStr sel) sel w (length items) 0 s eq_refl)
    as (H1 & H2 & H3 & H4 & H5 & _).
  rewrite (run_bind_returns _ _ _ _ _ H1), H2. cbn [st fx after out ret app].
  rewrite H3. repeat split; auto.
Qed.

Lemma querySelectorAll_numbers_the_matches_witness :
  let query := request 20 "DOM.querySelectorAll" [("selector", JStr "li")] in
  let r := onMessage (parse_among [query]) (to_json query) matching_world
             (session sample_connection) in
  frames (fx r) = [Response (JNum 20) (JObj [("nodeIds", JArr [JNum 1; JNum 2; JNum 3])])] ∧
  nodeIdCounter (st r) = 1 + 3 ∧
  (∀ i, (i < 3)%nat → nodeMap (st r) !! (1 + Z.of_nat i) = Some (nth_of_type "li" i)) ∧
  (∀ k, k < 1 → nodeMap (st r) !! k = nodeMap (session sample_connection) !! k).
Proof.
  intros query r.
  apply (querySelectorAll_numbers_the_matches _ (to_json query) query "DOM.querySelectorAll"
           matching_world (session sample_connection) 1%N "li" [JObj []; JObj []; JObj []]);
    try reflexivity.
  discriminate.
Defined.

(** X20. [DOM.removeNode] forgets the node only once the page has removed the
    element: then the node id is out of the node map, every other node id
    keeps its selector and the node counter is not taken back; when the page
    rejects the removal the reply is an error frame and the node id stays
    usable. *)
Theorem removeNode_forgets_the_node JSON_parse data request m w s p n selector :
  JSON_parse data = Some request → prop request "method" = JStr m →
  domain_of m = "DOM" → command_of m = Some "removeNode" →
  let params := js_or (prop request "params") empty_object in
  addressed_page s params = Some p →
  prop params "nodeId" = JNum n →
  nodeMap s !! n = Some selector → truthy selector = true →
  let r := onMessage JSON_parse data w s in
  match backend w "page.evaluate" [page_ref p; JStr "removeChild"; selector] with
  | Returns _ =>
      frames (fx r) = [Response (prop request "id") empty_object] ∧
      nodeMap (st r) !! n = None ∧
      (∀ k, k ≠ n → nodeMap (st r) !! k = nodeMap s !! k) ∧
      nodeIdCounter (st r) = nodeIdCounter s
  | Rejects err =>
      frames (fx r) = [ErrorFrame (prop request "id") (-32000) (error_text err "Unknown error")] ∧
      st r = s
  end.
Proof.
  intros Hp Hm Hd Hc params Hpage Hid Hnode Hsel r.
  destruct (onMessage_handled JSON_parse data request m w s Hp Hm) as [Hst Hfx].
  fold params in Hst, Hfx. subst r. rewrite Hst, Hfx. clear Hst Hfx.
  rewrite (handleCDPMethod_DOM _ _ _ _ p Hd Hpage), Hc.
  unfold handleDOM. pick_command.
  rewrite require_selector_run, Hid. cbn [nmap_get]. rewrite Hnode.
  change (default JUndefined (Some selector)) with selector. cbv zeta. rewrite Hsel.
  rewrite run_bind_call.
  destruct (backend w "page.evaluate" _) as [v|err]; [|by simpl].
  rewrite run_bind_modify. simpl. repeat split; auto.
  - apply lookup_delete_eq.
  - intros k Hk. by apply lookup_delete_ne.
Qed.

Lemma removeNode_forgets_the_node_witness :
  let remove := request 21 "DOM.removeNode" [("nodeId", JNum 1)] in
  let r := onMessage (parse_among [remove]) (to_json remove) quiet_world node_session in
  frames (fx r) = [Response (JNum 21) empty_object] ∧
  nodeMap (st r) !! 1 = None ∧
  (∀ k, k ≠ 1 → nodeMap (st r) !! k = nodeMap node_session !! k) ∧
  nodeIdCounter (st r) = 2.
Proof.
  intros remove r.
  exact (removeNode_forgets_the_node _ (to_json remove) remove "DOM.removeNode" quiet_world
           node_session 1%N 1 (JStr "li") eq_refl eq_refl eq_refl eq_refl eq_refl eq_refl
           eq_refl eq_refl).
Defined.

(** ** Extra HTTP headers *)

Lemma for_each_insert_headers w : ∀ (entries : list (string * JSValue)) s,
  for_each entries (fun entry => modify (with_extraHTTPHeaders (insert entry.1 entry.2))) w s =
  mkRes (Returns tt)
        (with_extraHTTPHeaders
           (fun headers => foldl (fun acc entry => <[entry.1:=entry.2]> acc) headers entries) s)
        [].
Proof.
  induction entries as [|entry entries IH]; intros s; simpl for_each.
  - destruct s. reflexivity.
  - rewrite run_bind_modify, IH. destruct s. reflexivity.
Qed.

Lemma foldl_insert_list_to_map (entries : list (string * JSValue)) : ∀ headers : gmap string JSValue,
  foldl (fun acc entry => <[entry.1:=entry.2]> acc) headers entries =
  list_to_map (reverse entries) ∪ headers.
Proof.
  induction entries as [|[k v] entries IH]; intros headers; simpl.
  - by rewrite (left_id_L ∅ (∪)).
  - rewrite IH, reverse_cons, list_to_map_app. simpl.
    rewrite <- (assoc_L (∪)). f_equal.
    by rewrite insert_empty, <- insert_union_singleton_l.
Qed.

(** X21. [Network.setExtraHTTPHeaders] replaces the headers kept in the
    session: afterwards they are exactly the members of [params.headers]
    (for a name given twice the later value), whatever was kept before and
    whether or not a page is addressed or takes the headers. The headers
    kept before are dropped first, so when [params.headers] is missing the
    reply is an error frame and the session is left with no headers at
    all. *)
Theorem setExtraHTTPHeaders_replaces_the_headers JSON_parse data request m w s :
  JSON_parse data = Some request → prop request "method" = JStr m →
  domain_of m = "Network" → command_of m = Some "setExtraHTTPHeaders" →
  let headers := prop (js_or (prop request "params") empty_object) "headers" in
  let r := onMessage JSON_parse data w s in
  match object_entries headers with
  | Some entries =>
      extraHTTPHeaders (st r) = list_to_map (reverse entries) ∧
      (NoDup entries.*1 → extraHTTPHeaders (st r) = list_to_map entries)
  | None =>
      extraHTTPHeaders (st r) = ∅ ∧
      fx r = [Send (ErrorFrame (prop request "id") (-32000)
                      "Cannot convert undefined or null to object")]
  end.
Proof.
  intros Hp Hm Hd Hc headers r.
  destruct (onMessage_handled JSON_parse data request m w s Hp Hm) as [Hst Hfx].
  subst r. rewrite Hst, Hfx. clear Hst Hfx.
  rewrite (handleCDPMethod_Network _ _ _ _ Hd), Hc.
  unfold handleNetwork. pick_command. fold headers. rewrite run_bind_modify.
  destruct (object_entries headers) as [entries|].
  - assert (Hout : ∀ s0, out (for_each entries
                     (fun entry => modify (with_extraHTTPHeaders (insert entry.1 entry.2))) w s0)
                   = Returns tt) by (intros; by rewrite for_each_insert_headers).
    rewrite (run_bind_returns _ _ _ _ _ (Hout _)), for_each_insert_headers.
    cbn [st fx after out].
    match goal with
    | |- ?kept = _ ∧ _ => assert (Hkept : kept = list_to_map (reverse entries))
    end.
    { destruct (addressed_page s _).
      - rewrite run_bind_call. destruct (backend w _ _); simpl;
          by rewrite foldl_insert_list_to_map, (right_id_L ∅ (∪)).
      - rewrite run_bind_ret. simpl. by rewrite foldl_insert_list_to_map, (right_id_L ∅ (∪)). }
    rewrite Hkept. split; [reflexivity|].
    intros Hnodup. symmetry. apply list_to_map_proper; [exact Hnodup|].
    by rewrite reverse_Permutation.
  - unfold throw_TypeError. rewrite run_bind_throw. simpl. auto.
Qed.

Lemma setExtraHTTPHeaders_replaces_the_headers_witness :
  let set := request 71 "Network.setExtraHTTPHeaders"
               [("headers", JObj [("X-Trace", JStr "1"); ("Accept", JStr "text/html")])] in
  let before := with_extraHTTPHeaders (insert "Authorization" (JStr "Bearer old"))
                  (session sample_connection) in
  let r := onMessage (parse_among [set]) (to_json set) quiet_world before in
  extraHTTPHeaders (st r) =
    list_to_map (reverse [("X-Trace", JStr "1"); ("Accept", JStr "text/html")]) ∧
  (NoDup ["X-Trace"; "Accept"] →
   extraHTTPHeaders (st r) = list_to_map [("X-Trace", JStr "1"); ("Accept", JStr "text/html")]).
Proof.
  intros set before r.
  exact (setExtraHTTPHeaders_replaces_the_headers _ (to_json set) set
           "Network.setExtraHTTPHeaders" quiet_world before eq_refl eq_refl eq_refl eq_refl).
Defined.

(** ** Cookies *)

Lemma deleteCookie_loop w s p (deleted : JSValue → JSValue) : ∀ items : list JSValue,
  Forall (fun cookie => backend w "page.deleteCookie" [page_ref p; cookie] =
                        Returns (deleted cookie)) items →
  for_each items (fun cookie => _ ← call "page.deleteCookie" [page_ref p; cookie]; ret tt) w s =
  mkRes (Returns tt) s (map (fun cookie => Call "page.deleteCookie" [page_ref p; cookie]) items).
Proof.
  induction 1 as [|cookie items Hcookie _ IH]; simpl for_each; [reflexivity|].
  rewrite run_bind_assoc, run_bind_call, Hcookie. cbv beta iota.
  rewrite run_bind_ret, IH. reflexivity.
Qed.

(** X22. [Network.clearBrowserCookies] asks the page for its cookies and then
    deletes them one by one, each exactly once and in the order in which the
    page listed them, before it answers [{}]; the session is left as it
    was. *)
Theorem clearBrowserCookies_deletes_every_cookie
    JSON_parse data request m w s p items (deleted : JSValue → JSValue) :
  JSON_parse data = Some request → prop request "method" = JStr m →
  domain_of m = "Network" → command_of m = Some "clearBrowserCookies" →
  addressed_page s (js_or (prop request "params") empty_object) = Some p →
  backend w "page.cookies" [page_ref p] = Returns (JArr items) →
  Forall (fun cookie => backend w "page.deleteCookie" [page_ref p; cookie] =
                        Returns (deleted cookie)) items →
  let r := onMessage JSON_parse data w s in
  fx r = Call "page.cookies" [page_ref p] ::
         map (fun cookie => Call "page.deleteCookie" [page_ref p; cookie]) items ++
         [Send (Response (prop request "id") empty_object)] ∧
  st r = s.
Proof.
  intros Hp Hm Hd Hc Hpage Hcookies Hall r.
  destruct (onMessage_handled JSON_parse data request m w s Hp Hm) as [Hst Hfx].
  subst r. rewrite Hst, Hfx. clear Hst Hfx.
  rewrite (handleCDPMethod_Network _ _ _ _ Hd), Hc, Hpage.
  unfold handleNetwork, require_page. pick_command.
  rewrite run_bind_ret, run_bind_call, Hcookies. cbv beta iota.
  assert (Hout : out (for_each items
                        (fun cookie => _ ← call "page.deleteCookie" [page_ref p; cookie]; ret tt)
                        w s) = Returns tt) by (by rewrite (deleteCookie_loop _ _ _ deleted)).
  rewrite (run_bind_returns _ _ _ _ _ Hout), (deleteCookie_loop _ _ _ deleted _ Hall).
  simpl. by rewrite app_nil_r.
Qed.

Lemma clearBrowserCookies_deletes_every_cookie_witness :
  let clear := request 72 "Network.clearBrowserCookies" [] in
  let sid := JObj [("name", JStr "sid")] in
  let theme := JObj [("name", JStr "theme")] in
  let w := world_of [("page.cookies", Returns (JArr [sid; theme]))] 3%N "L1" in
  let r := onMessage (parse_among [clear]) (to_json clear) w (session sample_connection) in
  fx r = Call "page.cookies" [page_ref 1%N] ::
         map (fun cookie => Call "page.deleteCookie" [page_ref 1%N; cookie]) [sid; theme] ++
         [Send (Response (JNum 72) empty_object)] ∧
  st r = session sample_connection.
Proof.
  intros clear sid theme w r.
  apply (clearBrowserCookies_deletes_every_cookie _ (to_json clear) clear
           "Network.clearBrowserCookies" w (session sample_connection) 1%N [sid; theme]
           (fun _ => JUndefined)); try reflexivity.
  repeat constructor.
Defined.

(** ** Request interception *)

Lemma connection_eta c : {| session := session c; listeners := listeners c |} = c.
Proof. by destruct c. Qed.

Lemma onRequest_disabled patterns request w s :
  requestInterceptionEnabled s = false →
  fx (onRequest patterns request w s) = [Call "request.continue" [request_ref request; JUndefined]] ∧
  st (onRequest patterns request w s) = s.
Proof.
  intros Hoff. unfold onRequest. rewrite run_bind_gets, Hoff. change (negb false) with true.
  cbv iota. rewrite run_bind_call. by destruct (backend w _ _).
Qed.

(** X23. [Fetch.disable] switches interception off without removing the
    listeners installed so far and without touching the requests that are
    parked: they stay in the pending map and can still be resolved. Every
    request the browser then reports to a listener is let through with
    [request.continue()], is not parked and is not announced. *)
Theorem disabled_interception_lets_requests_through
    JSON_parse data request m w w' c p k listener intercepted :
  JSON_parse data = Some request → prop request "method" = JStr m →
  domain_of m = "Fetch" → command_of m = Some "disable" →
  addressed_page (session c) (js_or (prop request "params") empty_object) = Some p →
  listeners c !! k = Some listener →
  let disabled := (step JSON_parse w (Message data) c).1 in
  requestInterceptionEnabled (session disabled) = false ∧
  pendingRequests (session disabled) = pendingRequests (session c) ∧
  listeners disabled = listeners c ∧
  step JSON_parse w' (RequestEvent k intercepted) disabled =
    (disabled, [Call "request.continue" [request_ref intercepted; JUndefined]]).
Proof.
  intros Hp Hm Hd Hc Hpage Hk disabled.
  destruct (onMessage_handled JSON_parse data request m w (session c) Hp Hm) as [Hst Hfx].
  rewrite (handleCDPMethod_Fetch _ _ _ _ p Hd Hpage), Hc in Hst, Hfx.
  assert (Hrun : ∃ o, handleFetch p (Some "disable") (js_or (prop request "params") empty_object)
                          w (session c) =
                        mkRes o (with_requestInterceptionEnabled false (session c))
                          [Call "page.setRequestInterception" [page_ref p; JBool false]]).
  { unfold handleFetch. pick_command. rewrite run_bind_modify, run_bind_call.
    destruct (backend w _ _); eexists; reflexivity. }
  destruct Hrun as (o & Hrun). rewrite Hrun in Hst, Hfx. simpl in Hst, Hfx.
  assert (Hoff : requestInterceptionEnabled (session disabled) = false).
  { subst disabled. simpl. by rewrite Hst. }
  assert (Hl : listeners disabled = listeners c).
  { subst disabled. simpl. rewrite Hfx. simpl. by rewrite app_nil_r. }
  split; [exact Hoff|]. split; [subst disabled; simpl; by rewrite Hst|]. split; [exact Hl|].
  clearbody disabled. unfold step. rewrite <- Hl in Hk. rewrite Hk.
  destruct listener as [page patterns].
  cbv beta iota zeta.
  destruct (onRequest_disabled patterns intercepted w' (session disabled) Hoff) as [Hfx' Hst'].
  by rewrite Hfx', Hst', connection_eta.
Qed.

Lemma disabled_interception_lets_requests_through_witness :
  let disable := request 81 "Fetch.disable" [] in
  let c := {| session := with_pendingRequests (insert "R1" sample_request)
                           (session intercepting_connection);
              listeners := listeners intercepting_connection |} in
  let disabled := (step (parse_among [disable]) quiet_world (Message (to_json disable)) c).1 in
  requestInterceptionEnabled (session disabled) = false ∧
  pendingRequests (session disabled) = pendingRequests (session c) ∧
  listeners disabled = listeners c ∧
  step (parse_among [disable]) quiet_world (RequestEvent 0 sample_request) disabled =
    (disabled, [Call "request.continue" [request_ref sample_request; JUndefined]]).
Proof.
  intros disable c disabled.
  apply (disabled_interception_lets_requests_through _ (to_json disable) disable "Fetch.disable"
           quiet_world quiet_world c 1%N 0%nat (1%N, JUndefined) sample_request); reflexivity.
Defined.

Lemma onRequest_unfiltered patterns request w s :
  requestInterceptionEnabled s = true →
  truthy patterns = false ∨ patterns = JArr [] →
  onRequest patterns request w s =
  mkRes (Returns tt) (with_pendingRequests (insert (randomUUID w) request) s)
        [Send (requestPaused s (randomUUID w) request)].
Proof.
  intros Hon Hpat. unfold onRequest. rewrite run_bind_gets, Hon. change (negb true) with false.
  cbv iota. rewrite run_bind_uuid.
  assert (Hinit : negb (truthy patterns) || is_zero (prop patterns "length") = true).
  { destruct Hpat as [Hpat| ->]; [by rewrite Hpat | reflexivity]. }
  rewrite Hinit.
  assert (Hshould : (if truthy patterns
                     then match patterns with
                          | JArr items => matches_some_pattern (req_url request) items true
                          | JStr s0 => matches_some_pattern (req_url request) (string_chars s0) true
                          | _ => throw_TypeError "patterns is not iterable"
                          end
                     else ret true) = ret true).
  { destruct Hpat as [Hpat| ->]; [by rewrite Hpat | reflexivity]. }
  rewrite Hshould, run_bind_ret. cbv iota.
  rewrite run_bind_modify, run_bind_gets. reflexivity.
Qed.

Lemma handleFetch_continueRequest_plain p params w s rid pending v :
  prop params "requestId" = JStr rid →
  pendingRequests s !! rid = Some pending →
  truthy (prop params "url") = false → truthy (prop params "method") = false →
  truthy (prop params "postData") = false → truthy (prop params "headers") = false →
  backend w "request.continue" [request_ref pending; JUndefined] = Returns v →
  handleFetch p (Some "continueRequest") params w s =
  mkRes (Returns empty_object) (with_pendingRequests (delete rid) s)
        [Call "request.continue" [request_ref pending; JUndefined]].
Proof.
  intros Hrid Hsome Hu Hm Hpd Hh Hcall. unfold handleFetch. pick_command.
  rewrite require_pending_run, Hrid. cbn [smap_get]. rewrite Hsome.
  unfold option_field. rewrite Hu, Hm, Hpd, Hh. rewrite run_bind_ret. simpl app. cbv iota.
  rewrite run_bind_call, Hcall. cbv beta iota. rewrite run_bind_modify. reflexivity.
Qed.

(** X24. With interception enabled and no patterns given (none, or an empty
    list), every request the browser reports to a listener is parked under a
    fresh request id and announced by one [Fetch.requestPaused] event that
    carries that id, the request and the default target id as [frameId];
    the request itself is not continued. A [Fetch.continueRequest] on the
    announced id then continues that very request and, the id being fresh,
    leaves the pending map as it was before the request was parked. *)
Theorem intercepted_request_is_parked_and_announced
    JSON_parse data request m w w' c k page patterns intercepted p v :
  listeners c !! k = Some (page, patterns) →
  requestInterceptionEnabled (session c) = true →
  truthy patterns = false ∨ patterns = JArr [] →
  pendingRequests (session c) !! randomUUID w = None →
  JSON_parse data = Some request → prop request "method" = JStr m →
  domain_of m = "Fetch" → command_of m = Some "continueRequest" →
  let params := js_or (prop request "params") empty_object in
  prop params "requestId" = JStr (randomUUID w) →
  truthy (prop params "url") = false → truthy (prop params "method") = false →
  truthy (prop params "postData") = false → truthy (prop params "headers") = false →
  let paused := step JSON_parse w (RequestEvent k intercepted) c in
  addressed_page (session paused.1) params = Some p →
  backend w' "request.continue" [request_ref intercepted; JUndefined] = Returns v →
  let continued := step JSON_parse w' (Message data) paused.1 in
  paused.2 = [Send (requestPaused (session c) (randomUUID w) intercepted)] ∧
  pendingRequests (session paused.1) !! randomUUID w = Some intercepted ∧
  continued.2 = [Call "request.continue" [request_ref intercepted; JUndefined];
                 Send (Response (prop request "id") empty_object)] ∧
  pendingRequests (session continued.1) = pendingRequests (session c).
Proof.
  intros Hk Hon Hpat Hfresh Hp Hm Hd Hc params Hrid Hu Hme Hpd Hh paused Hpage Hcall continued.
  assert (Hpaused : paused = ({| session := with_pendingRequests (insert (randomUUID w) intercepted)
                                              (session c);
                                 listeners := listeners c |},
                              [Send (requestPaused (session c) (randomUUID w) intercepted)])).
  { subst paused. unfold step. rewrite Hk. cbv beta iota zeta.
    by rewrite (onRequest_unfiltered _ _ _ _ Hon Hpat). }
  assert (Hparked : pendingRequests (session paused.1) !! randomUUID w = Some intercepted).
  { rewrite Hpaused. simpl. apply lookup_insert_eq. }
  destruct (onMessage_handled JSON_parse data request m w' (session paused.1) Hp Hm) as [Hst Hfx].
  fold params in Hst, Hfx.
  rewrite (handleCDPMethod_Fetch _ _ _ _ p Hd Hpage), Hc,
    (handleFetch_continueRequest_plain _ _ _ _ _ _ _ Hrid Hparked Hu Hme Hpd Hh Hcall) in Hst, Hfx.
  simpl in Hst, Hfx.
  split; [by rewrite Hpaused|]. split; [exact Hparked|].
  subst continued. simpl step. rewrite Hfx, Hst. simpl. split; [reflexivity|].
  rewrite Hpaused. simpl. by rewrite delete_insert_id.
Qed.

Lemma intercepted_request_is_parked_and_announced_witness :
  let continue := request 12 "Fetch.continueRequest" [("requestId", JStr "R1")] in
  let parse := parse_among [continue] in
  let paused := step parse (naming_world "R1") (RequestEvent 0 sample_request)
                  intercepting_connection in
  let continued := step parse quiet_world (Message (to_json continue)) paused.1 in
  paused.2 = [Send (requestPaused (session intercepting_connection) "R1" sample_request)] ∧
  pendingRequests (session paused.1) !! "R1" = Some sample_request ∧
  continued.2 = [Call "request.continue" [request_ref sample_request; JUndefined];
                 Send (Response (JNum 12) empty_object)] ∧
  pendingRequests (session continued.1) = pendingRequests (session intercepting_connection).
Proof.
  intros continue parse paused continued.
  apply (intercepted_request_is_parked_and_announced parse (to_json continue) continue
           "Fetch.continueRequest" (naming_world "R1") quiet_world intercepting_connection
           0%nat 1%N JUndefined sample_request 1%N JUndefined); try reflexivity.
  by left.
Defined.

Lemma matches_some_pattern_run url w s (matched : JSValue → JSValue) otherwise :
  ∀ patterns : list JSValue,
  Forall (fun pattern =>
            nullish pattern = false ∧
            (truthy (prop pattern "urlPattern") = true →
             backend w "String.prototype.match" [JStr url; prop pattern "urlPattern"] =
               Returns (matched pattern))) patterns →
  let r := matches_some_pattern url patterns otherwise w s in
  out r = Returns (existsb (pattern_matches matched) patterns || otherwise) ∧
  st r = s ∧
  Forall (fun e => ∃ args, e = Call "String.prototype.match" args) (fx r).
Proof.
  induction 1 as [|pattern patterns [Hnull Hmatch] _ IH]; cbv zeta.
  - simpl. auto.
  - simpl matches_some_pattern. rewrite run_bind_member, Hnull. unfold pattern_matches at 1.
    simpl existsb. fold (pattern_matches matched).
    destruct (truthy (prop pattern "urlPattern")) eqn:Hurl.
    + change (negb true) with false. cbv iota.
      rewrite run_bind_call, (Hmatch eq_refl). cbv beta iota.
      destruct (truthy (matched pattern)); simpl orb.
      * simpl. repeat split; auto. repeat constructor. eauto.
      * destruct IH as (H1 & H2 & H3). simpl. rewrite H1, H2. repeat split; auto.
        constructor; eauto.
    + change (negb false) with true. cbv iota. simpl. auto.
Qed.

(** X25. With interception enabled and a list of patterns given, a request
    reported to a listener is parked and announced exactly when the list is
    empty or one of its patterns lets the url through (the pattern has no
    [urlPattern], or the url matches it); otherwise the request is continued
    at once, nothing is parked and nothing is written to the socket. *)
Theorem patterns_decide_interception JSON_parse w c k page patterns intercepted
    (matched : JSValue → JSValue) :
  listeners c !! k = Some (page, JArr patterns) →
  requestInterceptionEnabled (session c) = true →
  Forall (fun pattern =>
            nullish pattern = false ∧
            (truthy (prop pattern "urlPattern") = true →
             backend w "String.prototype.match"
               [JStr (req_url intercepted); prop pattern "urlPattern"] =
               Returns (matched pattern))) patterns →
  let intercept := existsb (pattern_matches matched) patterns || Nat.eqb (length patterns) 0 in
  let handled := step JSON_parse w (RequestEvent k intercepted) c in
  frames handled.2 =
    (if intercept then [requestPaused (session c) (randomUUID w) intercepted] else []) ∧
  pendingRequests (session handled.1) =
    (if intercept then <[randomUUID w:=intercepted]> (pendingRequests (session c))
     else pendingRequests (session c)) ∧
  (In (Call "request.continue" [request_ref intercepted; JUndefined]) handled.2 ↔
   intercept = false).
Proof.
  intros Hk Hon Hall intercept handled.
  subst handled. unfold step. rewrite Hk. cbv beta iota zeta. cbn [fst snd session].
  unfold onRequest. rewrite run_bind_gets, Hon. change (negb true) with false. cbv iota.
  rewrite run_bind_uuid. change (truthy (JArr patterns)) with true. cbv iota.
  destruct (matches_some_pattern_run (req_url intercepted) w (session c) matched
              (negb true || is_zero (prop (JArr patterns) "length")) patterns Hall)
    as (H1 & H2 & H3).
  rewrite (run_bind_returns _ _ _ _ _ H1), H2.
  assert (Hsame : existsb (pattern_matches matched) patterns ||
                  (negb true || is_zero (prop (JArr patterns) "length")) = intercept).
  { subst intercept. f_equal. simpl. by destruct patterns. }
  rewrite Hsame.
  assert (Hquiet : frames (fx (matches_some_pattern (req_url intercepted) patterns
                                 (negb true || is_zero (prop (JArr patterns) "length"))
                                 w (session c))) = [] ∧
                   ¬ In (Call "request.continue" [request_ref intercepted; JUndefined])
                        (fx (matches_some_pattern (req_url intercepted) patterns
                               (negb true || is_zero (prop (JArr patterns) "length"))
                               w (session c)))).
  { revert H3. generalize (fx (matches_some_pattern (req_url intercepted) patterns
                                 (negb true || is_zero (prop (JArr patterns) "length"))
                                 w (session c))).
    induction 1 as [|e l [args ->] _ [IH1 IH2]]; [by auto|].
    split; [exact IH1|]. intros [Heq|Hin]; [discriminate | auto]. }
  destruct Hquiet as [Hframes Hnot].
  destruct intercept.
  - rewrite run_bind_modify, run_bind_gets. unfold sendEvent, emit, after.
    cbn [fx st out]. rewrite frames_app, Hframes. split; [reflexivity|]. split; [reflexivity|].
    split; [|discriminate]. intros Hin. apply in_app_or in Hin as [Hin|Hin]; [by apply Hnot in Hin|].
    simpl in Hin. destruct Hin as [Hin|[]]. discriminate.
  - rewrite run_bind_call. unfold after.
    destruct (backend w "request.continue" _); cbn [fx st out];
      rewrite ?frames_app, ?Hframes, ?app_nil_r; (split; [reflexivity|]); (split; [reflexivity|]);
      (split; [reflexivity|]); intros _; apply in_or_app; right; simpl; auto.
Qed.

Lemma patterns_decide_interception_witness :
  let images := JObj [("urlPattern", JStr "\.png$")] in
  let c patterns := {| session := session intercepting_connection;
                       listeners := [(1%N, JArr patterns)] |} in
  let w := world_of [] 1%N "R1" in
  let handled patterns := step (parse_among []) w (RequestEvent 0 sample_request) (c patterns) in
  (frames (handled [images]).2 = [] ∧
   pendingRequests (session (handled [images]).1) = ∅ ∧
   (In (Call "request.continue" [request_ref sample_request; JUndefined]) (handled [images]).2 ↔
    false = false)) ∧
  (frames (handled []).2 = [requestPaused (session intercepting_connection) "R1" sample_request] ∧
   pendingRequests (session (handled []).1) = <["R1":=sample_request]> ∅ ∧
   (In (Call "request.continue" [request_ref sample_request; JUndefined]) (handled []).2 ↔
    true = false)).
Proof.
  intros images c w handled. split.
  - apply (patterns_decide_interception (parse_among []) w (c [images]) 0%nat 1%N [images]
             sample_request (fun _ => JUndefined)); try reflexivity.
    repeat constructor.
  - apply (patterns_decide_interception (parse_among []) w (c []) 0%nat 1%N []
             sample_request (fun _ => JUndefined)); try reflexivity.
    constructor.
Defined.

(** ** Listeners *)

Lemma step_listeners JSON_parse w i c : listeners c `prefix_of` listeners (step JSON_parse w i c).1.
Proof.
  destruct i as [data|k request]; simpl.
  - apply prefix_app_r. reflexivity.
  - destruct (listeners c !! k) as [[page patterns]|]; reflexivity.
Qed.

Lemma handleFetch_enable p params w s v :
  backend w "page.setRequestInterception" [page_ref p; JBool true] = Returns v →
  handleFetch p (Some "enable") params w s =
  mkRes (Returns empty_object) (with_requestInterceptionEnabled true s)
        [Call "page.setRequestInterception" [page_ref p; JBool true];
         OnRequest p (prop params "patterns")].
Proof.
  intros Hcall. unfold handleFetch. pick_command.
  rewrite run_bind_modify, run_bind_call, Hcall. cbv beta iota. rewrite run_bind_emit.
  reflexivity.
Qed.

(** X26. Listeners are only ever added. [Fetch.enable] installs one more
    [request] listener on the addressed page each time it is served, next to
    those already installed (it replaces none, also when interception is
    already on), and no input, [Fetch.disable] included, removes one. *)
Theorem listeners_are_only_added JSON_parse data request m w c p v inputs :
  JSON_parse data = Some request → prop request "method" = JStr m →
  domain_of m = "Fetch" → command_of m = Some "enable" →
  let params := js_or (prop request "params") empty_object in
  addressed_page (session c) params = Some p →
  backend w "page.setRequestInterception" [page_ref p; JBool true] = Returns v →
  let enabled := step JSON_parse w (Message data) c in
  listeners enabled.1 = listeners c ++ [(p, prop params "patterns")] ∧
  requestInterceptionEnabled (session enabled.1) = true ∧
  pendingRequests (session enabled.1) = pendingRequests (session c) ∧
  frames enabled.2 = [Response (prop request "id") empty_object] ∧
  listeners enabled.1 `prefix_of` listeners (run JSON_parse enabled.1 inputs).1.
Proof.
  intros Hp Hm Hd Hc params Hpage Hcall enabled.
  destruct (onMessage_handled JSON_parse data request m w (session c) Hp Hm) as [Hst Hfx].
  fold params in Hst, Hfx.
  rewrite (handleCDPMethod_Fetch _ _ _ _ p Hd Hpage), Hc,
    (handleFetch_enable _ _ _ _ _ Hcall) in Hst, Hfx.
  simpl in Hst, Hfx.
  assert (Hgrow : ∀ inputs c0, listeners c0 `prefix_of` listeners (run JSON_parse c0 inputs).1).
  { clear. induction inputs as [|[w i] rest IH]; intros c0; [reflexivity|].
    rewrite run_cons. simpl. etrans; [apply (step_listeners JSON_parse w i)|apply IH]. }
  split; [|split; [|split; [|split]]]; [..|apply Hgrow];
    subst enabled; simpl; rewrite ?Hfx, ?Hst; reflexivity.
Qed.

Lemma listeners_are_only_added_witness :
  let enable := request 11 "Fetch.enable" [("patterns", JArr [])] in
  let disable := request 81 "Fetch.disable" [] in
  let parse := parse_among [enable; disable] in
  let enabled := step parse quiet_world (Message (to_json enable)) intercepting_connection in
  listeners enabled.1 = [(1%N, JUndefined); (1%N, JArr [])] ∧
  requestInterceptionEnabled (session enabled.1) = true ∧
  pendingRequests (session enabled.1) = ∅ ∧
  frames enabled.2 = [Response (JNum 11) empty_object] ∧
  listeners enabled.1 `prefix_of`
    listeners (run parse enabled.1 [(quiet_world, Message (to_json disable))]).1.
Proof.
  intros enable disable parse enabled.
  apply (listeners_are_only_added parse (to_json enable) enable "Fetch.enable" quiet_world
           intercepting_connection 1%N JUndefined); reflexivity.
Defined.

(** ** Commands that only read the session *)

Lemma lookup_command_In {C} (table : list (string * C)) command v :
  lookup_command table command = Some v → ∃ c, command = Some c ∧ In (c, v) table.
Proof.
  destruct command as [c|]; [|discriminate]. simpl.
  destruct (find _ table) as [[c' v']|] eqn:Hfind; [|discriminate].
  simpl. intros [= <-]. apply find_some in Hfind as [Hin Heq].
  apply String.eqb_eq in Heq. simpl in Heq. subst c'. eauto.
Qed.

(** From the case taken by a [switch] to its label; closes the goal when the
    label is one of the writers. *)
Ltac writer_case Hl Hw :=
  apply lookup_command_In in Hl; destruct Hl as (? & -> & Hl); simpl in Hl;
  repeat (destruct Hl as [Hl|Hl];
          [first [discriminate Hl | injection Hl as <-; vm_compute in Hw; discriminate Hw]|]);
  destruct Hl.

Ltac reads_or_writes Hl Hw := first [solve [obeys_auto] | exfalso; writer_case Hl Hw].

Lemma handleBrowser_reads command params :
  obeys eq any_effect (handleBrowser command params).
Proof. unfold handleBrowser. obeys_auto. Qed.

Lemma handleTarget_reads command params :
  writes_session "Target" command = false → obeys eq any_effect (handleTarget command params).
Proof.
  intros Hw. unfold handleTarget.
  destruct (lookup_command target_commands command) as [[]|] eqn:Hl; reads_or_writes Hl Hw.
Qed.

Lemma handlePage_reads page command params :
  writes_session "Page" command = false → obeys eq any_effect (handlePage page command params).
Proof.
  intros Hw. unfold handlePage, inches_field.
  destruct (lookup_command page_commands command) as [[]|] eqn:Hl; reads_or_writes Hl Hw.
Qed.

Lemma handleRuntime_reads page command params :
  writes_session "Runtime" command = false →
  obeys eq any_effect (handleRuntime page command params).
Proof.
  intros Hw. unfold handleRuntime.
  destruct (lookup_command runtime_commands command) as [[]|] eqn:Hl; reads_or_writes Hl Hw.
Qed.

Lemma handleDOM_reads page command params :
  writes_session "DOM" command = false → obeys eq any_effect (handleDOM page command params).
Proof.
  intros Hw. unfold handleDOM, require_selector, node_selector, toQuad, js_add, to_primitive.
  destruct (lookup_command dom_commands command) as [[]|] eqn:Hl; reads_or_writes Hl Hw.
Qed.

Lemma handleInput_reads page command params :
  obeys eq any_effect (handleInput page command params).
Proof. unfold handleInput. obeys_auto. Qed.

Lemma handleNetwork_reads page command params :
  writes_session "Network" command = false →
  obeys eq any_effect (handleNetwork page command params).
Proof.
  intros Hw. unfold handleNetwork, require_page, js_add, to_primitive.
  destruct (lookup_command network_commands command) as [[]|] eqn:Hl; reads_or_writes Hl Hw.
Qed.

Lemma handleEmulation_reads page command params :
  obeys eq any_effect (handleEmulation page command params).
Proof. unfold handleEmulation. obeys_auto. Qed.

Lemma handleFetch_reads page command params :
  writes_session "Fetch" command = false → obeys eq any_effect (handleFetch page command params).
Proof.
  intros Hw. unfold handleFetch.
  destruct (lookup_command fetch_commands command) as [[]|] eqn:Hl; reads_or_writes Hl Hw.
Qed.

Lemma handleCDPMethod_reads m params :
  writes_session (domain_of m) (command_of m) = false →
  obeys eq any_effect (handleCDPMethod (JStr m) params).
Proof.
  intros Hw. unfold handleCDPMethod.
  apply obeys_bind; [exact _ | obeys_auto |]. intros s.
  destruct (lookup_command domains (Some (domain_of m))) as [d|] eqn:Hdom; [|obeys_auto].
  apply lookup_command_In in Hdom as (c & [= <-] & Hin). simpl in Hin.
  repeat (destruct Hin as [Hin|Hin];
          [injection Hin as Hname <-; rewrite <- Hname in Hw;
           try (apply obeys_bind; [exact _ | apply require_target_obeys; exact _ |]; intros p)|]);
    [..|destruct Hin].
  - apply handleBrowser_reads.
  - by apply handleTarget_reads.
  - by apply handlePage_reads.
  - by apply handleRuntime_reads.
  - by apply handleDOM_reads.
  - apply handleInput_reads.
  - by apply handleNetwork_reads.
  - apply handleEmulation_reads.
  - by apply handleFetch_reads.
Qed.

(** X27. Apart from eighteen commands ([Target.createTarget] and
    [closeTarget], the two script commands of Page, [Runtime.evaluate],
    [callFunctionOn], [releaseObject] and [releaseObjectGroup],
    [DOM.getDocument], [querySelector], [querySelectorAll] and [removeNode],
    [Network.setExtraHTTPHeaders] and the Fetch commands other than
    [getResponseBody]), no message changes the session, whatever its
    parameters and whatever the backend answers: not the other commands,
    not an unknown method, not a text that does not parse. *)
Theorem other_messages_leave_the_session JSON_parse data w s :
  message_may_write JSON_parse data = false →
  st (onMessage JSON_parse data w s) = s.
Proof.
  unfold message_may_write. intros Hw.
  destruct (JSON_parse data) as [request|] eqn:Hp; [|unfold onMessage; by rewrite Hp].
  destruct (nullish request) eqn:Hn.
  { unfold onMessage. by rewrite Hp, run_bind_member, Hn. }
  destruct (onMessage_run JSON_parse data request w s Hp Hn) as [-> _].
  assert (H : obeys eq any_effect
                (handleCDPMethod (prop request "method") (js_or (prop request "params") empty_object))).
  { destruct (prop request "method") as [| | | | |m| |];
      try solve [unfold handleCDPMethod; obeys_auto]. by apply handleCDPMethod_reads. }
  symmetry. apply H.
Qed.

Lemma other_messages_leave_the_session_witness :
  let navigate := request 4 "Page.navigate" [("url", JStr "https://example.com")] in
  st (onMessage (parse_among [navigate]) (to_json navigate) browsing_world
        (session sample_connection)) = session sample_connection.
Proof.
  intros navigate.
  apply (other_messages_leave_the_session (parse_among [navigate]) (to_json navigate)).
  reflexivity.
Defined.

(** ** What the routes advertise *)

(** X28. The methods that [cdp.get('/')] advertises as supported are exactly
    the methods the dispatcher has a case for, except for the six no-ops
    [enable] and [disable] of Page, Runtime and DOM, which are served
    without being advertised. *)
Theorem advertised_methods_are_the_dispatched_ones m :
  In m dispatched_methods ↔
  In m supported_methods ∨
  In m ["Page.enable"; "Page.disable"; "Runtime.enable"; "Runtime.disable";
        "DOM.enable"; "DOM.disable"].
Proof.
  rewrite <- in_app_iff.
  set (advertised := supported_methods ++ _).
  assert (H1 : forallb (fun x => existsb (String.eqb x) advertised) dispatched_methods = true)
    by (vm_compute; reflexivity).
  assert (H2 : forallb (fun x => existsb (String.eqb x) dispatched_methods) advertised = true)
    by (vm_compute; reflexivity).
  rewrite forallb_forall in H1, H2.
  split; intros Hin.
  - apply H1 in Hin. apply existsb_exists in Hin as (x & Hx & Heq).
    apply String.eqb_eq in Heq. by subst.
  - apply H2 in Hin. apply existsb_exists in Hin as (x & Hx & Heq).
    apply String.eqb_eq in Heq. by subst.
Qed.

(** X29. The three discovery routes guard themselves exactly as the upgrade
    route does: for the same secret and environment they answer 503 and 401
    with the same error where the upgrade route does, and 200 where it
    switches protocols. What they then advertise is the address of the
    upgrade route on the same host, [wss:] for an [https:] request and [ws:]
    otherwise, carrying the configured secret; [/json] answers as
    [/json/list]. *)
Theorem discovery_routes_share_the_gate (encodeURIComponent : string → string) req env upgrade :
  match upgradeHeader upgrade with
  | Some h => String.eqb (toLowerCase h) "websocket" = true
  | None => False
  end →
  providedSecret upgrade = url_secret req →
  cdp_get_json encodeURIComponent req env = cdp_get_json_list encodeURIComponent req env ∧
  Forall (fun reply =>
            match cdp_get_root upgrade env with
            | Json status error =>
                reply_status reply = status ∧ prop (reply_body reply) "error" = JStr error
            | SwitchingProtocols =>
                reply_status reply = 200 ∧
                ∃ expected, CDP_SECRET env = Some expected ∧
                  advertised_url (reply_body reply) =
                    JStr ((if String.eqb (url_protocol req) "https:" then "wss:" else "ws:") +:+
                          "//" +:+ url_host req +:+ "/cdp?secret=" +:+
                          encodeURIComponent expected)
            end)
         [cdp_get_json_version encodeURIComponent req env;
          cdp_get_json_list encodeURIComponent req env;
          cdp_get_json encodeURIComponent req env].
Proof.
  intros Hup Hsecret. split; [reflexivity|].
  unfold cdp_get_root, cdp_get_json_version, cdp_get_json_list, cdp_get_json.
  destruct (upgradeHeader upgrade) as [h|]; [|contradiction]. rewrite Hup, Hsecret.
  change (negb true) with false. cbv iota.
  destruct (CDP_SECRET env) as [[|c expected]|]; [by repeat constructor| |by repeat constructor].
  destruct (url_secret req) as [[|c' provided]|]; [by repeat constructor| |by repeat constructor].
  destruct (timingSafeEqual (String c' provided) (String c expected)) eqn:Heq;
    [|by repeat constructor].
  apply timingSafeEqual_spec in Heq. rewrite Heq.
  change (negb true) with false. cbv iota.
  destruct (BROWSER env); [|by repeat constructor].
  change (negb true) with false. cbv iota.
  repeat constructor; eexists; (split; [reflexivity|]); reflexivity.
Qed.

Lemma discovery_routes_share_the_gate_witness :
  let req := {| url_protocol := "https:"; url_host := "bot.example.com";
                url_secret := Some "s3cret" |} in
  let encode (s : string) := s in
  cdp_get_json encode req sample_env = cdp_get_json_list encode req sample_env ∧
  Forall (fun reply =>
            reply_status reply = 200 ∧
            ∃ expected, Some "s3cret" = Some expected ∧
              advertised_url (reply_body reply) =
                JStr ("wss:" +:+ "//" +:+ "bot.example.com" +:+ "/cdp?secret=" +:+ expected))
         [cdp_get_json_version encode req sample_env;
          cdp_get_json_list encode req sample_env;
          cdp_get_json encode req sample_env].
Proof.
  intros req encode.
  apply (discovery_routes_share_the_gate encode req sample_env (upgrade_with (Some "s3cret")));
    reflexivity.
Defined.

(** ** What redaction lets through *)

Lemma JsMap_set_In {V} k (v : V) m x : In x (JsMap.set k v m) → x = (k, v) ∨ In x m.
Proof.
  induction m as [|[k0 v0] m IH]; simpl.
  - intros [H|[]]. auto.
  - destruct (String.eqb_spec k k0) as [->|Hne]; simpl.
    + intros [H|H]; auto.
    + intros [H|H]; [auto|]. destruct (IH H); auto.
Qed.

Lemma JsMap_set_keys {V} k (v : V) m :
  map fst (JsMap.set k v m) =
  match JsMap.get k m with Some _ => map fst m | None => map fst m ++ [k] end.
Proof.
  induction m as [|[k0 v0] m IH]; simpl; [reflexivity|].
  destruct (String.eqb_spec k k0) as [->|Hne]; simpl; [reflexivity|].
  rewrite IH. by destruct (JsMap.get k m).
Qed.

Lemma JsMap_get_keys {V} k (m : JsMap.t V) : is_Some (JsMap.get k m) ↔ In k (map fst m).
Proof.
  induction m as [|[k0 v0] m IH]; simpl.
  - split; [intros [? ?]; discriminate | contradiction].
  - destruct (String.eqb_spec k k0) as [->|Hne].
    + split; eauto.
    + rewrite IH. split; [auto|]. intros [H|H]; [congruence | auto].
Qed.

Lemma JsMap_set_NoDup {V} k (v : V) m : NoDup (map fst m) → NoDup (map fst (JsMap.set k v m)).
Proof.
  intros Hm. rewrite JsMap_set_keys. destruct (JsMap.get k m) eqn:Hget; [exact Hm|].
  apply NoDup_app. split; [exact Hm|]. split; [|apply NoDup_singleton].
  intros x Hx Hin. apply list_elem_of_singleton in Hin as ->.
  apply list_elem_of_In, JsMap_get_keys in Hx. rewrite Hget in Hx. by destruct Hx.
Qed.

(** The loop from any intermediate value of [redactedParams]. *)
Lemma redact_loop params : ∀ acc : JsMap.t string,
  let result :=
    fold_left (fun redactedParams (kv : string * string) =>
                 if is_sensitive kv.1 || is_sensitive kv.2
                 then JsMap.set kv.1 "[REDACTED]" redactedParams
                 else JsMap.set kv.1 kv.2 redactedParams) params acc in
  (∀ k v, In (k, v) result →
     In (k, v) acc ∨ v = "[REDACTED]" ∨
     (is_sensitive k = false ∧ is_sensitive v = false ∧ In (k, v) params)) ∧
  (∀ k, is_sensitive k = true →
     In k (map fst params) ∨ JsMap.get k acc = Some "[REDACTED]" →
     JsMap.get k result = Some "[REDACTED]") ∧
  (∀ k, is_Some (JsMap.get k result) ↔ In k (map fst params) ∨ is_Some (JsMap.get k acc)) ∧
  (NoDup (map fst acc) → NoDup (map fst result)).
Proof.
  induction params as [|[k0 v0] params IH]; intros acc; cbv zeta.
  - simpl. repeat split; auto; try tauto.
  - simpl fold_left.
    set (acc' := if is_sensitive k0 || is_sensitive v0
                 then JsMap.set k0 "[REDACTED]" acc else JsMap.set k0 v0 acc).
    destruct (IH acc') as (H1 & H2 & H3 & H4).
    assert (Hget : ∀ k, k ≠ k0 → JsMap.get k acc' = JsMap.get k acc).
    { intros k Hne. subst acc'. destruct (_ || _); by apply JsMap_get_set_ne. }
    assert (Hsome : is_Some (JsMap.get k0 acc')).
    { subst acc'. destruct (_ || _); rewrite JsMap_get_set_eq; eauto. }
    split; [|split; [|split]].
    + intros k v Hin. destruct (H1 k v Hin) as [Hacc|[->|(Hk & Hv & Hp)]]; auto.
      * subst acc'. destruct (is_sensitive k0 || is_sensitive v0) eqn:Hs;
          apply JsMap_set_In in Hacc as [[= -> ->]|Hacc]; auto.
        apply orb_false_elim in Hs as [Hs1 Hs2]. right. right. simpl. auto.
      * right. right. simpl. auto.
    + intros k Hk Hor. apply H2; [exact Hk|].
      destruct (String.eqb_spec k k0) as [->|Hne].
      * right. subst acc'. simpl. rewrite Hk. simpl. apply JsMap_get_set_eq.
      * destruct Hor as [[Heq|Hin]|Hacc]; [simpl in Heq; congruence | auto |].
        right. by rewrite Hget.
    + intros k. rewrite H3. simpl.
      destruct (String.eqb_spec k k0) as [->|Hne]; [tauto|].
      rewrite (Hget k Hne). split; [tauto|]. intros [[Heq|Hin]|Hacc]; [congruence | auto | auto].
    + intros Hnd. apply H4. subst acc'. destruct (_ || _); by apply JsMap_set_NoDup.
Qed.

(** X30. What [redactSensitiveParams] lets through to the log: every value
    it keeps is either the mark [[REDACTED]] or the value of a parameter
    whose name and value both contain none of the sensitive words, letter
    case aside; every parameter with a sensitive word in its name comes out
    as [[REDACTED]]; and each parameter name of the query comes out once, no
    other name does. *)
Theorem redaction_keeps_no_sensitive_value params :
  let result := redact_entries params in
  (∀ k v, In (k, v) result →
     v = "[REDACTED]" ∨
     (is_sensitive k = false ∧ is_sensitive v = false ∧ In (k, v) params)) ∧
  (∀ k, is_sensitive k = true → In k (map fst params) →
        JsMap.get k result = Some "[REDACTED]") ∧
  (∀ k, is_Some (JsMap.get k result) ↔ In k (map fst params)) ∧
  NoDup (map fst result).
Proof.
  destruct (redact_loop params []) as (H1 & H2 & H3 & H4). cbv zeta in *.
  fold (redact_entries params) in *.
  split; [|split; [|split]].
  - intros k v Hin. destruct (H1 k v Hin) as [[]|H]. exact H.
  - intros k Hk Hin. apply H2; auto.
  - intros k. rewrite H3. simpl. split; [|auto]. intros [H|[? H]]; [exact H | discriminate].
  - apply H4. constructor.
Qed.

(** The expectations of the test suite, on the entries of the query. *)
Example redact_mixed_query :
  redact_entries [("page", "1"); ("token", "abc"); ("secret", "xyz"); ("sort", "name")] =
  [("page", "1"); ("token", "[REDACTED]"); ("secret", "[REDACTED]"); ("sort", "name")].
Proof. reflexivity. Qed.

Example redact_by_value : redact_entries [("data", "contains-secret-inside")] = [("data", "[REDACTED]")].
Proof. reflexivity. Qed.

Example redact_uppercase_key : redact_entries [("CDP_SECRET", "abc123")] = [("CDP_SECRET", "[REDACTED]")].
Proof. reflexivity. Qed.

Example redact_nothing :
  redactSensitiveParams (fun _ => []) (join_with "&" ∘ map (fun kv => kv.1 +:+ "=" +:+ kv.2)) "" = "".
Proof. reflexivity. Qed.

Example redact_keeps_harmless_query :
  redactSensitiveParams (fun _ => [("page", "1"); ("sort", "name")])
    (join_with "&" ∘ map (fun kv => kv.1 +:+ "=" +:+ kv.2)) "?page=1&sort=name" =
  "?page=1&sort=name".
Proof. reflexivity. Qed.

(** ** Checks of the model on small inputs *)

Example split_dot_two : split_dot "Page.navigate" = ["Page"; "navigate"].
Proof. reflexivity. Qed.

Example split_dot_none : split_dot "Page" = ["Page"] ∧ command_of "Page" = None.
Proof. split; reflexivity. Qed.

Example split_dot_three : command_of "Browser.close.now" = Some "close".
Proof. reflexivity. Qed.

Example includes_timeout : includes (toLowerCase "ConnectionTimeout") "timeout" = true.
Proof. reflexivity. Qed.

(** The reason [TimedOut] of the protocol does not contain [timeout]. *)
Example abortReason_TimedOut : abortReason "TimedOut" = "failed".
Proof. reflexivity. Qed.

Example sample_connection_constructed : connect quiet_world =
  (Some sample_connection,
   [Call "puppeteer.launch" []; Call "browser.newPage" [];
    Send (Event "Target.targetCreated"
            (JObj [("targetInfo", targetInfo "T1" (JStr "") (JStr "about:blank"))]))]).
Proof. reflexivity. Qed.

(** [Runtime.evaluate] of [2+2] by value. *)
Example evaluate_by_value :
  frames (fx (onMessage sample_parse
                (to_json (request 24 "Runtime.evaluate" [("expression", JStr "2+2")]))
                four_world (session sample_connection))) =
  [Response (JNum 24)
     (JObj [("result",
             JObj [("type", JStr "number"); ("subtype", JUndefined);
                   ("className", JStr "Number"); ("value", JNum 4);
                   ("objectId", JUndefined); ("description", JStr "4")])])].
Proof. vm_compute. reflexivity. Qed.

(** Integers as the language prints them: in full up to 21 digits, with
    the digits that identify the double, and in exponent form from 10^21
    on. *)
Example Number_toString_samples :
  map Number_toString
    [0; 42; -7; 2 ^ 53; 2 ^ 60; 10 ^ 20; 10 ^ 21; -(10 ^ 21); 2 ^ 70; 123456789012345680000] =
  ["0"; "42"; "-7"; "9007199254740992"; "1152921504606847000"; "100000000000000000000";
   "1e+21"; "-1e+21"; "1.1805916207174113e+21"; "123456789012345680000"].
Proof. vm_compute. reflexivity. Qed.

(** A node id and a target id of 10^21 that the session does not know: the
    error frames name them as the template literal prints them. *)
Example large_ids_in_error_frames :
  let getAttributes := request 1 "DOM.getAttributes" [("nodeId", JNum (10 ^ 21))] in
  let reload := request 2 "Page.reload" [("targetId", JNum (10 ^ 21))] in
  let closeTarget := request 3 "Target.closeTarget" [("targetId", JNum (10 ^ 21))] in
  let parse := parse_among [getAttributes; reload; closeTarget] in
  map (fun v => frames (fx (onMessage parse (to_json v) quiet_world (session sample_connection))))
      [getAttributes; reload; closeTarget] =
  [ [ErrorFrame (JNum 1) (-32000) "Node not found: 1e+21"];
    [ErrorFrame (JNum 2) (-32000) "Target not found: 1e+21"];
    [ErrorFrame (JNum 3) (-32000) "Target not found: 1e+21"] ].
Proof. vm_compute. reflexivity. Qed.

(** The sums of [toQuad] and of the cookie size on operands that are not
    all numbers. *)
Example js_add_samples :
  map (fun ab : JSValue * JSValue => out (js_add ab.1 ab.2 quiet_world (session sample_connection)))
      [(JNum 1, JNum 2); (JNum 1, JNull); (JNum 1, JUndefined); (JStr "a", JNum 1);
       (JBool true, JBool true); (JArr [], JNum 1); (JNum (2 ^ 53), JNum 1)] =
  [Returns (JNum 3); Returns (JNum 1); Returns JNaN; Returns (JStr "a1");
   Returns (JNum 2); Returns (JStr "1"); Returns (JNum (2 ^ 53))].
Proof. vm_compute. reflexivity. Qed.

(** The [close] listener swallows the failure of [browser.close()]. *)
Lemma onClose_never_throws w s : out (onClose w s) = Returns tt ∧ st (onClose w s) = s.
Proof.
  unfold onClose, try_catch. rewrite run_bind_call.
  destruct (backend w "browser.close" []); simpl; auto.
Qed.
